(** * Request validation and type coercion of the home-price prediction API

    A shallow embedding of [app.py]: the JSON values the handler receives,
    the fragment of the Python runtime the validation code relies on
    ([str], [repr], [int], [float], dictionary access), the two validation
    passes, the table assembly, the [/predict] handler and the loading of
    the schema and the model at start-up, with the search for the tree
    size of [production.py], followed by the properties of the validation
    pipeline and of the code around it.  *)

From Stdlib Require Import ZArith List String Ascii Bool Lia.
From Stdlib Require Import DecimalString SpecFloat.
From Stdlib Require DecimalPos.
Import ListNotations.

#[local] Set Warnings "-register-all".
#[local] Open Scope string_scope.
#[local] Open Scope Z_scope.

(** ** Python runtime *)

Module Py.

(** Exceptions the code can meet.  [BadRequest] carries its description;
    [OtherError] stands for anything an external collaborator raises. *)
Inductive exn : Type :=
| TypeError
| ValueError
| OverflowError
| AttributeError
| BadRequest (description : string)
| OtherError (message : string).

(** A computation either returns or raises. *)
Inductive outcome (A : Type) : Type :=
| Ret (a : A)
| Raise (e : exn).
Arguments Ret {A} a.
Arguments Raise {A} e.

Definition bind {A B : Type} (c : outcome A) (k : A -> outcome B) : outcome B :=
  match c with
  | Ret a => k a
  | Raise e => Raise e
  end.

Notation "x <- c ;; k" := (bind c (fun x => k))
  (at level 61, c at next level, right associativity).

(** Binary64 floats as the Standard Library specifies them. *)
Definition float64 : Type := spec_float.
Definition prec : Z := 53.
Definition emax : Z := 1024.

(** What [request.get_json()] can produce.  A string is a sequence of code
    points below 256; an object keeps its keys in insertion order. *)
Inductive value : Type :=
| VNone
| VBool (b : bool)
| VInt (n : Z)
| VFloat (f : float64)
| VStr (s : string)
| VList (l : list value)
| VDict (d : list (string * value)).

(** *** Text *)

Definition join (sep : string) (l : list string) : string := String.concat sep l.

Definition str_of_nat (n : nat) : string := NilZero.string_of_uint (Nat.to_uint n).
Definition str_of_Z (n : Z) : string := NilZero.string_of_int (Z.to_int n).

Fixpoint str_mem (c : ascii) (s : string) : bool :=
  match s with
  | EmptyString => false
  | String c' s' => Ascii.eqb c c' || str_mem c s'
  end.

(** [sub in s] on two strings. *)
Fixpoint str_contains (sub s : string) : bool :=
  String.prefix sub s ||
  match s with
  | EmptyString => false
  | String _ s' => str_contains sub s'
  end.

Definition hex_digit (n : N) : ascii :=
  if (n <? 10)%N then ascii_of_N (48 + n) else ascii_of_N (87 + n).

Definition is_printable (c : ascii) : bool :=
  let n := N_of_ascii c in
  ((32 <=? n) && (n <? 127) || (161 <=? n) && negb (n =? 173))%N.

(** One character of [repr(s)] with [q] the enclosing quote. *)
Definition repr_char (q : ascii) (c : ascii) : string :=
  let n := N_of_ascii c in
  if Ascii.eqb c q || Ascii.eqb c "\" then String "\" (String c "")
  else if (n =? 9)%N then "\t"
  else if (n =? 10)%N then "\n"
  else if (n =? 13)%N then "\r"
  else if is_printable c then String c ""
  else String "\" (String "x" (String (hex_digit (n / 16)) (String (hex_digit (n mod 16)) ""))).

Fixpoint repr_chars (q : ascii) (s : string) : string :=
  match s with
  | EmptyString => ""
  | String c s' => repr_char q c ++ repr_chars q s'
  end.

Definition dquote : ascii := "034"%char.

(** [repr(s)] for a string: single quotes unless the text has a single
    quote and no double quote. *)
Definition repr_str (s : string) : string :=
  let q := if str_mem "'" s && negb (str_mem dquote s) then dquote else "'"%char in
  String q (repr_chars q s ++ String q "").

(** *** Numbers from text *)

(** Whitespace that [int] and [float] strip from both ends. *)
Definition is_space (c : ascii) : bool :=
  let n := N_of_ascii c in
  ((9 <=? n) && (n <=? 13) || (n =? 32) || (n =? 133) || (n =? 160))%N.

Definition is_digit (c : ascii) : bool :=
  let n := N_of_ascii c in ((48 <=? n) && (n <=? 57))%N.

Definition digit_val (c : ascii) : Z := Z.of_N (N_of_ascii c) - 48.

Fixpoint lstrip (l : list ascii) : list ascii :=
  match l with
  | c :: l' => if is_space c then lstrip l' else l
  | [] => []
  end.

Definition strip (l : list ascii) : list ascii := List.rev (lstrip (List.rev (lstrip l))).

(** Digit separators: an underscore is dropped when it stands between two
    digits, and makes the literal invalid anywhere else. *)
Fixpoint drop_underscores (prev : option ascii) (l : list ascii) : option (list ascii) :=
  match l with
  | [] => Some []
  | c :: l' =>
    if Ascii.eqb c "_" then
      match prev, l' with
      | Some p, n :: _ =>
        if is_digit p && is_digit n then drop_underscores (Some c) l' else None
      | _, _ => None
      end
    else option_map (cons c) (drop_underscores (Some c) l')
  end.

Definition digits_val (l : list ascii) : Z :=
  fold_left (fun acc c => 10 * acc + digit_val c) l 0.

Fixpoint take_digits (l : list ascii) : list ascii * list ascii :=
  match l with
  | c :: l' =>
    if is_digit c then let '(ds, rest) := take_digits l' in (c :: ds, rest) else ([], l)
  | [] => ([], [])
  end.

(** An optional sign; [true] is minus. *)
Definition take_sign (l : list ascii) : bool * list ascii :=
  match l with
  | c :: l' =>
    if Ascii.eqb c "-" then (true, l')
    else if Ascii.eqb c "+" then (false, l') else (false, l)
  | [] => (false, [])
  end.

(** [int(s)] in base ten; [None] is the [ValueError]. *)
Definition int_of_str (s : string) : option Z :=
  match drop_underscores None (strip (list_ascii_of_string s)) with
  | None => None
  | Some l =>
    let '(neg, body) := take_sign l in
    match take_digits body with
    | ((_ :: _) as ds, []) => Some (cond_Zopp neg (digits_val ds))
    | _ => None
    end
  end.

(** The binary64 number nearest to [m * 10^e], ties to even. *)
Definition float_of_dec (neg : bool) (m e : Z) : float64 :=
  if m =? 0 then S754_zero neg
  else if 0 <=? e then binary_normalize prec emax (cond_Zopp neg (m * 10 ^ e)) 0 neg
  else
    let '(q, r) := Z.div_eucl (m * 2 ^ 1080) (10 ^ (- e)) in
    let sticky := if r =? 0 then 0 else 1 in
    binary_normalize prec emax (cond_Zopp neg (2 * q + sticky)) (- 1081) neg.

Definition lower (c : ascii) : ascii :=
  let n := N_of_ascii c in
  if ((65 <=? n) && (n <=? 90))%N then ascii_of_N (n + 32) else c.

Definition exp_marker (c : ascii) : bool := Ascii.eqb (lower c) "e".

(** The exponent part of a float literal, absent or [e], a sign and digits. *)
Definition take_exponent (l : list ascii) : option Z :=
  match l with
  | [] => Some 0
  | c :: l' =>
    if exp_marker c then
      let '(neg, body) := take_sign l' in
      match take_digits body with
      | ((_ :: _) as ds, []) => Some (cond_Zopp neg (digits_val ds))
      | _ => None
      end
    else None
  end.

(** [float(s)]; [None] is the [ValueError]. *)
Definition float_of_str (s : string) : option float64 :=
  match drop_underscores None (strip (list_ascii_of_string s)) with
  | None => None
  | Some l =>
    let '(neg, body) := take_sign l in
    let word := string_of_list_ascii (map lower body) in
    if String.eqb word "inf" || String.eqb word "infinity" then Some (S754_infinity neg)
    else if String.eqb word "nan" then Some S754_nan
    else
      let '(ip, rest) := take_digits body in
      let '(fp, rest) :=
        match rest with
        | c :: rest' => if Ascii.eqb c "." then take_digits rest' else ([], rest)
        | [] => ([], [])
        end in
      match (ip ++ fp)%list with
      | [] => None
      | ds =>
        match take_exponent rest with
        | Some e => Some (float_of_dec neg (digits_val ds) (e - Z.of_nat (List.length fp)))
        | None => None
        end
      end
  end.

(** *** Numbers to text *)

Definition float_eqb (x y : float64) : bool :=
  match x, y with
  | S754_zero s, S754_zero s' => Bool.eqb s s'
  | S754_infinity s, S754_infinity s' => Bool.eqb s s'
  | S754_nan, S754_nan => true
  | S754_finite s m e, S754_finite s' m' e' => Bool.eqb s s' && (m =? m')%positive && (e =? e')
  | _, _ => false
  end.

(** [num/den < 10^p] for positive [num], [den]. *)
Definition below_pow10 (num den p : Z) : bool :=
  if 0 <=? p then num <? den * 10 ^ p else num * 10 ^ (- p) <? den.

(** The [p] with [10^(p-1) <= num/den < 10^p], searched upwards from an
    underestimate. *)
Fixpoint find_pow10 (fuel : nat) (num den p : Z) : Z :=
  match fuel with
  | O => p
  | S fuel' => if below_pow10 num den p then p else find_pow10 fuel' num den (p + 1)
  end.

Definition decimal_exponent (num den : Z) : Z :=
  find_pow10 8 num den ((Z.log2 num - Z.log2 den) * 1233 / 4096 - 2).

(** The shortest digits that read back as [m * 2^e], tried at 1 to 17
    significant digits: the two neighbours at that length, the nearer one
    first when both read back.  Returns the digits as a number and the
    position of the decimal point ([0.digits * 10^point]). *)
Fixpoint shortest_from (fuel : nat) (n : Z) (m : positive) (e : Z) (num den p : Z) : Z * Z :=
  let scale := n - p in
  let '(lo, r) :=
    if 0 <=? scale then Z.div_eucl (num * 10 ^ scale) den
    else Z.div_eucl num (den * 10 ^ (- scale)) in
  let d := if 0 <=? scale then den else den * 10 ^ (- scale) in
  let hi := lo + 1 in
  let ok c := float_eqb (float_of_dec false c (- scale)) (S754_finite false m e) in
  let up := match 2 * r ?= d with Gt => true | Eq => Z.odd lo | Lt => false end in
  let pick c := if c =? 10 ^ n then (1, p + 1) else (c, p) in
  match fuel with
  | O => pick (if up then hi else lo)
  | S fuel' =>
    if ok lo && ok hi then pick (if up then hi else lo)
    else if ok lo then pick lo
    else if ok hi then pick hi
    else shortest_from fuel' (n + 1) m e num den p
  end.

Definition shortest_digits (m : positive) (e : Z) : Z * Z :=
  let num := if 0 <=? e then Zpos m * 2 ^ e else Zpos m in
  let den := if 0 <=? e then 1 else 2 ^ (- e) in
  shortest_from 16 1 m e num den (decimal_exponent num den).

Fixpoint zeros (n : nat) : string :=
  match n with
  | O => ""
  | S n' => String "0" (zeros n')
  end.

Fixpoint rstrip_zeros_rev (l : list ascii) : list ascii :=
  match l with
  | c :: l' => if Ascii.eqb c "0" then rstrip_zeros_rev l' else l
  | [] => []
  end.

(** [repr] of a positive finite float from its shortest digits. *)
Definition repr_finite (m : positive) (e : Z) : string :=
  let '(c, point) := shortest_digits m e in
  let all := list_ascii_of_string (str_of_Z c) in
  let ds := string_of_list_ascii (List.rev (rstrip_zeros_rev (List.rev all))) in
  let n := Z.of_nat (String.length ds) in
  if (point <=? -4) || (16 <? point) then
    let x := point - 1 in
    let mant :=
      match ds with
      | String d1 EmptyString => ds
      | String d1 rest => String d1 (String "." rest)
      | EmptyString => ds
      end in
    let xs := str_of_Z (Z.abs x) in
    mant ++ "e" ++ (if x <? 0 then "-" else "+")
         ++ (if Z.abs x <? 10 then "0" else "") ++ xs
  else if point <=? 0 then "0." ++ zeros (Z.to_nat (- point)) ++ ds
  else if n <=? point then ds ++ zeros (Z.to_nat (point - n)) ++ ".0"
  else
    String.substring 0 (Z.to_nat point) ds ++ "."
      ++ String.substring (Z.to_nat point) (Z.to_nat (n - point)) ds.

(** [repr(x)] for a float. *)
Definition repr_float (f : float64) : string :=
  match f with
  | S754_nan => "nan"
  | S754_infinity s => if s then "-inf" else "inf"
  | S754_zero s => if s then "-0.0" else "0.0"
  | S754_finite s m e => (if s then "-" else "") ++ repr_finite m e
  end.

(** *** [repr] and [str] of values *)

Fixpoint repr (v : value) : string :=
  match v with
  | VNone => "None"
  | VBool b => if b then "True" else "False"
  | VInt n => str_of_Z n
  | VFloat f => repr_float f
  | VStr s => repr_str s
  | VList l => "[" ++ join ", " (map repr l) ++ "]"
  | VDict d => "{" ++ join ", " (map (fun '(k, x) => repr_str k ++ ": " ++ repr x) d) ++ "}"
  end.

(** [str(v)], which is also what an f-string field [{v}] prints. *)
Definition to_str (v : value) : string :=
  match v with
  | VStr s => s
  | _ => repr v
  end.

(** *** The three constructors of [type_mapping] *)

Inductive type : Type := int | float | str.

(** [t.__name__] *)
Definition name (t : type) : string :=
  match t with
  | int => "int"
  | float => "float"
  | str => "str"
  end.

Definition int_of_float (f : float64) : outcome Z :=
  match f with
  | S754_nan => Raise ValueError
  | S754_infinity _ => Raise OverflowError
  | S754_zero _ => Ret 0
  | S754_finite s m e => Ret (cond_Zopp s (Z.shiftl (Zpos m) e))
  end.

Definition float_of_int (n : Z) : outcome float64 :=
  match binary_normalize prec emax n 0 false with
  | S754_infinity _ => Raise OverflowError
  | f => Ret f
  end.

(** [t(v)]: the value built, or the exception raised. *)
Definition construct (t : type) (v : value) : outcome value :=
  match t with
  | int =>
    match v with
    | VBool b => Ret (VInt (if b then 1 else 0))
    | VInt n => Ret (VInt n)
    | VFloat f => n <- int_of_float f ;; Ret (VInt n)
    | VStr s =>
      match int_of_str s with
      | Some n => Ret (VInt n)
      | None => Raise ValueError
      end
    | VNone | VList _ | VDict _ => Raise TypeError
    end
  | float =>
    match v with
    | VBool b => Ret (VFloat (if b then binary_normalize prec emax 1 0 false else S754_zero false))
    | VInt n => f <- float_of_int n ;; Ret (VFloat f)
    | VFloat f => Ret (VFloat f)
    | VStr s =>
      match float_of_str s with
      | Some f => Ret (VFloat f)
      | None => Raise ValueError
      end
    | VNone | VList _ | VDict _ => Raise TypeError
    end
  | str => Ret (VStr (to_str v))
  end.

(** [v < 0] *)
Definition lt_zero (v : value) : outcome bool :=
  match v with
  | VBool _ => Ret false
  | VInt n => Ret (n <? 0)
  | VFloat f => Ret (SFltb f (S754_zero false))
  | VNone | VStr _ | VList _ | VDict _ => Raise TypeError
  end.

Definition is_none (v : value) : bool :=
  match v with
  | VNone => true
  | _ => false
  end.

(** *** Dictionaries and the other containers a record can be *)

Definition dict : Type := list (string * value).

Fixpoint dict_get (d : dict) (k : string) : option value :=
  match d with
  | [] => None
  | (k', x) :: d' => if String.eqb k k' then Some x else dict_get d' k
  end.

Definition dict_mem (d : dict) (k : string) : bool :=
  existsb (String.eqb k) (map fst d).

(** [d[k] = x]: an existing key keeps its place, a new one goes last. *)
Fixpoint dict_set (d : dict) (k : string) (x : value) : dict :=
  match d with
  | [] => [(k, x)]
  | (k', x') :: d' => if String.eqb k k' then (k', x) :: d' else (k', x') :: dict_set d' k x
  end.

Definition chars (s : string) : list value :=
  map (fun c => VStr (String c "")) (list_ascii_of_string s).

Definition is_str (k : string) (v : value) : bool :=
  match v with
  | VStr s => String.eqb s k
  | _ => false
  end.

(** [k in c] for a string [k]. *)
Definition contains (c : value) (k : string) : outcome bool :=
  match c with
  | VDict d => Ret (dict_mem d k)
  | VStr s => Ret (str_contains k s)
  | VList l => Ret (existsb (is_str k) l)
  | VNone | VBool _ | VInt _ | VFloat _ => Raise TypeError
  end.

(** What [for x in c] goes through. *)
Definition iterate (c : value) : outcome (list value) :=
  match c with
  | VDict d => Ret (map (fun kv => VStr (fst kv)) d)
  | VStr s => Ret (chars s)
  | VList l => Ret l
  | VNone | VBool _ | VInt _ | VFloat _ => Raise TypeError
  end.

(** [c.get(k)] *)
Definition get (c : value) (k : string) : outcome value :=
  match c with
  | VDict d =>
    match dict_get d k with
    | Some x => Ret x
    | None => Ret VNone
    end
  | _ => Raise AttributeError
  end.

(** [c[k] = x] on a dictionary. *)
Definition set_item (c : value) (k : string) (x : value) : outcome value :=
  match c with
  | VDict d => Ret (VDict (dict_set d k x))
  | _ => Raise TypeError
  end.

(** [[x for x in l if keep(x)]] *)
Fixpoint comprehension {A : Type} (keep : A -> outcome bool) (l : list A) : outcome (list A) :=
  match l with
  | [] => Ret []
  | x :: l' =>
    b <- keep x ;;
    rest <- comprehension keep l' ;;
    Ret (if b then x :: rest else rest)
  end.

End Py.

(** ** The application *)

Module App.
Import Py.

(** [expected_features]: field names with their constructors, in the order
    of [features.json]. *)
Definition schema : Type := list (string * type).

Definition nonempty {A : Type} (l : list A) : bool :=
  match l with
  | [] => false
  | _ :: _ => true
  end.

Definition strs (l : list string) : value := VList (map VStr l).

(** *** [validate_input_data] *)

(** [[field for field in expected_features if field not in input_data]] *)
Definition missing_fields (input_data : value) (expected_features : schema)
  : outcome (list string) :=
  comprehension (fun field => b <- contains input_data field ;; Ret (negb b))
                (map fst expected_features).

(** [x in expected_features] for whatever a record yields: looking a key
    up hashes it, which lists and dictionaries refuse. *)
Definition in_schema (x : value) (expected_features : schema) : outcome bool :=
  match x with
  | VStr s => Ret (existsb (String.eqb s) (map fst expected_features))
  | VList _ | VDict _ => Raise TypeError
  | VNone | VBool _ | VInt _ | VFloat _ => Ret false
  end.

(** [[field for field in input_data if field not in expected_features]] *)
Definition extra_fields (input_data : value) (expected_features : schema)
  : outcome (list value) :=
  items <- iterate input_data ;;
  comprehension (fun field => b <- in_schema field expected_features ;; Ret (negb b)) items.

(** [[field for field in expected_features if input_data.get(field) is None]] *)
Definition null_fields (input_data : value) (expected_features : schema)
  : outcome (list string) :=
  comprehension (fun field => x <- get input_data field ;; Ret (is_none x))
                (map fst expected_features).

Definition record_prefix (idx : nat) : string := "Record " ++ str_of_nat idx ++ ": ".

(** The loop of [validate_input_data], entered at index [idx]. *)
Fixpoint validate_from (idx : nat) (input_data_list : list value)
  (expected_features : schema) : outcome (bool * string) :=
  match input_data_list with
  | [] => Ret (true, "")
  | input_data :: rest =>
    if is_none input_data then
      Ret (false, record_prefix idx ++ "No input data provided")
    else
      missing <- missing_fields input_data expected_features ;;
      extra <- extra_fields input_data expected_features ;;
      if nonempty missing then
        Ret (false, record_prefix idx ++ "Missing required fields: " ++ repr (strs missing))
      else if nonempty extra then
        Ret (false, record_prefix idx ++ "Unexpected fields provided: " ++ repr (VList extra))
      else
        nulls <- null_fields input_data expected_features ;;
        if nonempty nulls then
          Ret (false, record_prefix idx ++ "Fields cannot be null: " ++ repr (strs nulls))
        else validate_from (S idx) rest expected_features
  end.

Definition validate_input_data (input_data_list : list value)
  (expected_features : schema) : outcome (bool * string) :=
  validate_from 0 input_data_list expected_features.

(** *** [check_data_types_and_values] *)

(** The record under inspection and the two error lists of one iteration
    of the outer loop.  The record is the caller's object: what is written
    to it stays written however the function ends. *)
Record locals : Type := {
  input_data : value;
  type_errors : list string;
  invalid_values : list string
}.

Definition add_type_error (msg : string) (st : locals) : locals :=
  {| input_data := input_data st;
     type_errors := type_errors st ++ [msg];
     invalid_values := invalid_values st |}.

Definition add_invalid_value (msg : string) (st : locals) : locals :=
  {| input_data := input_data st;
     type_errors := type_errors st;
     invalid_values := invalid_values st ++ [msg] |}.

Definition with_record (r : value) (st : locals) : locals :=
  {| input_data := r;
     type_errors := type_errors st;
     invalid_values := invalid_values st |}.

Definition null_message (field : string) : string :=
  "Field '" ++ field ++ "' cannot be null".

Definition type_message (field : string) (expected_type : type) (original_value : value) : string :=
  "Field '" ++ field ++ "' must be of type " ++ name expected_type
    ++ " (got value '" ++ to_str original_value ++ "')".

Definition value_message (field : string) : string :=
  "Field '" ++ field ++ "' must be a non-negative number".

(** [expected_type in [int, float]] *)
Definition numeric (expected_type : type) : bool :=
  match expected_type with
  | int | float => true
  | str => false
  end.

(** [except (ValueError, TypeError)] *)
Definition caught (e : exn) : bool :=
  match e with
  | ValueError | TypeError => true
  | _ => false
  end.

(** The [try] block: convert, store, test the sign. *)
Definition convert_and_store (field : string) (expected_type : type) (x : value)
  (st : locals) : locals * outcome unit :=
  match construct expected_type x with
  | Raise e => (st, Raise e)
  | Ret x' =>
    match set_item (input_data st) field x' with
    | Raise e => (st, Raise e)
    | Ret r =>
      let st := with_record r st in
      if numeric expected_type then
        match lt_zero x' with
        | Raise e => (st, Raise e)
        | Ret true => (add_invalid_value (value_message field) st, Ret tt)
        | Ret false => (st, Ret tt)
        end
      else (st, Ret tt)
    end
  end.

(** One iteration of the loop over [expected_features.items()]. *)
Definition check_field (field : string) (expected_type : type) (st : locals)
  : locals * outcome unit :=
  match get (input_data st) field with
  | Raise e => (st, Raise e)
  | Ret x =>
    if is_none x then (add_type_error (null_message field) st, Ret tt)
    else
      match convert_and_store field expected_type x st with
      | (st', Raise e) =>
        if caught e then (add_type_error (type_message field expected_type x) st', Ret tt)
        else (st', Raise e)
      | done => done
      end
  end.

Fixpoint check_fields (fields : schema) (st : locals) : locals * outcome unit :=
  match fields with
  | [] => (st, Ret tt)
  | (field, expected_type) :: rest =>
    match check_field field expected_type st with
    | (st', Ret _) => check_fields rest st'
    | stop => stop
    end
  end.

Definition type_error_text (idx : nat) (errors : list string) : string :=
  record_prefix idx ++ "Invalid input format: Type errors - " ++ join ", " errors.

Definition invalid_value_text (idx : nat) (errors : list string) : string :=
  record_prefix idx ++ "Invalid values: " ++ join ", " errors.

(** The body of the outer loop for one record: the record as it is left,
    and either the tuple a [return] hands back or [None] to go on. *)
Definition check_record (idx : nat) (r : value) (expected_features : schema)
  : value * outcome (option (bool * string)) :=
  let '(st, res) :=
    check_fields expected_features
      {| input_data := r; type_errors := []; invalid_values := [] |} in
  (input_data st,
   match res with
   | Raise e => Raise e
   | Ret _ =>
     if nonempty (type_errors st) then Ret (Some (false, type_error_text idx (type_errors st)))
     else if nonempty (invalid_values st) then
       Ret (Some (false, invalid_value_text idx (invalid_values st)))
     else Ret None
   end).

(** The loop of [check_data_types_and_values], entered at index [idx]:
    the batch as it is left, and the result. *)
Fixpoint check_from (idx : nat) (input_data_list : list value)
  (expected_features : schema) : list value * outcome (bool * string) :=
  match input_data_list with
  | [] => ([], Ret (true, ""))
  | r :: rest =>
    match check_record idx r expected_features with
    | (r', Ret None) =>
      let '(rest', res) := check_from (S idx) rest expected_features in
      (r' :: rest', res)
    | (r', Ret (Some res)) => (r' :: rest, Ret res)
    | (r', Raise e) => (r' :: rest, Raise e)
    end
  end.

Definition check_data_types_and_values (input_data_list : list value)
  (expected_features : schema) : list value * outcome (bool * string) :=
  check_from 0 input_data_list expected_features.

(** *** The endpoint *)

(** What [jsonify(...), status] sends back. *)
Record response : Type := { body : value; status : Z }.

Definition failure (status : Z) (error : string) : response :=
  {| body := VDict [("success", VBool false); ("error", VStr error)]; status := status |}.

Definition success (predictions : list value) : response :=
  {| body := VDict [("success", VBool true); ("predictions", VList predictions)];
     status := 200 |}.

Inductive level : Type := INFO | ERROR.

(** The four steps of [predict]. *)
Inductive stage : Type := Validation | Coercion | Assembly | Prediction.

(** What a run of the handler leaves behind: the lines it logs and the
    steps it enters. *)
Inductive event : Type :=
| Log (lvl : level) (msg : string)
| Enter (s : stage).

(** [str(e)] for a [BadRequest]. *)
Definition bad_request_text (description : string) : string :=
  "400 Bad Request: " ++ description.

(** [handle_bad_request], the application's handler for a [BadRequest]
    that leaves a view. *)
Definition handle_bad_request (description : string) : list event * response :=
  let text := bad_request_text description in
  ([Log ERROR ("BadRequest error: " ++ text)],
   if str_contains "Failed to decode JSON object" text || str_contains "Expecting value" text
   then failure 400 "Invalid JSON input format"
   else failure 400 description).

(** [hello], the view of the root URL. *)
Definition hello : list event * response :=
  ([Log INFO "Main endpoint processing HTTP request"],
   {| body := VDict [("success", VBool true); ("message", VStr "Hello, World!")];
      status := 200 |}).

(** *** Start-up *)

(** [type_mapping] *)
Definition type_mapping : list (string * type) :=
  [("int", int); ("float", float); ("str", str)].

(** [type(v).__name__] *)
Definition type_name (v : value) : string :=
  match v with
  | VNone => "NoneType"
  | VBool _ => "bool"
  | VInt _ => "int"
  | VFloat _ => "float"
  | VStr _ => "str"
  | VList _ => "list"
  | VDict _ => "dict"
  end.

(** What reading a file at start-up ends in: its content, a
    [FileNotFoundError], or another exception, known by its text. *)
Inductive reading (A : Type) : Type :=
| Read (content : A)
| NotFound
| Failed (text : string).
Arguments Read {A} content.
Arguments NotFound {A}.
Arguments Failed {A} text.

(** [raise SystemExit(...)], with the text its argument prints as. *)
Inductive exit : Type := SystemExit (code : string).

(** [v.items()]; on the right, the text of the [AttributeError]. *)
Definition items (v : value) : dict + string :=
  match v with
  | VDict d => inl d
  | _ => inr ("'" ++ type_name v ++ "' object has no attribute 'items'")
  end.

Fixpoint lookup (k : string) (mapping : list (string * type)) : option type :=
  match mapping with
  | [] => None
  | (k', t) :: rest => if String.eqb k k' then Some t else lookup k rest
  end.

(** [type_mapping[type_str]]; on the right, the text of the [KeyError],
    or of the [TypeError] for a key that cannot be hashed. *)
Definition type_mapping_item (type_str : value) : type + string :=
  match type_str with
  | VStr s =>
    match lookup s type_mapping with
    | Some t => inl t
    | None => inr (repr type_str)
    end
  | VList _ | VDict _ => inr ("unhashable type: '" ++ type_name type_str ++ "'")
  | VNone | VBool _ | VInt _ | VFloat _ => inr (repr type_str)
  end.

(** [features[field] = t]: an existing field keeps its place, a new one
    goes last. *)
Fixpoint schema_set (features : schema) (field : string) (t : type) : schema :=
  match features with
  | [] => [(field, t)]
  | (field', t') :: rest =>
    if String.eqb field field' then (field', t) :: rest
    else (field', t') :: schema_set rest field t
  end.

(** [{field: type_mapping[type_str] for field, type_str in entries}],
    from the entries still to come and the dictionary built so far. *)
Fixpoint features_from (entries : dict) (features : schema) : schema + string :=
  match entries with
  | [] => inl features
  | (field, type_str) :: rest =>
    match type_mapping_item type_str with
    | inl t => features_from rest (schema_set features field t)
    | inr e => inr e
    end
  end.

(** The block that loads [expected_features], given what reading
    [features.json] with [json.load] ends in: what it logs, and the schema
    or the exit. *)
Definition load_expected_features (file : reading value) : list event * (schema + exit) :=
  match file with
  | NotFound =>
    ([Log ERROR "features.json file not found. Please ensure it exists in the project directory."],
     inr (SystemExit "features.json file is missing. Application cannot start without it."))
  | Failed e => ([Log ERROR ("Error loading expected features: " ++ e)], inr (SystemExit e))
  | Read expected_features_str =>
    match
      match items expected_features_str with
      | inl entries => features_from entries []
      | inr e => inr e
      end
    with
    | inl expected_features => ([], inl expected_features)
    | inr e => ([Log ERROR ("Error loading expected features: " ++ e)], inr (SystemExit e))
    end
  end.

(** The block that loads the model, given what [joblib.load] ends in. *)
Definition load_model {model : Type} (file : model + string) : list event * (model + exit) :=
  match file with
  | inl m => ([], inl m)
  | inr e => ([Log ERROR ("Error loading model: " ++ e)], inr (SystemExit e))
  end.

(** The module down to its definitions: the schema, then the model. *)
Definition startup {model : Type} (features_file : reading value) (model_file : model + string)
  : list event * (schema * model + exit) :=
  match load_expected_features features_file with
  | (events, inr stop) => (events, inr stop)
  | (events, inl expected_features) =>
    match load_model model_file with
    | (events', inr stop) => ((events ++ events')%list, inr stop)
    | (events', inl m) => ((events ++ events')%list, inl (expected_features, m))
    end
  end.

Section Endpoint.

(** The schema read from [features.json] at start-up. *)
Variable expected_features : schema.

(** The two collaborators: [pd.DataFrame(records, columns=...)] builds a
    table or raises, and [model.predict(table).tolist()] gives the
    predictions or raises; an exception is known by its text. *)
Variable table : Type.
Variable DataFrame : list value -> list string -> table + string.
Variable model_predict : option table -> list value + string.

Definition convert_to_dataframe (input_data_list : list value) (features : schema)
  : option table * option string :=
  match DataFrame input_data_list (map fst features) with
  | inl input_df => (Some input_df, None)
  | inr e => (None, Some e)
  end.

(** [if error:] on [None] or a string. *)
Definition truthy (error : option string) : bool :=
  match error with
  | None | Some EmptyString => false
  | Some _ => true
  end.

Definition text_of (error : option string) : string :=
  match error with
  | Some e => e
  | None => "None"
  end.

(** Step 4: the [try] around the model. *)
Definition predict_step (input_df : option table) : list event * outcome response :=
  match model_predict input_df with
  | inl predictions =>
    ([Enter Prediction;
      Log INFO ("Predictions made successfully: " ++ to_str (VList predictions))],
     Ret (success predictions))
  | inr e =>
    ([Enter Prediction; Log ERROR ("Error making predictions: " ++ e)],
     Ret (failure 500 ("Prediction failed: " ++ e)))
  end.

(** Step 3, then step 4. *)
Definition assemble_step (input_data : list value) : list event * outcome response :=
  let '(input_df, error) := convert_to_dataframe input_data expected_features in
  if truthy error then
    ([Enter Assembly;
      Log ERROR ("Error converting input data to DataFrame: " ++ text_of error)],
     Ret (failure 400 ("Invalid input format: " ++ text_of error)))
  else
    let '(events, res) := predict_step input_df in
    (Enter Assembly :: events, res).

(** Step 2, then the rest, on the batch as step 2 leaves it. *)
Definition coerce_step (input_data : list value) : list event * outcome response :=
  match check_data_types_and_values input_data expected_features with
  | (_, Raise e) => ([Enter Coercion], Raise e)
  | (_, Ret (false, error_message)) =>
    ([Enter Coercion; Log ERROR ("Data type/value validation error: " ++ error_message)],
     Ret (failure 400 error_message))
  | (input_data', Ret (true, _)) =>
    let '(events, res) := assemble_step input_data' in
    (Enter Coercion :: events, res)
  end.

(** Step 1, then the rest. *)
Definition validate_step (input_data : list value) : list event * outcome response :=
  match validate_input_data input_data expected_features with
  | Raise e => ([Enter Validation], Raise e)
  | Ret (false, error_message) =>
    ([Enter Validation; Log ERROR ("Input validation error: " ++ error_message)],
     Ret (failure 400 error_message))
  | Ret (true, _) =>
    let '(events, res) := coerce_step input_data in
    (Enter Validation :: events, res)
  end.

(** [predict], given what [request.get_json()] does on the request. *)
Definition predict (get_json : outcome value) : list event * outcome response :=
  let start := Log INFO "Inference endpoint processing HTTP request" in
  let parsed :=
    match get_json with
    | Ret VNone => Raise (BadRequest "No JSON input provided or invalid JSON format.")
    | r => r
    end in
  match parsed with
  | Raise (BadRequest description) =>
    ([start; Log ERROR ("BadRequest exception: " ++ bad_request_text description)],
     Ret (failure 400 "Invalid JSON input format"))
  | Raise e => ([start], Raise e)
  | Ret (VList records) =>
    let '(events, res) := validate_step records in (start :: events, res)
  | Ret (VDict d) =>
    let '(events, res) := validate_step [VDict d] in (start :: events, res)
  | Ret _ =>
    ([start; Log ERROR "Input data must be a list of records or a single record object."],
     Ret (failure 400 "Input data must be a list of records or a single record object."))
  end.

End Endpoint.

End App.

(** ** The training script *)

Module Production.
Import Py.

(** [best_size] and [best_mae] in [find_best_tree_size]. *)
Record best : Type := { best_size : option Z; best_mae : float64 }.

Section Search.

(** What the body of the loop computes for one [max_leaf_nodes] from the
    four arguments of [find_best_tree_size]: the mean absolute error, on
    the validation set, of the tree fitted on the training set with that
    many leaves, or the text of the exception scikit-learn raises. *)
Variable mae_for : Z -> float64 + string.

(** The loop over the sizes still to try. *)
Fixpoint search (sizes : list Z) (st : best) : best + string :=
  match sizes with
  | [] => inl st
  | max_leaf_nodes :: rest =>
    match mae_for max_leaf_nodes with
    | inr e => inr e
    | inl mae =>
      if SFltb mae (best_mae st)
      then search rest {| best_size := Some max_leaf_nodes; best_mae := mae |}
      else search rest st
    end
  end.

Definition sizes : list Z := [5; 25; 50; 100; 250; 500; 5000].

Definition find_best_tree_size : option Z + string :=
  match search sizes {| best_size := None; best_mae := S754_infinity false |} with
  | inl st => inl (best_size st)
  | inr e => inr e
  end.

End Search.

End Production.

(** ** Notions the properties are stated with *)

Import Py App.

(** A record goes through the four checks of [validate_input_data]
    without tripping any. *)
Definition passes (expected_features : schema) (r : value) : Prop :=
  is_none r = false /\
  missing_fields r expected_features = Ret [] /\
  extra_fields r expected_features = Ret [] /\
  null_fields r expected_features = Ret [].

(** The schema fields a dictionary has no key for, in schema order. *)
Definition absent_fields (d : dict) (expected_features : schema) : list string :=
  filter (fun field => negb (dict_mem d field)) (map fst expected_features).

(** The text of a Python list of strings: [['a', 'b']]. *)
Definition list_text (l : list string) : string :=
  "[" ++ join ", " (map repr_str l) ++ "]".

(** [sub] occurs in [s]. *)
Definition includes (sub s : string) : Prop :=
  exists before after, s = before ++ sub ++ after.

(** How one schema field of a dictionary fares in the coercion pass,
    judged on the field alone. *)
Inductive verdict : Type :=
| Null
| Rejected (x : value)
| Escapes (e : exn)
| Negative (x' : value)
| Accepted (x' : value).

Definition below_zero (x : value) : bool :=
  match lt_zero x with
  | Ret b => b
  | Raise _ => false
  end.

Definition verdict_of (d : dict) (field : string) (t : type) : verdict :=
  match dict_get d field with
  | None | Some VNone => Null
  | Some x =>
    match construct t x with
    | Raise e => if caught e then Rejected x else Escapes e
    | Ret x' => if numeric t && below_zero x' then Negative x' else Accepted x'
    end
  end.

(** Every type error of a record, one schema field after the other. *)
Definition type_errors_of (d : dict) (expected_features : schema) : list string :=
  flat_map (fun '(field, t) =>
              match verdict_of d field t with
              | Null => [null_message field]
              | Rejected x => [type_message field t x]
              | _ => []
              end) expected_features.

(** Every value error of a record, one schema field after the other. *)
Definition value_errors_of (d : dict) (expected_features : schema) : list string :=
  flat_map (fun '(field, t) =>
              match verdict_of d field t with
              | Negative _ => [value_message field]
              | _ => []
              end) expected_features.

(** The first exception of a record that the [except] clause lets through. *)
Fixpoint escaping (d : dict) (expected_features : schema) : option exn :=
  match expected_features with
  | [] => None
  | (field, t) :: rest =>
    match verdict_of d field t with
    | Escapes e => Some e
    | _ => escaping d rest
    end
  end.

(** Writing the converted values of [d] into [acc], field by field. *)
Definition store_converted (d : dict) (acc : dict) (entry : string * type) : dict :=
  match verdict_of d (fst entry) (snd entry) with
  | Negative x' | Accepted x' => dict_set acc (fst entry) x'
  | _ => acc
  end.

Definition coerce (d : dict) (expected_features : schema) : dict :=
  fold_left (store_converted d) expected_features d.

(** The records of [pre] go through the coercion pass, whatever their
    index, and come out as [pre']. *)
Definition coerced_to (expected_features : schema) (pre pre' : list value) : Prop :=
  Forall2 (fun r r' => forall idx, check_record idx r expected_features = (r', Ret None))
          pre pre'.

(** A record as the schema wants it: an object with exactly the schema's
    keys, no null, and for every field a value that converts, to a number
    that is not negative when the field is numeric. *)
Definition acceptable (expected_features : schema) (r : value) : Prop :=
  exists d,
    r = VDict d /\
    (forall k, In k (map fst d) <-> In k (map fst expected_features)) /\
    (forall k x, dict_get d k = Some x -> x <> VNone) /\
    (forall field t, In (field, t) expected_features ->
       exists x x', dict_get d field = Some x /\ construct t x = Ret x'
                    /\ (numeric t = true -> lt_zero x' = Ret false)).

(** The batch [predict] makes of a payload: an array as it is, an object
    on its own as the array of that object, nothing else. *)
Definition batch_of (payload : value) : option (list value) :=
  match payload with
  | VList records => Some records
  | VDict d => Some [VDict d]
  | _ => None
  end.

(** The line every run of [predict] logs first. *)
Definition opening : event := Log INFO "Inference endpoint processing HTTP request".

(** The steps a run of the handler entered, in order. *)
Fixpoint stages_of (events : list event) : list stage :=
  match events with
  | [] => []
  | Enter s :: rest => s :: stages_of rest
  | Log _ _ :: rest => stages_of rest
  end.

(** A three-field schema and records over it, for running the functions. *)
Definition plot : schema := [("LotArea", int); ("YearBuilt", int); ("FullBath", int)].

Definition lot (lot_area year baths : value) : value :=
  VDict [("LotArea", lot_area); ("YearBuilt", year); ("FullBath", baths)].

(** Modelled from the spec: [features.json] is not among the sources.  The
    field names are those the test suite expects, in its order; each is
    taken to be declared ["int"]. *)
Definition housing : schema :=
  [("LotArea", int); ("YearBuilt", int); ("1stFlrSF", int); ("2ndFlrSF", int);
   ("FullBath", int); ("BedroomAbvGr", int); ("TotRmsAbvGrd", int)].

Definition home (lot_area year : value) : value :=
  VDict [("LotArea", lot_area); ("YearBuilt", year); ("1stFlrSF", VInt 856);
         ("2ndFlrSF", VInt 854); ("FullBath", VInt 2); ("BedroomAbvGr", VInt 3);
         ("TotRmsAbvGrd", VInt 8)].

(** Stand-ins for the two collaborators, for running the handler: a table
    is the rows of the records under the columns, and the model prices
    every row alike. *)
Definition rows_of (records : list value) (columns : list string)
  : list (list value) + string :=
  inl (map (fun r => map (fun c => match get r c with
                                   | Ret x => x
                                   | Raise _ => VNone
                                   end) columns) records).

Definition flat_rate (input_df : option (list (list value))) : list value + string :=
  match input_df with
  | Some rows => inl (map (fun _ => VInt 100000) rows)
  | None => inr "no table"
  end.

Definition no_table (records : list value) (columns : list string)
  : list (list value) + string :=
  inr "Shape of passed values does not fit the columns".

Definition no_price (input_df : option (list (list value))) : list value + string :=
  inr "Feature names unseen at fit time".

(** What the handler answers to a payload under the schema of the test
    suite, with the stand-ins above. *)
Definition answer (payload : value) : outcome response :=
  snd (predict housing (list (list value)) rows_of flat_rate (Ret payload)).

Definition error_of (r : outcome response) : string :=
  match r with
  | Ret {| body := VDict [(_, _); (_, VStr error)] |} => error
  | _ => ""
  end.

Definition status_of (r : outcome response) : Z :=
  match r with
  | Ret resp => status resp
  | Raise _ => 500
  end.

(** An object with exactly the schema's keys, none of them holding null. *)
Definition complete (expected_features : schema) (r : value) : Prop :=
  exists d,
    r = VDict d /\
    (forall k, In k (map fst d) <-> In k (map fst expected_features)) /\
    (forall k, In k (map fst expected_features) -> dict_get d k <> Some VNone).

(** The keys of a dictionary the schema does not have, in the order of
    the dictionary. *)
Definition unexpected_fields (d : dict) (expected_features : schema) : list string :=
  filter (fun k => negb (existsb (String.eqb k) (map fst expected_features))) (map fst d).

(** The schema fields for which [d.get(field)] is [None], in schema order. *)
Definition null_valued (d : dict) (expected_features : schema) : list string :=
  filter (fun field => match dict_get d field with
                       | None | Some VNone => true
                       | Some _ => false
                       end) (map fst expected_features).

(** [type(v) is t] *)
Definition instance_of (t : type) (v : value) : bool :=
  match t, v with
  | int, VInt _ | float, VFloat _ | str, VStr _ => true
  | _, _ => false
  end.

(** The characters of a decimal numeral. *)
Definition numeral (u : Decimal.uint) : list ascii :=
  list_ascii_of_string (NilEmpty.string_of_uint u).

(** The object a schema is written as in [features.json]. *)
Definition declaration (features : schema) : dict :=
  map (fun '(field, t) => (field, VStr (name t))) features.

(** What holds of [best_size] and [best_mae] once the sizes of [seen] have
    been tried: no error seen is below [best_mae], and [best_size] is the
    first size seen whose error is [best_mae]. *)
Definition first_minimum (mae_for : Z -> float64 + string) (seen : list Z)
  (st : Production.best) : Prop :=
  Production.best_mae st <> S754_nan /\
  (forall c mc, In c seen -> mae_for c = inl mc ->
     SFltb mc (Production.best_mae st) = false) /\
  match Production.best_size st with
  | None => Production.best_mae st = S754_infinity false
  | Some s =>
    exists pre post,
      seen = (pre ++ s :: post)%list /\
      mae_for s = inl (Production.best_mae st) /\
      SFltb (Production.best_mae st) (S754_infinity false) = true /\
      (forall c mc, In c pre -> mae_for c = inl mc ->
         SFltb (Production.best_mae st) mc = true \/ mc = S754_nan)
  end.

(** A stand-in for the fits of the training script: the error is the
    distance of the size to 75, so that 50 and 100 do equally well. *)
Definition error_curve (max_leaf_nodes : Z) : float64 + string :=
  inl (binary_normalize prec emax (Z.abs (max_leaf_nodes - 75)) 0 false).

(** Tactics for the runs: the keys of a given schema are distinct; a fact
    about each field of a given schema. *)
Ltac distinct_keys := repeat (constructor; [cbn; intuition discriminate|]); constructor.

Ltac each_field Hin :=
  cbn in Hin;
  repeat (destruct Hin as [Hin | Hin];
          [injection Hin as <- <-; do 2 eexists; repeat split;
           try reflexivity; try discriminate|]);
  try contradiction.

(** ** Text and comprehension lemmas *)

Lemma append_assoc (a b c : string) : (a ++ b) ++ c = a ++ b ++ c.
Proof. induction a as [|x a IH]; cbn; [reflexivity | now rewrite IH]. Qed.

Lemma prefix_append (a b : string) : String.prefix a (a ++ b) = true.
Proof.
  induction a as [|x a IH]; cbn.
  - now destruct b.
  - destruct (ascii_dec x x); [assumption | congruence].
Qed.

Lemma str_contains_includes (sub s : string) :
  includes sub s -> str_contains sub s = true.
Proof.
  intros (before & after & ->).
  induction before as [|x before IH].
  - cbn [append]. destruct (sub ++ after) eqn:E; cbn [str_contains];
      rewrite <- E, prefix_append; reflexivity.
  - cbn [append str_contains]. rewrite IH. apply orb_true_r.
Qed.

(** A comprehension whose test never raises is a filter. *)
Lemma comprehension_filter {A : Type} (keep : A -> outcome bool) (p : A -> bool)
  (l : list A) :
  (forall x, In x l -> keep x = Ret (p x)) ->
  comprehension keep l = Ret (filter p l).
Proof.
  induction l as [|x l IH]; intros Hkeep.
  - reflexivity.
  - cbn [comprehension filter]. rewrite (Hkeep x (or_introl eq_refl)).
    cbn [bind]. rewrite IH by (intros y Hy; apply Hkeep; now right).
    reflexivity.
Qed.

Lemma repr_strs (l : list string) : repr (strs l) = list_text l.
Proof.
  unfold strs, list_text. cbn [repr]. now rewrite map_map.
Qed.

Lemma dict_mem_get (d : dict) (k : string) :
  dict_mem d k = false <-> dict_get d k = None.
Proof.
  unfold dict_mem. induction d as [|[k' x] d IH]; cbn [map fst existsb dict_get].
  - tauto.
  - destruct (String.eqb k k'); cbn [orb]; [split; discriminate | exact IH].
Qed.

Lemma dict_mem_keys (d : dict) (k : string) :
  dict_mem d k = true <-> In k (map fst d).
Proof.
  unfold dict_mem. rewrite existsb_exists. split.
  - intros (k' & Hin & Heq). apply String.eqb_eq in Heq. now subst.
  - intros Hin. exists k. split; [assumption | apply String.eqb_refl].
Qed.

(** ** The presence pass *)

Section Presence.

Variable expected_features : schema.

Lemma validate_from_pass (idx : nat) (r : value) (rest : list value) :
  passes expected_features r ->
  validate_from idx (r :: rest) expected_features
  = validate_from (S idx) rest expected_features.
Proof.
  intros (Hnone & Hmiss & Hextra & Hnull).
  cbn [validate_from]. rewrite Hnone, Hmiss. cbn [bind].
  rewrite Hextra. cbn [bind nonempty]. rewrite Hnull. reflexivity.
Qed.

Lemma validate_from_prefix (pre rest : list value) :
  Forall (passes expected_features) pre ->
  forall idx,
    validate_from idx (pre ++ rest) expected_features
    = validate_from (idx + List.length pre) rest expected_features.
Proof.
  induction 1 as [|r pre Hr _ IH]; intros idx.
  - cbn [app List.length]. now rewrite Nat.add_0_r.
  - cbn [app List.length]. rewrite validate_from_pass by assumption.
    rewrite IH. f_equal. lia.
Qed.

Lemma nonempty_true {A : Type} (l : list A) : l <> [] -> nonempty l = true.
Proof. destruct l; [congruence | reflexivity]. Qed.

Lemma is_none_false (r : value) : r <> VNone -> is_none r = false.
Proof. destruct r; [congruence | reflexivity ..]. Qed.

(** What the loop does on reaching a record, by the first check it trips. *)
Lemma validate_from_null (idx : nat) (rest : list value) :
  validate_from idx (VNone :: rest) expected_features
  = Ret (false, record_prefix idx ++ "No input data provided").
Proof. reflexivity. Qed.

Lemma validate_from_missing (idx : nat) (r : value) (rest : list value)
  (missing : list string) (extra : list value) :
  r <> VNone ->
  missing_fields r expected_features = Ret missing ->
  extra_fields r expected_features = Ret extra ->
  missing <> [] ->
  validate_from idx (r :: rest) expected_features
  = Ret (false, record_prefix idx ++ "Missing required fields: " ++ repr (strs missing)).
Proof.
  intros Hr Hm He Hne. cbn [validate_from].
  rewrite (is_none_false r Hr), Hm. cbn [bind]. rewrite He. cbn [bind].
  now rewrite (nonempty_true missing Hne).
Qed.

Lemma validate_from_extra (idx : nat) (r : value) (rest : list value)
  (extra : list value) :
  r <> VNone ->
  missing_fields r expected_features = Ret [] ->
  extra_fields r expected_features = Ret extra ->
  extra <> [] ->
  validate_from idx (r :: rest) expected_features
  = Ret (false, record_prefix idx ++ "Unexpected fields provided: " ++ repr (VList extra)).
Proof.
  intros Hr Hm He Hne. cbn [validate_from].
  rewrite (is_none_false r Hr), Hm. cbn [bind]. rewrite He. cbn [bind nonempty].
  now rewrite (nonempty_true extra Hne).
Qed.

Lemma validate_from_nulls (idx : nat) (r : value) (rest : list value)
  (nulls : list string) :
  r <> VNone ->
  missing_fields r expected_features = Ret [] ->
  extra_fields r expected_features = Ret [] ->
  null_fields r expected_features = Ret nulls ->
  nulls <> [] ->
  validate_from idx (r :: rest) expected_features
  = Ret (false, record_prefix idx ++ "Fields cannot be null: " ++ repr (strs nulls)).
Proof.
  intros Hr Hm He Hn Hne. cbn [validate_from].
  rewrite (is_none_false r Hr), Hm. cbn [bind]. rewrite He. cbn [bind nonempty].
  rewrite Hn. cbn [bind]. now rewrite (nonempty_true nulls Hne).
Qed.

(** A failure at a record does not depend on what follows the record. *)
Lemma validate_from_cut (idx : nat) (r : value) (post : list value) (msg : string) :
  validate_from idx [r] expected_features = Ret (false, msg) ->
  validate_from idx (r :: post) expected_features = Ret (false, msg).
Proof.
  cbn [validate_from]. destruct (is_none r); [trivial|].
  destruct (missing_fields r expected_features) as [missing|e]; [|trivial].
  cbn [bind]. destruct (extra_fields r expected_features) as [extra|e]; [|trivial].
  cbn [bind]. destruct (nonempty missing); [trivial|].
  destruct (nonempty extra); [trivial|].
  destruct (null_fields r expected_features) as [nulls|e]; [|trivial].
  cbn [bind]. destruct (nonempty nulls); [trivial | discriminate].
Qed.

(** C1. The checks of [validate_input_data] run per record in a fixed
    order -- the record is null, fields are missing, fields are unexpected,
    fields are null -- and the first one that fails ends the run: when the
    records before [r] go through, the result is the message of the first
    check [r] trips, whatever [r] would answer to the later checks and
    whatever the records after it are: they are not examined. *)
Theorem validate_stops_at_first_failing_check
  (pre : list value) (r : value) (post : list value) :
  Forall (passes expected_features) pre ->
  (r = VNone ->
   validate_input_data (pre ++ r :: post) expected_features
   = Ret (false, record_prefix (List.length pre) ++ "No input data provided"))
  /\
  (forall missing extra,
     r <> VNone ->
     missing_fields r expected_features = Ret missing ->
     extra_fields r expected_features = Ret extra ->
     missing <> [] ->
     validate_input_data (pre ++ r :: post) expected_features
     = Ret (false, record_prefix (List.length pre)
                     ++ "Missing required fields: " ++ repr (strs missing)))
  /\
  (forall extra,
     r <> VNone ->
     missing_fields r expected_features = Ret [] ->
     extra_fields r expected_features = Ret extra ->
     extra <> [] ->
     validate_input_data (pre ++ r :: post) expected_features
     = Ret (false, record_prefix (List.length pre)
                     ++ "Unexpected fields provided: " ++ repr (VList extra)))
  /\
  (forall nulls,
     r <> VNone ->
     missing_fields r expected_features = Ret [] ->
     extra_fields r expected_features = Ret [] ->
     null_fields r expected_features = Ret nulls ->
     nulls <> [] ->
     validate_input_data (pre ++ r :: post) expected_features
     = Ret (false, record_prefix (List.length pre)
                     ++ "Fields cannot be null: " ++ repr (strs nulls)))
  /\
  (forall msg,
     validate_input_data (pre ++ [r]) expected_features = Ret (false, msg) ->
     validate_input_data (pre ++ r :: post) expected_features = Ret (false, msg)).
Proof.
  intros Hpre. unfold validate_input_data.
  rewrite (validate_from_prefix pre (r :: post) Hpre 0),
    (validate_from_prefix pre [r] Hpre 0).
  cbn [Nat.add].
  repeat split.
  - intros ->. apply validate_from_null.
  - intros missing extra. apply validate_from_missing.
  - intros extra. apply validate_from_extra.
  - intros nulls. apply validate_from_nulls.
  - intros msg. apply validate_from_cut.
Qed.

End Presence.

(** *** A dictionary under the presence checks *)

Section DictPresence.

Variable expected_features : schema.
Variable d : dict.

Lemma missing_fields_dict :
  missing_fields (VDict d) expected_features = Ret (absent_fields d expected_features).
Proof.
  unfold missing_fields, absent_fields. now apply comprehension_filter.
Qed.

(** The keys of [d] the schema does not have, in the order of [d]. *)
Lemma extra_fields_dict :
  extra_fields (VDict d) expected_features
  = Ret (filter (fun x => match in_schema x expected_features with
                          | Ret b => negb b
                          | Raise _ => false
                          end)
                (map (fun kv => VStr (fst kv)) d)).
Proof.
  unfold extra_fields. cbn [iterate bind]. apply comprehension_filter.
  intros x Hx. apply in_map_iff in Hx as (kv & <- & _). reflexivity.
Qed.

Lemma absent_fields_spec (field : string) :
  In field (absent_fields d expected_features)
  <-> In field (map fst expected_features) /\ dict_get d field = None.
Proof.
  unfold absent_fields. rewrite filter_In, negb_true_iff, dict_mem_get. tauto.
Qed.

End DictPresence.

(** C1, run: the second record lacks fields, has one the schema does not
    know and holds a null; the records after it are not looked at. *)
Lemma validate_stops_at_first_failing_check_witness :
  Forall (passes housing) [home (VInt 8450) (VInt 2003)] /\
  validate_input_data
    [home (VInt 8450) (VInt 2003);
     VDict [("LotArea", VNone); ("Garage", VInt 1)];
     VNone; VInt 7]
    housing
  = Ret (false,
         "Record 1: Missing required fields: ['YearBuilt', '1stFlrSF', '2ndFlrSF', 'FullBath', 'BedroomAbvGr', 'TotRmsAbvGrd']").
Proof.
  assert (Hpre : Forall (passes housing) [home (VInt 8450) (VInt 2003)]).
  { repeat constructor. }
  split; [exact Hpre|].
  refine (proj1 (proj2 (validate_stops_at_first_failing_check housing
            [home (VInt 8450) (VInt 2003)]
            (VDict [("LotArea", VNone); ("Garage", VInt 1)])
            [VNone; VInt 7] Hpre))
          ["YearBuilt"; "1stFlrSF"; "2ndFlrSF"; "FullBath"; "BedroomAbvGr"; "TotRmsAbvGrd"]
          [VStr "Garage"] _ _ _ _).
  - discriminate.
  - reflexivity.
  - reflexivity.
  - discriminate.
Defined.

(** C3 as stated, for every record that lacks a field, does not hold: the
    second record below lacks every field, and the message is that of the
    record before it, at which the run ended. *)
Lemma missing_fields_behind_an_offending_record :
  nth_error [VNone; VDict []] 1%nat = Some (VDict [])
  /\ absent_fields [] housing <> []
  /\ validate_input_data [VNone; VDict []] housing
     = Ret (false, "Record 0: No input data provided")
  /\ validate_input_data [VNone; VDict []] housing
     <> Ret (false,
             "Record 1: Missing required fields: " ++ list_text (absent_fields [] housing)).
Proof. repeat split; discriminate. Qed.

(** C3, amended.  A record that lacks schema fields, when the records
    before it in the batch go through the checks, makes
    [validate_input_data] fail with ["Record i: Missing required fields: "]
    followed by the Python list of exactly the schema fields the record has
    no key for, in the order the schema lists them. *)
Theorem missing_fields_are_listed_in_schema_order
  (expected_features : schema) (pre : list value) (d : dict) (post : list value) :
  Forall (passes expected_features) pre ->
  absent_fields d expected_features <> [] ->
  validate_input_data (pre ++ VDict d :: post) expected_features
  = Ret (false,
         "Record " ++ str_of_nat (List.length pre) ++ ": Missing required fields: "
           ++ list_text (absent_fields d expected_features))
  /\ absent_fields d expected_features
     = filter (fun field => negb (dict_mem d field)) (map fst expected_features)
  /\ forall field,
       In field (absent_fields d expected_features)
       <-> In field (map fst expected_features) /\ dict_get d field = None.
Proof.
  intros Hpre Hmissing. split; [|split].
  - unfold validate_input_data.
    rewrite (validate_from_prefix expected_features pre _ Hpre 0). cbn [Nat.add].
    rewrite (validate_from_missing expected_features (List.length pre) (VDict d) post
               (absent_fields d expected_features) _
               ltac:(discriminate)
               (missing_fields_dict expected_features d)
               (extra_fields_dict expected_features d)
               Hmissing).
    rewrite repr_strs. unfold record_prefix.
    now rewrite !append_assoc.
  - reflexivity.
  - apply absent_fields_spec.
Qed.

(** C3, run: behind a record that goes through, a record with two of the
    seven fields, given in another order than the schema's. *)
Lemma missing_fields_are_listed_in_schema_order_witness :
  validate_input_data
    [home (VInt 8450) (VInt 2003);
     VDict [("TotRmsAbvGrd", VInt 8); ("LotArea", VInt 8450)];
     VDict []]
    housing
  = Ret (false,
         "Record 1: Missing required fields: ['YearBuilt', '1stFlrSF', '2ndFlrSF', 'FullBath', 'BedroomAbvGr']").
Proof.
  refine (proj1 (missing_fields_are_listed_in_schema_order housing
                   [home (VInt 8450) (VInt 2003)]
                   [("TotRmsAbvGrd", VInt 8); ("LotArea", VInt 8450)]
                   [VDict []] _ _)).
  - repeat constructor.
  - discriminate.
Defined.

(** ** The coercion pass *)

Lemma dict_get_set_same (d : dict) (k : string) (x : value) :
  dict_get (dict_set d k x) k = Some x.
Proof.
  induction d as [|[k' x'] d IH]; cbn [dict_set dict_get].
  - now rewrite String.eqb_refl.
  - destruct (String.eqb k k') eqn:E; cbn [dict_get]; rewrite E; [reflexivity | exact IH].
Qed.

Lemma dict_get_set_other (d : dict) (k k' : string) (x : value) :
  k <> k' -> dict_get (dict_set d k x) k' = dict_get d k'.
Proof.
  intros Hne. induction d as [|[k0 x0] d IH]; cbn [dict_set dict_get].
  - now rewrite (proj2 (String.eqb_neq k' k)) by congruence.
  - destruct (String.eqb k k0) eqn:E; cbn [dict_get].
    + apply String.eqb_eq in E. subst k0.
      now rewrite (proj2 (String.eqb_neq k' k)) by congruence.
    + now rewrite IH.
Qed.

(** A numeric constructor builds a number, so the sign test answers. *)
Lemma lt_zero_converted (t : type) (x x' : value) :
  numeric t = true -> construct t x = Ret x' -> lt_zero x' = Ret (below_zero x').
Proof.
  intros Hnum Hc.
  assert (Hx' : (exists n, x' = VInt n) \/ (exists f, x' = VFloat f)).
  { destruct t; [| |discriminate]; destruct x; cbn in Hc; try discriminate.
    - injection Hc as <-. eauto.
    - injection Hc as <-. eauto.
    - destruct (int_of_float f); cbn in Hc; [injection Hc as <-; eauto | discriminate].
    - destruct (int_of_str s); [injection Hc as <-; eauto | discriminate].
    - injection Hc as <-. eauto.
    - destruct (float_of_int n); cbn in Hc; [injection Hc as <-; eauto | discriminate].
    - injection Hc as <-. eauto.
    - destruct (float_of_str s); [injection Hc as <-; eauto | discriminate]. }
  destruct Hx' as [[n ->] | [f ->]]; reflexivity.
Qed.

Section OneRecord.

Variable d : dict.

(** One iteration of the inner loop on a dictionary, by the verdict on
    the field. *)
Lemma check_field_dict (field : string) (t : type) (te iv : list string) :
  check_field field t {| input_data := VDict d; type_errors := te; invalid_values := iv |}
  = match verdict_of d field t with
    | Null =>
      ({| input_data := VDict d; type_errors := te ++ [null_message field];
          invalid_values := iv |}, Ret tt)
    | Rejected x =>
      ({| input_data := VDict d; type_errors := te ++ [type_message field t x];
          invalid_values := iv |}, Ret tt)
    | Escapes e =>
      ({| input_data := VDict d; type_errors := te; invalid_values := iv |}, Raise e)
    | Negative x' =>
      ({| input_data := VDict (dict_set d field x'); type_errors := te;
          invalid_values := iv ++ [value_message field] |}, Ret tt)
    | Accepted x' =>
      ({| input_data := VDict (dict_set d field x'); type_errors := te;
          invalid_values := iv |}, Ret tt)
    end.
Proof.
  unfold check_field, verdict_of. cbn [input_data get].
  destruct (dict_get d field) as [x|]; [|reflexivity].
  destruct (is_none x) eqn:Hx.
  { destruct x; try discriminate. reflexivity. }
  assert (Hsome : match x with VNone => False | _ => True end)
    by (destruct x; [discriminate | exact I ..]).
  unfold convert_and_store. cbn [input_data set_item].
  destruct (construct t x) as [x'|e] eqn:Hc.
  - destruct (numeric t) eqn:Hnum; cbn [andb].
    + rewrite (lt_zero_converted t x x' Hnum Hc).
      destruct (below_zero x'); destruct x; try contradiction; reflexivity.
    + destruct x; try contradiction; reflexivity.
  - destruct (caught e); destruct x; try contradiction; reflexivity.
Qed.

End OneRecord.

(** Two dictionaries that answer alike on the fields still to come. *)
Section Agreement.

Variables d1 d2 : dict.
Variable fields : schema.
Hypothesis agree :
  forall field t, In (field, t) fields -> verdict_of d1 field t = verdict_of d2 field t.

Lemma type_errors_of_agree : type_errors_of d1 fields = type_errors_of d2 fields.
Proof.
  unfold type_errors_of. revert agree.
  induction fields as [|[field t] rest IH]; intros agree; [reflexivity|].
  cbn [flat_map]. rewrite (agree field t (or_introl eq_refl)).
  f_equal. apply IH. intros g t' Hin. apply agree. now right.
Qed.

Lemma value_errors_of_agree : value_errors_of d1 fields = value_errors_of d2 fields.
Proof.
  unfold value_errors_of. revert agree.
  induction fields as [|[field t] rest IH]; intros agree; [reflexivity|].
  cbn [flat_map]. rewrite (agree field t (or_introl eq_refl)).
  f_equal. apply IH. intros g t' Hin. apply agree. now right.
Qed.

Lemma escaping_agree : escaping d1 fields = escaping d2 fields.
Proof.
  revert agree.
  induction fields as [|[field t] rest IH]; intros agree; [reflexivity|].
  cbn [escaping]. rewrite (agree field t (or_introl eq_refl)).
  rewrite IH; [reflexivity|]. intros g t' Hin. apply agree. now right.
Qed.

Lemma store_converted_agree (acc : dict) :
  fold_left (store_converted d1) fields acc = fold_left (store_converted d2) fields acc.
Proof.
  revert acc agree.
  induction fields as [|[field t] rest IH]; intros acc agree; [reflexivity|].
  cbn [fold_left]. unfold store_converted at 2 4. cbn [fst snd].
  rewrite (agree field t (or_introl eq_refl)).
  apply IH. intros g t' Hin. apply agree. now right.
Qed.

End Agreement.

Lemma verdict_of_set_other (d : dict) (field g : string) (x : value) (t : type) :
  field <> g -> verdict_of (dict_set d field x) g t = verdict_of d g t.
Proof. intros Hne. unfold verdict_of. now rewrite dict_get_set_other. Qed.

Lemma set_agrees (d : dict) (field : string) (x : value) (rest : schema) :
  ~ In field (map fst rest) ->
  forall g t, In (g, t) rest -> verdict_of (dict_set d field x) g t = verdict_of d g t.
Proof.
  intros Hnotin g t Hin. apply verdict_of_set_other.
  intros ->. apply Hnotin. apply in_map_iff. now exists (g, t).
Qed.

(** The inner loop on a dictionary: unless a conversion raises past the
    [except], every field is visited, the errors are those of the fields
    taken one by one, and the converted values are in the record. *)
Lemma check_fields_dict (fields : schema) :
  NoDup (map fst fields) ->
  forall (d : dict) (te iv : list string),
    match escaping d fields with
    | None =>
      check_fields fields
        {| input_data := VDict d; type_errors := te; invalid_values := iv |}
      = ({| input_data := VDict (coerce d fields);
            type_errors := te ++ type_errors_of d fields;
            invalid_values := iv ++ value_errors_of d fields |}, Ret tt)
    | Some e =>
      snd (check_fields fields
             {| input_data := VDict d; type_errors := te; invalid_values := iv |})
      = Raise e
    end.
Proof.
  induction fields as [|[field t] rest IH]; intros Hnodup d te iv.
  - cbn. now rewrite !app_nil_r.
  - cbn [map fst] in Hnodup. apply NoDup_cons_iff in Hnodup as [Hnotin Hrest].
    cbn [check_fields escaping]. rewrite check_field_dict.
    unfold coerce, type_errors_of, value_errors_of.
    cbn [fold_left flat_map]. unfold store_converted at 2. cbn [fst snd].
    fold (type_errors_of d rest). fold (value_errors_of d rest).
    destruct (verdict_of d field t) as [|x|e|x'|x'] eqn:Hv.
    + specialize (IH Hrest d (te ++ [null_message field])%list iv).
      destruct (escaping d rest); [exact IH|].
      rewrite IH. cbn [app]. now rewrite <- app_assoc.
    + specialize (IH Hrest d (te ++ [type_message field t x])%list iv).
      destruct (escaping d rest); [exact IH|].
      rewrite IH. cbn [app]. now rewrite <- app_assoc.
    + reflexivity.
    + specialize (IH Hrest (dict_set d field x') te (iv ++ [value_message field])%list).
      pose proof (set_agrees d field x' rest Hnotin) as Hag.
      rewrite (escaping_agree _ _ _ Hag) in IH.
      destruct (escaping d rest); [exact IH|].
      rewrite IH. unfold coerce.
      rewrite (store_converted_agree _ _ _ Hag), (type_errors_of_agree _ _ _ Hag),
        (value_errors_of_agree _ _ _ Hag).
      cbn [app]. now rewrite <- app_assoc.
    + specialize (IH Hrest (dict_set d field x') te iv).
      pose proof (set_agrees d field x' rest Hnotin) as Hag.
      rewrite (escaping_agree _ _ _ Hag) in IH.
      destruct (escaping d rest); [exact IH|].
      rewrite IH. unfold coerce.
      rewrite (store_converted_agree _ _ _ Hag), (type_errors_of_agree _ _ _ Hag),
        (value_errors_of_agree _ _ _ Hag).
      reflexivity.
Qed.

(** The body of the outer loop on a dictionary. *)
Lemma check_record_dict (idx : nat) (d : dict) (expected_features : schema) :
  NoDup (map fst expected_features) ->
  match escaping d expected_features with
  | None =>
    check_record idx (VDict d) expected_features
    = (VDict (coerce d expected_features),
       if nonempty (type_errors_of d expected_features) then
         Ret (Some (false, type_error_text idx (type_errors_of d expected_features)))
       else if nonempty (value_errors_of d expected_features) then
         Ret (Some (false, invalid_value_text idx (value_errors_of d expected_features)))
       else Ret None)
  | Some e => snd (check_record idx (VDict d) expected_features) = Raise e
  end.
Proof.
  intros Hnodup. unfold check_record.
  pose proof (check_fields_dict expected_features Hnodup d [] []) as H.
  destruct (escaping d expected_features) as [e|].
  - destruct (check_fields expected_features _) as [st res]. cbn [snd] in *. now subst res.
  - rewrite H. reflexivity.
Qed.

(** A record that goes through does so at every index, and is left the same. *)
Lemma check_record_index (i j : nat) (r r' : value) (expected_features : schema) :
  check_record i r expected_features = (r', Ret None) ->
  check_record j r expected_features = (r', Ret None).
Proof.
  unfold check_record. destruct (check_fields expected_features _) as [st res].
  destruct res as [[]|e]; [|discriminate].
  destruct (nonempty (type_errors st)); [discriminate|].
  destruct (nonempty (invalid_values st)); [discriminate|].
  trivial.
Qed.

Section Batch.

Variable expected_features : schema.

Lemma check_from_success (pre : list value) :
  forall idx flag msg,
    snd (check_from idx pre expected_features) = Ret (flag, msg) ->
    flag = true ->
    coerced_to expected_features pre (fst (check_from idx pre expected_features)) /\ msg = "".
Proof.
  induction pre as [|r pre IH]; intros idx flag msg Hres Hflag.
  - cbn in *. injection Hres as _ <-. split; [constructor | reflexivity].
  - cbn [check_from] in *.
    destruct (check_record idx r expected_features) as [r' [[[flag' msg']|]|e]] eqn:Hr.
    + cbn [snd] in Hres. unfold check_record in Hr.
      destruct (check_fields expected_features _) as [st res].
      destruct res as [[]|]; [|discriminate].
      destruct (nonempty (type_errors st)); [congruence|].
      destruct (nonempty (invalid_values st)); congruence.
    + destruct (check_from (S idx) pre expected_features) as [rest' res'] eqn:Hrest.
      cbn [snd fst] in *.
      specialize (IH (S idx) flag msg). rewrite Hrest in IH. cbn [snd fst] in IH.
      destruct (IH Hres Hflag) as [Hco ->]. split; [|reflexivity].
      constructor; [|exact Hco].
      intros j. exact (check_record_index idx j r r' expected_features Hr).
    + discriminate.
Qed.

Lemma check_from_prefix (pre pre' : list value) :
  coerced_to expected_features pre pre' ->
  forall idx rest,
    check_from idx (pre ++ rest) expected_features
    = (pre' ++ fst (check_from (idx + List.length pre) rest expected_features),
       snd (check_from (idx + List.length pre) rest expected_features))%list.
Proof.
  induction 1 as [|r r' pre pre' Hr _ IH]; intros idx rest.
  - cbn [app List.length]. rewrite Nat.add_0_r. now destruct (check_from idx rest _).
  - cbn [app List.length check_from]. rewrite (Hr idx), (IH (S idx) rest).
    cbn [app]. now rewrite Nat.add_succ_r.
Qed.

End Batch.

Lemma record_prefix_append (idx : nat) (s : string) :
  record_prefix idx ++ s = "Record " ++ str_of_nat idx ++ ": " ++ s.
Proof. unfold record_prefix. now rewrite !append_assoc. Qed.

(** The whole pass on a batch whose records before [d] go through. *)
Lemma check_batch_at (expected_features : schema) (pre : list value) (d : dict)
  (post : list value) :
  NoDup (map fst expected_features) ->
  snd (check_data_types_and_values pre expected_features) = Ret (true, "") ->
  escaping d expected_features = None ->
  check_data_types_and_values (pre ++ VDict d :: post) expected_features
  = if nonempty (type_errors_of d expected_features) then
      ((fst (check_data_types_and_values pre expected_features)
          ++ VDict (coerce d expected_features) :: post)%list,
       Ret (false, type_error_text (List.length pre) (type_errors_of d expected_features)))
    else if nonempty (value_errors_of d expected_features) then
      ((fst (check_data_types_and_values pre expected_features)
          ++ VDict (coerce d expected_features) :: post)%list,
       Ret (false, invalid_value_text (List.length pre)
                     (value_errors_of d expected_features)))
    else
      ((fst (check_data_types_and_values pre expected_features)
          ++ VDict (coerce d expected_features)
          :: fst (check_from (S (List.length pre)) post expected_features))%list,
       snd (check_from (S (List.length pre)) post expected_features)).
Proof.
  intros Hnodup Hpre Hesc. unfold check_data_types_and_values in *.
  destruct (check_from_success expected_features pre 0 true "" Hpre eq_refl) as [Hco _].
  rewrite (check_from_prefix expected_features pre _ Hco 0). cbn [Nat.add].
  cbn [check_from].
  pose proof (check_record_dict (List.length pre) d expected_features Hnodup) as Hrec.
  rewrite Hesc in Hrec. rewrite Hrec.
  destruct (nonempty (type_errors_of d expected_features)); [reflexivity|].
  destruct (nonempty (value_errors_of d expected_features)); [reflexivity|].
  now destruct (check_from (S (List.length pre)) post expected_features).
Qed.

(** X1. The decision on a record the loop reaches, when none of its
    conversions raises past the [except] clause: every schema field is
    gone through first, and the type errors and the value errors held at
    the end are those of all the fields, each judged on its own.  With at
    least one type error the message is the type errors joined, and no
    value error is reported; value errors are reported when there is no
    type error; and a record with an error ends the run, the records after
    it left as they were.  (The keys of the schema are distinct, as those
    of a dictionary are.) *)
Lemma coercion_decides_on_all_fields
  (expected_features : schema) (pre : list value) (d : dict) (post : list value) :
  NoDup (map fst expected_features) ->
  snd (check_data_types_and_values pre expected_features) = Ret (true, "") ->
  escaping d expected_features = None ->
  (type_errors_of d expected_features <> [] ->
   check_data_types_and_values (pre ++ VDict d :: post) expected_features
   = ((fst (check_data_types_and_values pre expected_features)
         ++ VDict (coerce d expected_features) :: post)%list,
      Ret (false,
           "Record " ++ str_of_nat (List.length pre)
             ++ ": Invalid input format: Type errors - "
             ++ join ", " (type_errors_of d expected_features))))
  /\
  (type_errors_of d expected_features = [] ->
   value_errors_of d expected_features <> [] ->
   check_data_types_and_values (pre ++ VDict d :: post) expected_features
   = ((fst (check_data_types_and_values pre expected_features)
         ++ VDict (coerce d expected_features) :: post)%list,
      Ret (false,
           "Record " ++ str_of_nat (List.length pre) ++ ": Invalid values: "
             ++ join ", " (value_errors_of d expected_features))))
  /\
  (type_errors_of d expected_features = [] ->
   value_errors_of d expected_features = [] ->
   snd (check_data_types_and_values (pre ++ VDict d :: post) expected_features)
   = snd (check_from (S (List.length pre)) post expected_features)).
Proof.
  intros Hnodup Hpre Hesc.
  pose proof (check_batch_at expected_features pre d post Hnodup Hpre Hesc) as H.
  repeat split.
  - intros Hte. rewrite H, (nonempty_true _ Hte).
    unfold type_error_text. now rewrite record_prefix_append.
  - intros Hte Hve. rewrite H, Hte, (nonempty_true _ Hve). cbn [nonempty].
    unfold invalid_value_text. now rewrite record_prefix_append.
  - intros Hte Hve. rewrite H, Hte, Hve. reflexivity.
Qed.

(** X2. A conversion that raises past the [except] clause -- the first
    one of a record the loop reaches -- ends the pass with that exception,
    whatever the other fields of the record and the records after it are.
    (The keys of the schema are distinct, as those of a dictionary are.) *)
Lemma coercion_lets_escaping_through
  (expected_features : schema) (pre : list value) (d : dict) (post : list value)
  (e : exn) :
  NoDup (map fst expected_features) ->
  snd (check_data_types_and_values pre expected_features) = Ret (true, "") ->
  escaping d expected_features = Some e ->
  snd (check_data_types_and_values (pre ++ VDict d :: post) expected_features) = Raise e.
Proof.
  intros Hnodup Hpre Hesc. unfold check_data_types_and_values in *.
  destruct (check_from_success expected_features pre 0 true "" Hpre eq_refl) as [Hco _].
  rewrite (check_from_prefix expected_features pre _ Hco 0). cbn [Nat.add snd].
  cbn [check_from].
  pose proof (check_record_dict (List.length pre) d expected_features Hnodup) as Hrec.
  rewrite Hesc in Hrec.
  destruct (check_record (List.length pre) (VDict d) expected_features) as [r' res].
  cbn [snd] in Hrec. now subst res.
Qed.

(** X1, run: the second record has two fields that do not convert and one
    that converts to a negative number; the third record is not touched. *)
Example coercion_decides_on_all_fields_run :
  check_data_types_and_values
    [lot (VStr "8450") (VInt 2003) (VBool true);
     lot (VStr "big") (VInt (-1)) (VList []);
     lot (VStr "9000") VNone VNone]
    plot
  = ([lot (VInt 8450) (VInt 2003) (VInt 1);
      lot (VStr "big") (VInt (-1)) (VList []);
      lot (VStr "9000") VNone VNone],
     Ret (false,
          "Record 1: Invalid input format: Type errors - Field 'LotArea' must be of type int (got value 'big'), Field 'FullBath' must be of type int (got value '[]')")).
Proof.
  refine (proj1 (coercion_decides_on_all_fields plot
            [lot (VStr "8450") (VInt 2003) (VBool true)]
            [("LotArea", VStr "big"); ("YearBuilt", VInt (-1)); ("FullBath", VList [])]
            [lot (VStr "9000") VNone VNone] _ _ _) _).
  - distinct_keys.
  - reflexivity.
  - reflexivity.
  - discriminate.
Defined.

(** X2, run: an infinite year stops the pass at the second record. *)
Lemma coercion_lets_escaping_through_witness :
  snd (check_data_types_and_values
         [lot (VInt 1) (VInt 2) (VInt 3);
          lot (VStr "big") (VFloat (S754_infinity true)) (VStr "x");
          VNone]
         plot)
  = Raise OverflowError.
Proof.
  exact (coercion_lets_escaping_through plot
           [lot (VInt 1) (VInt 2) (VInt 3)]
           [("LotArea", VStr "big"); ("YearBuilt", VFloat (S754_infinity true));
            ("FullBath", VStr "x")]
           [VNone] OverflowError ltac:(distinct_keys) eq_refl eq_refl).
Defined.

(** C2, where the code departs from it.  A conversion that raises
    [OverflowError] -- [int] of an infinite float, [float] of an integer
    beyond the floats -- is not among the errors the [except] clause
    collects: the pass stops in the middle of the record and raises.  Here
    the type error found on [LotArea] is never reported, [FullBath] is
    never looked at, and the handler ends in the exception instead of a
    400 with the type errors. *)
Theorem overflow_error_is_not_collected :
  check_data_types_and_values
    [lot (VStr "big") (VFloat (S754_infinity false)) (VStr "two")] plot
  = ([lot (VStr "big") (VFloat (S754_infinity false)) (VStr "two")],
     Raise OverflowError)
  /\ escaping [("LotArea", VStr "big"); ("YearBuilt", VFloat (S754_infinity false));
               ("FullBath", VStr "two")] plot
     = Some OverflowError
  /\ type_errors_of [("LotArea", VStr "big"); ("YearBuilt", VFloat (S754_infinity false));
                     ("FullBath", VStr "two")] plot
     = ["Field 'LotArea' must be of type int (got value 'big')";
        "Field 'FullBath' must be of type int (got value 'two')"]
  /\ snd (predict plot (list (list value)) rows_of flat_rate
            (Ret (VList [lot (VStr "big") (VFloat (S754_infinity false)) (VStr "two")])))
     = Raise OverflowError
  /\ snd (check_data_types_and_values
            [VDict [("LotArea", VInt (10 ^ 400))]] [("LotArea", float)])
     = Raise OverflowError.
Proof. repeat split; vm_compute; reflexivity. Qed.

(** *** What the pass leaves in the records *)

Lemma fold_store_get_other (d : dict) (fields : schema) (k : string) :
  ~ In k (map fst fields) ->
  forall acc, dict_get (fold_left (store_converted d) fields acc) k = dict_get acc k.
Proof.
  induction fields as [|[field t] rest IH]; intros Hnotin acc; [reflexivity|].
  cbn [fold_left]. rewrite IH by (intros Hin; apply Hnotin; now right).
  unfold store_converted. cbn [fst snd].
  assert (Hne : field <> k) by (intros ->; apply Hnotin; now left).
  destruct (verdict_of d field t); try reflexivity; now apply dict_get_set_other.
Qed.

Lemma fold_store_get (d : dict) (fields : schema) (field : string) (t : type) :
  NoDup (map fst fields) ->
  In (field, t) fields ->
  forall acc,
    dict_get (fold_left (store_converted d) fields acc) field
    = match verdict_of d field t with
      | Negative x' | Accepted x' => Some x'
      | _ => dict_get acc field
      end.
Proof.
  induction fields as [|[field' t'] rest IH]; intros Hnodup Hin acc; [contradiction|].
  cbn [map fst] in Hnodup. apply NoDup_cons_iff in Hnodup as [Hnotin Hrest].
  cbn [fold_left]. destruct Hin as [Heq | Hin].
  - injection Heq as -> ->.
    rewrite (fold_store_get_other d rest field Hnotin).
    unfold store_converted. cbn [fst snd].
    destruct (verdict_of d field t); try reflexivity; apply dict_get_set_same.
  - rewrite (IH Hrest Hin).
    assert (Hne : field' <> field).
    { intros ->. apply Hnotin. apply in_map_iff. now exists (field, t). }
    assert (Hkeep : dict_get (store_converted d acc (field', t')) field
                    = dict_get acc field).
    { unfold store_converted. cbn [fst snd].
      destruct (verdict_of d field' t'); try reflexivity; now apply dict_get_set_other. }
    now rewrite Hkeep.
Qed.

(** A field whose value converts is judged converted. *)
Lemma verdict_of_converted (d : dict) (field : string) (t : type) (x x' : value) :
  dict_get d field = Some x -> x <> VNone -> construct t x = Ret x' ->
  verdict_of d field t = Negative x' \/ verdict_of d field t = Accepted x'.
Proof.
  intros Hget Hx Hc. unfold verdict_of. rewrite Hget.
  destruct x; try congruence; rewrite Hc;
    destruct (numeric t && below_zero x'); auto.
Qed.

Lemma verdict_of_accepted (d : dict) (field : string) (t : type) (x' : value) :
  verdict_of d field t = Accepted x' ->
  exists x, dict_get d field = Some x /\ x <> VNone /\ construct t x = Ret x'
            /\ numeric t && below_zero x' = false.
Proof.
  unfold verdict_of. destruct (dict_get d field) as [x|]; [|discriminate].
  intros H. exists x. split; [reflexivity|].
  destruct x; try discriminate;
    (split; [discriminate|]);
    destruct (construct t _) as [y|e]; try (destruct (caught e); discriminate);
    destruct (numeric t && below_zero y) eqn:E; try discriminate;
    injection H as ->; auto.
Qed.

(** The converted value of a field is in the record the pass leaves. *)
Lemma coerce_get_converted (d : dict) (expected_features : schema)
  (field : string) (t : type) (x x' : value) :
  NoDup (map fst expected_features) ->
  In (field, t) expected_features ->
  dict_get d field = Some x -> x <> VNone -> construct t x = Ret x' ->
  dict_get (coerce d expected_features) field = Some x'.
Proof.
  intros Hnodup Hin Hget Hx Hc. unfold coerce.
  rewrite (fold_store_get d expected_features field t Hnodup Hin).
  destruct (verdict_of_converted d field t x x' Hget Hx Hc) as [-> | ->]; reflexivity.
Qed.

(** A field whose value is null or does not convert is left as it was. *)
Lemma coerce_get_unconverted (d : dict) (expected_features : schema)
  (field : string) (t : type) :
  NoDup (map fst expected_features) ->
  In (field, t) expected_features ->
  (forall x', verdict_of d field t <> Negative x') ->
  (forall x', verdict_of d field t <> Accepted x') ->
  dict_get (coerce d expected_features) field = dict_get d field.
Proof.
  intros Hnodup Hin Hneg Hacc. unfold coerce.
  rewrite (fold_store_get d expected_features field t Hnodup Hin).
  destruct (verdict_of d field t); try reflexivity; [now elim (Hneg x') | now elim (Hacc x')].
Qed.

(** With no error and nothing escaping, every field is accepted. *)
Lemma all_accepted (d : dict) (expected_features : schema) :
  escaping d expected_features = None ->
  type_errors_of d expected_features = [] ->
  value_errors_of d expected_features = [] ->
  forall field t, In (field, t) expected_features ->
    exists x', verdict_of d field t = Accepted x'.
Proof.
  unfold type_errors_of, value_errors_of.
  induction expected_features as [|[field' t'] rest IH];
    intros Hesc Hte Hve field t Hin; [contradiction|].
  cbn [escaping flat_map] in *.
  destruct (verdict_of d field' t') as [|x|e|x'|x'] eqn:Hv; try discriminate.
  destruct Hin as [Heq | Hin].
  - injection Heq as <- <-. eauto.
  - now apply IH.
Qed.

(** A record that is no dictionary stops the inner loop at its first field. *)
Lemma check_fields_not_dict (r : value) (field : string) (t : type) (rest : schema)
  (te iv : list string) :
  (forall d, r <> VDict d) ->
  snd (check_fields ((field, t) :: rest)
         {| input_data := r; type_errors := te; invalid_values := iv |})
  = Raise AttributeError.
Proof.
  intros Hr. cbn [check_fields]. unfold check_field. cbn [input_data].
  destruct r; try reflexivity. now elim (Hr d).
Qed.

(** A record for which the body of the outer loop returns is a dictionary,
    unless the schema is empty. *)
Lemma check_record_returns_dict (idx : nat) (r r' : value) (expected_features : schema)
  (res : option (bool * string)) :
  expected_features <> [] ->
  check_record idx r expected_features = (r', Ret res) ->
  exists d, r = VDict d.
Proof.
  intros Hne Hrec. destruct expected_features as [|[field t] rest]; [congruence|].
  destruct r; try (exists d; reflexivity); exfalso;
    unfold check_record in Hrec;
    match type of Hrec with
    | context [check_fields ?fs ?st] =>
      pose proof (check_fields_not_dict (input_data st) field t rest [] []
                    ltac:(cbn; discriminate)) as Hraise;
      cbn [input_data] in Hraise;
      destruct (check_fields fs st) as [st' res']
    end;
    cbn [snd] in Hraise; subst res'; discriminate.
Qed.

(** What going through the pass means for a record: every schema field
    had a value that converts, and now holds the converted value. *)
Lemma check_record_pass (idx : nat) (r r' : value) (expected_features : schema) :
  NoDup (map fst expected_features) ->
  check_record idx r expected_features = (r', Ret None) ->
  forall field t, In (field, t) expected_features ->
    exists x x', get r field = Ret x /\ x <> VNone /\ construct t x = Ret x'
                 /\ numeric t && below_zero x' = false /\ get r' field = Ret x'.
Proof.
  intros Hnodup Hrec field t Hin.
  assert (Hne : expected_features <> []) by (intros ->; contradiction).
  destruct (check_record_returns_dict idx r r' expected_features None Hne Hrec) as [d ->].
  pose proof (check_record_dict idx d expected_features Hnodup) as Hd.
  destruct (escaping d expected_features) as [e|] eqn:Hesc.
  { rewrite Hrec in Hd. discriminate. }
  rewrite Hrec in Hd.
  destruct (type_errors_of d expected_features) as [|m ms] eqn:Hte; [|discriminate].
  destruct (value_errors_of d expected_features) as [|m ms] eqn:Hve; [|discriminate].
  cbn [nonempty] in Hd. injection Hd as ->.
  destruct (all_accepted d expected_features Hesc Hte Hve field t Hin) as [x' Hv].
  destruct (verdict_of_accepted d field t x' Hv) as (x & Hget & Hx & Hc & Hsign).
  exists x, x'. cbn [get]. rewrite Hget.
  rewrite (coerce_get_converted d expected_features field t x x' Hnodup Hin Hget Hx Hc).
  auto.
Qed.

(** C9. [check_data_types_and_values] writes into the batch it is given
    and does not take it back: when it returns failure at the record of
    index [i] (the records before go through, the batch cut after [i]
    fails), every schema field of every record before [i] holds its
    converted value, every field of record [i] whose value converted holds
    the converted value while the others are as they were, and the failure
    is returned with the batch in that state.  (The keys of the schema
    are distinct, as those of a dictionary are.) *)
Theorem failed_coercion_keeps_the_converted_values
  (expected_features : schema) (pre : list value) (r : value) (post : list value)
  (msg : string) :
  NoDup (map fst expected_features) ->
  snd (check_data_types_and_values pre expected_features) = Ret (true, "") ->
  snd (check_data_types_and_values (pre ++ [r]) expected_features) = Ret (false, msg) ->
  exists pre' d d',
    r = VDict d /\
    check_data_types_and_values (pre ++ r :: post) expected_features
    = ((pre' ++ VDict d' :: post)%list, Ret (false, msg)) /\
    Forall2 (fun r0 r0' =>
               forall field t, In (field, t) expected_features ->
                 exists x x', get r0 field = Ret x /\ construct t x = Ret x'
                              /\ get r0' field = Ret x')
            pre pre' /\
    (forall field t x x',
       In (field, t) expected_features ->
       dict_get d field = Some x -> x <> VNone -> construct t x = Ret x' ->
       dict_get d' field = Some x') /\
    (forall field t x,
       In (field, t) expected_features ->
       dict_get d field = Some x ->
       x = VNone \/ (exists e, construct t x = Raise e) ->
       dict_get d' field = Some x).
Proof.
  intros Hnodup Hpre Hfail. unfold check_data_types_and_values in *.
  destruct (check_from_success expected_features pre 0 true "" Hpre eq_refl) as [Hco _].
  rewrite (check_from_prefix expected_features pre _ Hco 0) in Hfail.
  cbn [Nat.add snd check_from] in Hfail.
  destruct (check_record (List.length pre) r expected_features) as [r' res] eqn:Hrec.
  assert (Hne : expected_features <> []).
  { intros ->. cbn in Hrec. injection Hrec as _ <-. discriminate. }
  destruct res as [[res|]|e]; cbn [snd] in Hfail; [|discriminate ..].
  injection Hfail as ->.
  destruct (check_record_returns_dict _ r r' expected_features _ Hne Hrec) as [d ->].
  pose proof (check_record_dict (List.length pre) d expected_features Hnodup) as Hd.
  rewrite Hrec in Hd.
  destruct (escaping d expected_features) as [e|]; [discriminate|].
  injection Hd as -> _.
  exists (fst (check_from 0 pre expected_features)), d, (coerce d expected_features).
  split; [reflexivity|]. split; [|split; [|split]].
  - rewrite (check_from_prefix expected_features pre _ Hco 0).
    cbn [Nat.add check_from]. rewrite Hrec. reflexivity.
  - apply (Forall2_impl
             (R1 := fun r0 r0' =>
                      forall idx, check_record idx r0 expected_features = (r0', Ret None)));
      [|exact Hco].
    intros r0 r0' Hr0 field t Hin.
    destruct (check_record_pass O r0 r0' expected_features Hnodup (Hr0 O) field t Hin)
      as (x & x' & Hget & _ & Hc & _ & Hget').
    eauto.
  - intros field t x x' Hin. now apply coerce_get_converted.
  - intros field t x Hin Hget Hx.
    rewrite (coerce_get_unconverted d expected_features field t Hnodup Hin);
      [exact Hget | |];
      intros x' Hv; unfold verdict_of in Hv; rewrite Hget in Hv;
      destruct Hx as [-> | [e He]]; try discriminate;
      destruct x; try discriminate; rewrite He in Hv;
      destruct (caught e); discriminate.
Qed.

(** C9, run: the first record goes through with two values rewritten; the
    second fails on its year and keeps the two values that converted. *)
Lemma failed_coercion_keeps_the_converted_values_witness :
  check_data_types_and_values
    [lot (VStr "8450") (VInt 2003) (VBool true);
     lot (VStr " 12 ") (VStr "nineteen") (VStr "-2");
     lot (VStr "9000") (VStr "1999") (VStr "1")]
    plot
  = ([lot (VInt 8450) (VInt 2003) (VInt 1);
      lot (VInt 12) (VStr "nineteen") (VInt (-2));
      lot (VStr "9000") (VStr "1999") (VStr "1")],
     Ret (false,
          "Record 1: Invalid input format: Type errors - Field 'YearBuilt' must be of type int (got value 'nineteen')"))
  /\ exists pre' d d',
       lot (VStr " 12 ") (VStr "nineteen") (VStr "-2") = VDict d /\
       check_data_types_and_values
         ([lot (VStr "8450") (VInt 2003) (VBool true)]
            ++ lot (VStr " 12 ") (VStr "nineteen") (VStr "-2")
            :: [lot (VStr "9000") (VStr "1999") (VStr "1")])
         plot
       = ((pre' ++ VDict d' :: [lot (VStr "9000") (VStr "1999") (VStr "1")])%list,
          Ret (false,
               "Record 1: Invalid input format: Type errors - Field 'YearBuilt' must be of type int (got value 'nineteen')")) /\
       Forall2 (fun r0 r0' =>
                  forall field t, In (field, t) plot ->
                    exists x x', get r0 field = Ret x /\ construct t x = Ret x'
                                 /\ get r0' field = Ret x')
               [lot (VStr "8450") (VInt 2003) (VBool true)] pre' /\
       (forall field t x x',
          In (field, t) plot ->
          dict_get d field = Some x -> x <> VNone -> construct t x = Ret x' ->
          dict_get d' field = Some x') /\
       (forall field t x,
          In (field, t) plot ->
          dict_get d field = Some x ->
          x = VNone \/ (exists e, construct t x = Raise e) ->
          dict_get d' field = Some x).
Proof.
  split; [reflexivity|].
  refine (failed_coercion_keeps_the_converted_values plot
            [lot (VStr "8450") (VInt 2003) (VBool true)]
            (lot (VStr " 12 ") (VStr "nineteen") (VStr "-2"))
            [lot (VStr "9000") (VStr "1999") (VStr "1")]
            _ _ _ _).
  - distinct_keys.
  - reflexivity.
  - reflexivity.
Defined.

(** C10. A field declared [str] with a value that is not null cannot go
    wrong: the conversion returns, and the iteration of the inner loop on
    that field stores the text and adds nothing to the type errors nor to
    the invalid values. *)
Theorem str_field_adds_no_error (field : string) (x : value) (st : locals) :
  get (input_data st) field = Ret x ->
  x <> VNone ->
  construct str x = Ret (VStr (to_str x))
  /\ numeric str = false
  /\ exists r',
       check_field field str st
       = ({| input_data := r'; type_errors := type_errors st;
             invalid_values := invalid_values st |}, Ret tt)
       /\ get r' field = Ret (VStr (to_str x)).
Proof.
  intros Hget Hx. split; [reflexivity|]. split; [reflexivity|].
  destruct st as [r te iv]. cbn [input_data type_errors invalid_values] in *.
  destruct r; try discriminate. cbn [get] in Hget.
  exists (VDict (dict_set d field (VStr (to_str x)))).
  rewrite check_field_dict. unfold verdict_of.
  destruct (dict_get d field) as [y|] eqn:Hd.
  - injection Hget as ->. cbn [construct numeric andb].
    split; [destruct x; try congruence; reflexivity|].
    cbn [get]. now rewrite dict_get_set_same.
  - injection Hget as <-. congruence.
Qed.

(** C10, run: a number, a truth value and a text under [str]. *)
Lemma str_field_adds_no_error_witness :
  check_fields [("a", str); ("b", str); ("c", str)]
    {| input_data := VDict [("a", VInt (-7)); ("b", VBool true); ("c", VStr "-1")];
       type_errors := []; invalid_values := [] |}
  = ({| input_data := VDict [("a", VStr "-7"); ("b", VStr "True"); ("c", VStr "-1")];
        type_errors := []; invalid_values := [] |}, Ret tt)
  /\ construct str (VInt (-7)) = Ret (VStr (to_str (VInt (-7)))).
Proof.
  split; [reflexivity|].
  exact (proj1 (str_field_adds_no_error "a" (VInt (-7))
                  {| input_data := VDict [("a", VInt (-7))];
                     type_errors := []; invalid_values := [] |}
                  eq_refl ltac:(discriminate))).
Defined.

(** ** The endpoint *)

Lemma includes_invalid_values (idx : nat) (errors : list string) :
  includes "Invalid values" (invalid_value_text idx errors).
Proof. exists (record_prefix idx), (": " ++ join ", " errors). reflexivity. Qed.

(** A record all of whose fields convert has no type error and lets no
    exception through. *)
Lemma all_convert (d : dict) (expected_features : schema) :
  (forall field t, In (field, t) expected_features ->
     exists x x', dict_get d field = Some x /\ x <> VNone /\ construct t x = Ret x') ->
  escaping d expected_features = None /\ type_errors_of d expected_features = [].
Proof.
  unfold type_errors_of.
  induction expected_features as [|[field t] rest IH]; intros Hall; [now split|].
  cbn [escaping flat_map].
  destruct (Hall field t (or_introl eq_refl)) as (x & x' & Hget & Hx & Hc).
  destruct (IH (fun f ty Hin => Hall f ty (or_intror Hin))) as [Hesc Hte].
  destruct (verdict_of_converted d field t x x' Hget Hx Hc) as [-> | ->];
    now rewrite Hesc, Hte.
Qed.

Lemma negative_is_reported (d : dict) (expected_features : schema)
  (field : string) (t : type) (x x' : value) :
  In (field, t) expected_features ->
  numeric t = true ->
  dict_get d field = Some x -> construct t x = Ret x' -> lt_zero x' = Ret true ->
  verdict_of d field t = Negative x'
  /\ In (value_message field) (value_errors_of d expected_features).
Proof.
  intros Hin Hnum Hget Hc Hneg.
  assert (Hv : verdict_of d field t = Negative x').
  { unfold verdict_of, below_zero. rewrite Hget.
    destruct x; try (destruct t; discriminate); rewrite Hc, Hnum, Hneg; reflexivity. }
  split; [exact Hv|].
  unfold value_errors_of. apply in_flat_map. exists (field, t).
  split; [assumption|]. rewrite Hv. now left.
Qed.

Section Pipeline.

Variable expected_features : schema.
Variable table : Type.
Variable DataFrame : list value -> list string -> table + string.
Variable model_predict : option table -> list value + string.

Abbreviation handler := (predict expected_features table DataFrame model_predict).
Abbreviation validating := (validate_step expected_features table DataFrame model_predict).
Abbreviation coercing := (coerce_step expected_features table DataFrame model_predict).
Abbreviation assembling := (assemble_step expected_features table DataFrame model_predict).
Abbreviation predicting := (predict_step table model_predict).

Lemma handler_on_batch (payload : value) (records : list value) :
  batch_of payload = Some records ->
  handler (Ret payload)
  = (opening :: fst (validating records), snd (validating records)).
Proof.
  destruct payload; try discriminate; intros [= <-];
    unfold predict; now destruct (validating _).
Qed.

Lemma validating_fails (records : list value) (msg : string) :
  validate_input_data records expected_features = Ret (false, msg) ->
  validating records
  = ([Enter Validation; Log ERROR ("Input validation error: " ++ msg)],
     Ret (failure 400 msg)).
Proof. intros H. unfold validate_step. now rewrite H. Qed.

Lemma validating_passes (records : list value) (msg : string) :
  validate_input_data records expected_features = Ret (true, msg) ->
  validating records
  = (Enter Validation :: fst (coercing records), snd (coercing records)).
Proof. intros H. unfold validate_step. rewrite H. now destruct (coercing records). Qed.

Lemma coercing_fails (records : list value) (msg : string) :
  snd (check_data_types_and_values records expected_features) = Ret (false, msg) ->
  coercing records
  = ([Enter Coercion; Log ERROR ("Data type/value validation error: " ++ msg)],
     Ret (failure 400 msg)).
Proof.
  intros H. unfold coerce_step.
  destruct (check_data_types_and_values records expected_features) as [records' res].
  cbn [snd] in H. now subst res.
Qed.

Lemma coercing_passes (records : list value) (msg : string) :
  snd (check_data_types_and_values records expected_features) = Ret (true, msg) ->
  coercing records
  = (Enter Coercion
       :: fst (assembling (fst (check_data_types_and_values records expected_features))),
     snd (assembling (fst (check_data_types_and_values records expected_features)))).
Proof.
  intros H. unfold coerce_step.
  destruct (check_data_types_and_values records expected_features) as [records' res].
  cbn [snd fst] in *. subst res. now destruct (assembling records').
Qed.

Lemma assembling_fails (records : list value) (e : string) :
  DataFrame records (map fst expected_features) = inr e ->
  e <> "" ->
  assembling records
  = ([Enter Assembly; Log ERROR ("Error converting input data to DataFrame: " ++ e)],
     Ret (failure 400 ("Invalid input format: " ++ e))).
Proof.
  intros H He. unfold assemble_step, convert_to_dataframe. rewrite H.
  destruct e; [congruence | reflexivity].
Qed.

Lemma assembling_passes (records : list value) (input_df : table) :
  DataFrame records (map fst expected_features) = inl input_df ->
  assembling records
  = (Enter Assembly :: fst (predicting (Some input_df)), snd (predicting (Some input_df))).
Proof.
  intros H. unfold assemble_step, convert_to_dataframe. rewrite H. cbn [truthy].
  now destruct (predicting (Some input_df)).
Qed.

Lemma predicting_fails (input_df : option table) (e : string) :
  model_predict input_df = inr e ->
  predicting input_df
  = ([Enter Prediction; Log ERROR ("Error making predictions: " ++ e)],
     Ret (failure 500 ("Prediction failed: " ++ e))).
Proof. intros H. unfold predict_step. now rewrite H. Qed.

Lemma predicting_stages (input_df : option table) :
  stages_of (fst (predicting input_df)) = [Prediction].
Proof. unfold predict_step. now destruct (model_predict input_df). Qed.

Lemma assembling_stages (records : list value) :
  stages_of (fst (assembling records)) = [Assembly]
  \/ stages_of (fst (assembling records)) = [Assembly; Prediction].
Proof.
  unfold assemble_step.
  destruct (convert_to_dataframe table DataFrame records expected_features) as [df err].
  destruct (truthy err); [now left|]. right.
  pose proof (predicting_stages df) as H.
  destruct (predicting df) as [events res]. cbn [fst stages_of] in *. now rewrite H.
Qed.

Lemma coercing_stages (records : list value) :
  exists rest,
    (stages_of (fst (coercing records)) ++ rest)%list = [Coercion; Assembly; Prediction].
Proof.
  unfold coerce_step.
  destruct (check_data_types_and_values records expected_features)
    as [records' [[[|] msg]|e]].
  - destruct (assembling_stages records') as [H | H];
      destruct (assembling records') as [events res]; cbn [fst stages_of] in *;
      rewrite H; [now exists [Prediction] | now exists []].
  - now exists [Assembly; Prediction].
  - now exists [Assembly; Prediction].
Qed.

Lemma validating_stages (records : list value) :
  exists rest,
    (stages_of (fst (validating records)) ++ rest)%list
    = [Validation; Coercion; Assembly; Prediction].
Proof.
  unfold validate_step.
  destruct (validate_input_data records expected_features) as [[[|] msg]|e].
  - destruct (coercing_stages records) as [rest H].
    destruct (coercing records) as [events res]. cbn [fst stages_of app] in *.
    exists rest. now rewrite H.
  - now exists [Coercion; Assembly; Prediction].
  - now exists [Coercion; Assembly; Prediction].
Qed.

(** C5. A JSON object sent on its own is handled as the array holding
    just that object: same events, same response. *)
Theorem single_object_is_one_element_array (d : dict) :
  handler (Ret (VDict d)) = handler (Ret (VList [VDict d])).
Proof. reflexivity. Qed.

(** C7. When the body does not parse as JSON -- [request.get_json()]
    raises [BadRequest], whatever its description -- [predict] answers 400
    with [success] false and the error ["Invalid JSON input format"], and
    enters no step; a body for which [get_json] gives [None] is answered
    the same. *)
Theorem unparsable_body_is_a_400 (description : string) :
  snd (handler (Raise (BadRequest description)))
  = Ret {| body := VDict [("success", VBool false);
                          ("error", VStr "Invalid JSON input format")];
           status := 400 |}
  /\ stages_of (fst (handler (Raise (BadRequest description)))) = []
  /\ snd (handler (Ret VNone)) = snd (handler (Raise (BadRequest description))).
Proof. repeat split. Qed.

(** The steps entered by any run are the first ones of the four, in order. *)
Lemma handler_stages (get_json : outcome value) :
  exists rest,
    (stages_of (fst (handler get_json)) ++ rest)%list
    = [Validation; Coercion; Assembly; Prediction].
Proof.
  destruct get_json as [payload|e].
  - destruct (batch_of payload) as [records|] eqn:Hb.
    + rewrite (handler_on_batch payload records Hb). apply validating_stages.
    + exists [Validation; Coercion; Assembly; Prediction].
      destruct payload; try discriminate; reflexivity.
  - exists [Validation; Coercion; Assembly; Prediction]. now destruct e.
Qed.

(** A step that raises is the last one entered as well, and the exception
    leaves the handler. *)
Lemma steps_stop_at_an_exception (payload : value) (records : list value) (e : exn) :
  batch_of payload = Some records ->
  (validate_input_data records expected_features = Raise e ->
   stages_of (fst (handler (Ret payload))) = [Validation]
   /\ snd (handler (Ret payload)) = Raise e)
  /\
  (forall m,
     validate_input_data records expected_features = Ret (true, m) ->
     snd (check_data_types_and_values records expected_features) = Raise e ->
     stages_of (fst (handler (Ret payload))) = [Validation; Coercion]
     /\ snd (handler (Ret payload)) = Raise e).
Proof.
  intros Hb. rewrite (handler_on_batch payload records Hb).
  cbn [fst snd stages_of opening]. split.
  - intros Hv. unfold validate_step. now rewrite Hv.
  - intros m Hv Hc. rewrite (validating_passes records m Hv).
    unfold coerce_step.
    destruct (check_data_types_and_values records expected_features) as [l res].
    cbn [snd] in Hc. now subst res.
Qed.

(** The steps of [predict] are entered in the order validation, coercion,
    assembly, prediction, and a step whose failure the handler sees -- a
    result returned that is not valid, an error text of the assembly that
    is not empty, an exception of the model -- is the last one entered: the
    response is the error it reported.  A step that raises, and an assembly
    whose error text is empty, are not among these. *)
Theorem steps_run_in_order_and_stop_at_the_first_failure
  (payload : value) (records : list value) :
  batch_of payload = Some records ->
  (exists rest,
     (stages_of (fst (handler (Ret payload))) ++ rest)%list
     = [Validation; Coercion; Assembly; Prediction])
  /\
  (forall msg,
     validate_input_data records expected_features = Ret (false, msg) ->
     stages_of (fst (handler (Ret payload))) = [Validation]
     /\ snd (handler (Ret payload)) = Ret (failure 400 msg))
  /\
  (forall m msg,
     validate_input_data records expected_features = Ret (true, m) ->
     snd (check_data_types_and_values records expected_features) = Ret (false, msg) ->
     stages_of (fst (handler (Ret payload))) = [Validation; Coercion]
     /\ snd (handler (Ret payload)) = Ret (failure 400 msg))
  /\
  (forall m m' e,
     validate_input_data records expected_features = Ret (true, m) ->
     snd (check_data_types_and_values records expected_features) = Ret (true, m') ->
     DataFrame (fst (check_data_types_and_values records expected_features))
               (map fst expected_features) = inr e ->
     e <> "" ->
     stages_of (fst (handler (Ret payload))) = [Validation; Coercion; Assembly]
     /\ snd (handler (Ret payload))
        = Ret (failure 400 ("Invalid input format: " ++ e)))
  /\
  (forall m m' input_df e,
     validate_input_data records expected_features = Ret (true, m) ->
     snd (check_data_types_and_values records expected_features) = Ret (true, m') ->
     DataFrame (fst (check_data_types_and_values records expected_features))
               (map fst expected_features) = inl input_df ->
     model_predict (Some input_df) = inr e ->
     stages_of (fst (handler (Ret payload)))
     = [Validation; Coercion; Assembly; Prediction]
     /\ snd (handler (Ret payload))
        = Ret (failure 500 ("Prediction failed: " ++ e))).
Proof.
  intros Hb. split; [apply handler_stages|].
  rewrite (handler_on_batch payload records Hb). cbn [fst snd stages_of opening].
  split; [|split; [|split]].
  - intros msg Hv. rewrite (validating_fails records msg Hv). now split.
  - intros m msg Hv Hc.
    rewrite (validating_passes records m Hv), (coercing_fails records msg Hc). now split.
  - intros m m' e Hv Hc Hdf He.
    rewrite (validating_passes records m Hv), (coercing_passes records m' Hc),
      (assembling_fails _ e Hdf He).
    now split.
  - intros m m' input_df e Hv Hc Hdf Hm.
    rewrite (validating_passes records m Hv), (coercing_passes records m' Hc),
      (assembling_passes _ input_df Hdf), (predicting_fails _ e Hm).
    now split.
Qed.

Lemma filter_nil {A : Type} (p : A -> bool) (l : list A) :
  (forall x, In x l -> p x = false) -> filter p l = [].
Proof.
  induction l as [|x l IH]; intros H; [reflexivity|].
  cbn [filter]. rewrite (H x (or_introl eq_refl)).
  apply IH. intros y Hy. apply H. now right.
Qed.

Lemma acceptable_passes (r : value) :
  acceptable expected_features r -> passes expected_features r.
Proof.
  intros (d & -> & Hkeys & Hnonnull & Hconv). repeat split.
  - rewrite missing_fields_dict. f_equal. apply filter_nil.
    intros field Hin. apply negb_false_iff, dict_mem_keys, Hkeys, Hin.
  - rewrite extra_fields_dict. f_equal. apply filter_nil.
    intros x Hin. apply in_map_iff in Hin as ([k y] & <- & Hin). cbn [fst in_schema].
    apply negb_false_iff, existsb_exists. exists k.
    split; [|apply String.eqb_refl].
    apply Hkeys. apply in_map_iff. now exists (k, y).
  - unfold null_fields.
    rewrite (comprehension_filter _ (fun _ => false)).
    + f_equal. now apply filter_nil.
    + intros field Hin. apply in_map_iff in Hin as ([f t] & <- & Hin). cbn [fst get].
      destruct (Hconv f t Hin) as (x & x' & Hget & _). rewrite Hget. cbn [bind].
      f_equal. apply is_none_false. exact (Hnonnull f x Hget).
Qed.

Lemma accepted_everywhere (d : dict) (fields : schema) :
  (forall field t, In (field, t) fields -> exists x', verdict_of d field t = Accepted x') ->
  escaping d fields = None /\ type_errors_of d fields = [] /\ value_errors_of d fields = [].
Proof.
  unfold type_errors_of, value_errors_of.
  induction fields as [|[field t] rest IH]; intros Hall; [now repeat split|].
  cbn [escaping flat_map].
  destruct (Hall field t (or_introl eq_refl)) as [x' ->].
  apply IH. intros f ty Hin. apply Hall. now right.
Qed.

Lemma acceptable_goes_through (r : value) :
  NoDup (map fst expected_features) ->
  acceptable expected_features r ->
  exists r', forall idx, check_record idx r expected_features = (r', Ret None).
Proof.
  intros Hnodup (d & -> & _ & Hnonnull & Hconv).
  exists (VDict (coerce d expected_features)). intros idx.
  assert (Hall : forall field t, In (field, t) expected_features ->
                   exists x', verdict_of d field t = Accepted x').
  { intros field t Hin. destruct (Hconv field t Hin) as (x & x' & Hget & Hc & Hsign).
    exists x'. unfold verdict_of. rewrite Hget.
    pose proof (Hnonnull field x Hget) as Hx.
    assert (Hb : numeric t && below_zero x' = false).
    { destruct (numeric t); [|reflexivity]. unfold below_zero. now rewrite Hsign. }
    destruct x; try congruence; now rewrite Hc, Hb. }
  destruct (accepted_everywhere d expected_features Hall) as (Hesc & Hte & Hve).
  pose proof (check_record_dict idx d expected_features Hnodup) as H.
  now rewrite Hesc, Hte, Hve in H.
Qed.

Lemma check_from_all_through (records : list value) :
  Forall (fun r => exists r', forall idx,
            check_record idx r expected_features = (r', Ret None)) records ->
  forall idx, snd (check_from idx records expected_features) = Ret (true, "").
Proof.
  induction 1 as [|r records [r' Hr] _ IH]; intros idx; [reflexivity|].
  cbn [check_from]. rewrite (Hr idx). specialize (IH (S idx)).
  now destruct (check_from (S idx) records expected_features).
Qed.

Lemma assembling_enters (records : list value) :
  exists events, fst (assembling records) = Enter Assembly :: events.
Proof.
  unfold assemble_step.
  destruct (convert_to_dataframe table DataFrame records expected_features) as [df err].
  destruct (truthy err); [eexists; reflexivity|].
  destruct (predicting df). eexists; reflexivity.
Qed.

(** C4. Records with exactly the schema's keys, no null, and values that
    all convert, to numbers that are not negative where the field is
    numeric, go through both passes -- sent as one object or as an array --
    so the handler gets to the assembly of the table, and to the model
    once the table is built.  (The keys of the schema are distinct, as
    those of a dictionary are.) *)
Theorem acceptable_records_reach_the_model (payload : value) (records : list value) :
  batch_of payload = Some records ->
  NoDup (map fst expected_features) ->
  Forall (acceptable expected_features) records ->
  validate_input_data records expected_features = Ret (true, "")
  /\ snd (check_data_types_and_values records expected_features) = Ret (true, "")
  /\ (exists events,
        fst (handler (Ret payload))
        = opening :: Enter Validation :: Enter Coercion :: Enter Assembly :: events)
  /\ (forall input_df,
        DataFrame (fst (check_data_types_and_values records expected_features))
                  (map fst expected_features) = inl input_df ->
        stages_of (fst (handler (Ret payload)))
        = [Validation; Coercion; Assembly; Prediction]).
Proof.
  intros Hb Hnodup Hall.
  assert (Hv : validate_input_data records expected_features = Ret (true, "")).
  { unfold validate_input_data.
    rewrite <- (app_nil_r records).
    rewrite (validate_from_prefix expected_features records []); [reflexivity|].
    refine (Forall_impl _ _ Hall). exact acceptable_passes. }
  assert (Hc : snd (check_data_types_and_values records expected_features)
               = Ret (true, "")).
  { apply check_from_all_through.
    refine (Forall_impl _ _ Hall). intros r. now apply acceptable_goes_through. }
  split; [exact Hv|]. split; [exact Hc|].
  rewrite (handler_on_batch payload records Hb), (validating_passes records "" Hv),
    (coercing_passes records "" Hc).
  cbn [fst stages_of opening]. split.
  - destruct (assembling_enters
                (fst (check_data_types_and_values records expected_features)))
      as [events ->].
    now exists events.
  - intros input_df Hdf. rewrite (assembling_passes _ input_df Hdf).
    cbn [fst stages_of]. now rewrite predicting_stages.
Qed.

(** C6, amended.  A numeric field whose value converts to a negative
    number makes the iteration on it record ["Field '...' must be a
    non-negative number"]; and when the request goes through the presence
    pass, the records before this one go through the coercion pass and
    every field of the record converts -- the record has no type error --
    the request is answered 400 with the error ["Record i: Invalid values:
    "] and the value errors of the record, which contains ["Invalid
    values"].  (The keys of the schema are distinct, as those of a
    dictionary are.) *)
Theorem negative_number_is_an_invalid_value
  (payload : value) (pre : list value) (d : dict) (post : list value)
  (field : string) (t : type) (x x' : value) :
  batch_of payload = Some (pre ++ VDict d :: post)%list ->
  NoDup (map fst expected_features) ->
  validate_input_data (pre ++ VDict d :: post) expected_features = Ret (true, "") ->
  snd (check_data_types_and_values pre expected_features) = Ret (true, "") ->
  (forall f ty, In (f, ty) expected_features ->
     exists y y', dict_get d f = Some y /\ y <> VNone /\ construct ty y = Ret y') ->
  In (field, t) expected_features ->
  numeric t = true ->
  dict_get d field = Some x ->
  construct t x = Ret x' ->
  lt_zero x' = Ret true ->
  (forall d0 te iv,
     dict_get d0 field = Some x ->
     check_field field t
       {| input_data := VDict d0; type_errors := te; invalid_values := iv |}
     = ({| input_data := VDict (dict_set d0 field x'); type_errors := te;
           invalid_values :=
             (iv ++ [("Field '" ++ field ++ "' must be a non-negative number")%string])%list |},
        Ret tt))
  /\ In ("Field '" ++ field ++ "' must be a non-negative number")
        (value_errors_of d expected_features)
  /\ snd (handler (Ret payload))
     = Ret (failure 400
              ("Record " ++ str_of_nat (List.length pre) ++ ": Invalid values: "
                 ++ join ", " (value_errors_of d expected_features)))
  /\ includes "Invalid values"
       ("Record " ++ str_of_nat (List.length pre) ++ ": Invalid values: "
          ++ join ", " (value_errors_of d expected_features)).
Proof.
  intros Hb Hnodup Hv Hpre Hall Hin Hnum Hget Hc Hneg.
  split; [|split; [|split]].
  - intros d0 te iv Hget0. rewrite check_field_dict.
    destruct (negative_is_reported d0 [(field, t)] field t x x'
                (or_introl eq_refl) Hnum Hget0 Hc Hneg) as [-> _].
    reflexivity.
  - exact (proj2 (negative_is_reported d expected_features field t x x'
                    Hin Hnum Hget Hc Hneg)).
  - destruct (all_convert d expected_features Hall) as [Hesc Hte].
    assert (Hve : value_errors_of d expected_features <> []).
    { intros Hnil.
      pose proof (proj2 (negative_is_reported d expected_features field t x x'
                           Hin Hnum Hget Hc Hneg)) as Hmem.
      rewrite Hnil in Hmem. contradiction. }
    pose proof (check_batch_at expected_features pre d post Hnodup Hpre Hesc) as Hres.
    rewrite Hte in Hres. cbn [nonempty] in Hres. rewrite (nonempty_true _ Hve) in Hres.
    rewrite (handler_on_batch payload _ Hb), (validating_passes _ "" Hv).
    cbn [snd]. rewrite (coercing_fails _ _ (f_equal snd Hres)).
    unfold invalid_value_text. now rewrite record_prefix_append.
  - pose proof (includes_invalid_values (List.length pre)
                  (value_errors_of d expected_features)) as H.
    unfold invalid_value_text in H. rewrite record_prefix_append in H. exact H.
Qed.

End Pipeline.

(** The application's own handler agrees with [predict] on a [BadRequest]
    that reports a decoding failure. *)
Lemma handle_bad_request_on_decoding_failure (description : string) :
  includes "Failed to decode JSON object" description ->
  snd (handle_bad_request description) = failure 400 "Invalid JSON input format".
Proof.
  intros (before & after & ->). unfold handle_bad_request. cbn [snd].
  rewrite (str_contains_includes "Failed to decode JSON object").
  - reflexivity.
  - exists ("400 Bad Request: " ++ before), after.
    unfold bad_request_text. now rewrite append_assoc.
Qed.

(** *** Runs *)

Lemma home_is_acceptable : acceptable housing (home (VInt 8450) (VStr "2003")).
Proof.
  eexists. split; [reflexivity|]. split; [|split].
  - intros k. cbn. tauto.
  - intros k y H. cbn in H.
    repeat (destruct (String.eqb k _); [injection H as <-; discriminate|]).
    discriminate.
  - intros field t Hin. each_field Hin.
Qed.

(** C4, run: the record of the test suite, its year sent as text. *)
Lemma acceptable_records_reach_the_model_witness :
  validate_input_data [home (VInt 8450) (VStr "2003")] housing = Ret (true, "")
  /\ check_data_types_and_values [home (VInt 8450) (VStr "2003")] housing
     = ([home (VInt 8450) (VInt 2003)], Ret (true, ""))
  /\ stages_of (fst (predict housing (list (list value)) rows_of flat_rate
                       (Ret (VList [home (VInt 8450) (VStr "2003")]))))
     = [Validation; Coercion; Assembly; Prediction].
Proof.
  pose proof (acceptable_records_reach_the_model housing (list (list value))
                rows_of flat_rate (VList [home (VInt 8450) (VStr "2003")])
                [home (VInt 8450) (VStr "2003")] eq_refl
                ltac:(distinct_keys)
                (Forall_cons _ home_is_acceptable (Forall_nil _)))
    as (Hv & _ & _ & Hm).
  split; [exact Hv|]. split; [reflexivity|].
  exact (Hm _ eq_refl).
Defined.

(** C6 as stated, for every record without type error, does not hold.  In
    the first request the second record has a negative lot area and no type
    error, and the answer is the type error of the record before it; in the
    second the record has a negative lot area, no type error and a field
    the schema does not know, and the answer comes from the presence pass.
    Neither error contains ["Invalid values"]. *)
Lemma negative_number_in_a_request_that_fails_earlier :
  construct int (VInt (-100)) = Ret (VInt (-100))
  /\ lt_zero (VInt (-100)) = Ret true
  /\ type_errors_of [("LotArea", VInt (-100)); ("YearBuilt", VInt 2003);
                     ("FullBath", VInt 1)] plot = []
  /\ snd (predict plot (list (list value)) rows_of flat_rate
            (Ret (VList [lot (VStr "big") (VInt 2003) (VInt 1);
                         lot (VInt (-100)) (VInt 2003) (VInt 1)])))
     = Ret (failure 400
              "Record 0: Invalid input format: Type errors - Field 'LotArea' must be of type int (got value 'big')")
  /\ str_contains "Invalid values"
       "Record 0: Invalid input format: Type errors - Field 'LotArea' must be of type int (got value 'big')"
     = false
  /\ snd (predict plot (list (list value)) rows_of flat_rate
            (Ret (VList [VDict [("LotArea", VInt (-100)); ("YearBuilt", VInt 2003);
                                ("FullBath", VInt 1); ("Garage", VInt 2)]])))
     = Ret (failure 400 "Record 0: Unexpected fields provided: ['Garage']")
  /\ str_contains "Invalid values" "Record 0: Unexpected fields provided: ['Garage']"
     = false.
Proof. repeat split. Qed.

(** C6, run: the request of the test suite with a negative lot area. *)
Lemma negative_number_is_an_invalid_value_witness :
  snd (predict housing (list (list value)) rows_of flat_rate
         (Ret (home (VInt (-100)) (VInt 2003))))
  = Ret (failure 400
           "Record 0: Invalid values: Field 'LotArea' must be a non-negative number").
Proof.
  refine (proj1 (proj2 (proj2
            (negative_number_is_an_invalid_value housing (list (list value))
               rows_of flat_rate (home (VInt (-100)) (VInt 2003)) []
               [("LotArea", VInt (-100)); ("YearBuilt", VInt 2003);
                ("1stFlrSF", VInt 856); ("2ndFlrSF", VInt 854); ("FullBath", VInt 2);
                ("BedroomAbvGr", VInt 3); ("TotRmsAbvGrd", VInt 8)]
               [] "LotArea" int (VInt (-100)) (VInt (-100))
               _ _ _ _ _ _ _ _ _ _)))).
  - reflexivity.
  - distinct_keys.
  - reflexivity.
  - reflexivity.
  - intros f ty Hin. each_field Hin.
  - now left.
  - reflexivity.
  - reflexivity.
  - reflexivity.
  - reflexivity.
Defined.

(** A request stopped at each of the four steps in turn. *)
Lemma steps_run_in_order_and_stop_at_the_first_failure_witness :
  (stages_of (fst (predict plot (list (list value)) rows_of flat_rate
                     (Ret (VList [lot (VInt 1) (VInt 2) (VInt 3); VNone]))))
   = [Validation]
   /\ snd (predict plot (list (list value)) rows_of flat_rate
             (Ret (VList [lot (VInt 1) (VInt 2) (VInt 3); VNone])))
      = Ret (failure 400 "Record 1: No input data provided"))
  /\
  (stages_of (fst (predict plot (list (list value)) rows_of flat_rate
                     (Ret (lot (VInt 1) (VInt 2) (VStr "three")))))
   = [Validation; Coercion]
   /\ snd (predict plot (list (list value)) rows_of flat_rate
             (Ret (lot (VInt 1) (VInt 2) (VStr "three"))))
      = Ret (failure 400
               "Record 0: Invalid input format: Type errors - Field 'FullBath' must be of type int (got value 'three')"))
  /\
  (stages_of (fst (predict plot (list (list value)) no_table flat_rate
                     (Ret (VList [lot (VInt 1) (VInt 2) (VInt 3)]))))
   = [Validation; Coercion; Assembly]
   /\ snd (predict plot (list (list value)) no_table flat_rate
             (Ret (VList [lot (VInt 1) (VInt 2) (VInt 3)])))
      = Ret (failure 400
               "Invalid input format: Shape of passed values does not fit the columns"))
  /\
  (stages_of (fst (predict plot (list (list value)) rows_of no_price
                     (Ret (VList [lot (VInt 1) (VInt 2) (VInt 3)]))))
   = [Validation; Coercion; Assembly; Prediction]
   /\ snd (predict plot (list (list value)) rows_of no_price
             (Ret (VList [lot (VInt 1) (VInt 2) (VInt 3)])))
      = Ret (failure 500 "Prediction failed: Feature names unseen at fit time")).
Proof.
  split; [|split; [|split]].
  - exact (proj1 (proj2 (steps_run_in_order_and_stop_at_the_first_failure plot
                           (list (list value)) rows_of flat_rate
                           (VList [lot (VInt 1) (VInt 2) (VInt 3); VNone])
                           [lot (VInt 1) (VInt 2) (VInt 3); VNone] eq_refl))
             _ eq_refl).
  - exact (proj1 (proj2 (proj2 (steps_run_in_order_and_stop_at_the_first_failure plot
                                  (list (list value)) rows_of flat_rate
                                  (lot (VInt 1) (VInt 2) (VStr "three"))
                                  [lot (VInt 1) (VInt 2) (VStr "three")] eq_refl)))
             _ _ eq_refl eq_refl).
  - refine (proj1 (proj2 (proj2 (proj2
              (steps_run_in_order_and_stop_at_the_first_failure plot
                 (list (list value)) no_table flat_rate
                 (VList [lot (VInt 1) (VInt 2) (VInt 3)])
                 [lot (VInt 1) (VInt 2) (VInt 3)] eq_refl))))
              _ _ _ eq_refl eq_refl eq_refl _).
    discriminate.
  - exact (proj2 (proj2 (proj2 (proj2
             (steps_run_in_order_and_stop_at_the_first_failure plot
                (list (list value)) rows_of no_price
                (VList [lot (VInt 1) (VInt 2) (VInt 3)])
                [lot (VInt 1) (VInt 2) (VInt 3)] eq_refl))))
             _ _ _ _ eq_refl eq_refl eq_refl eq_refl).
Defined.

(** C8, where the code departs from it.  Steps 1 and 2 are called outside
    any [try], while steps 3 and 4 catch every exception and answer with
    an error: a validation or a coercion that raises leaves [predict]
    with the exception and no error response.  A record that is no object
    makes [field not in input_data] raise [TypeError] under any schema
    with a field, and an infinite float in an [int] field makes the
    conversion raise [OverflowError], which the [except] clause of the
    coercion does not name.  Step 3 reports its failure as the text of the
    exception and the handler tests it with [if error:]: were the text
    empty, the failure would go unseen and step 4 would run, on no
    table. *)
Theorem step_that_raises_gives_no_error_response :
  (forall (field : string) (t : type) (rest : schema) (table : Type)
          (DataFrame : list value -> list string -> table + string)
          (model_predict : option table -> list value + string),
     predict ((field, t) :: rest) table DataFrame model_predict (Ret (VList [VInt 5]))
     = ([opening; Enter Validation], Raise TypeError))
  /\
  predict plot (list (list value)) rows_of flat_rate
    (Ret (lot (VInt 8450) (VFloat (S754_infinity false)) (VInt 2)))
  = ([opening; Enter Validation; Enter Coercion], Raise OverflowError)
  /\
  (forall (table : Type) (model_predict : option table -> list value + string),
     stages_of (fst (predict plot table (fun _ _ => inr "") model_predict
                       (Ret (lot (VInt 8450) (VInt 2003) (VInt 2)))))
     = [Validation; Coercion; Assembly; Prediction]
     /\ snd (predict plot table (fun _ _ => inr "") model_predict
               (Ret (lot (VInt 8450) (VInt 2003) (VInt 2))))
        = match model_predict None with
          | inl predictions => Ret (success predictions)
          | inr e => Ret (failure 500 ("Prediction failed: " ++ e))
          end).
Proof.
  split; [|split].
  - intros field t rest table DataFrame model_predict. reflexivity.
  - vm_compute. reflexivity.
  - intros table model_predict.
    unfold predict. cbn. unfold predict_step.
    destruct (model_predict None); split; reflexivity.
Qed.

(** *** The requests of the test suite *)

Example test_hello_endpoint :
  snd hello
  = {| body := VDict [("success", VBool true); ("message", VStr "Hello, World!")];
       status := 200 |}.
Proof. reflexivity. Qed.

Example test_predict_endpoint_valid_input :
  answer (home (VInt 8450) (VInt 2003)) = Ret (success [VInt 100000]).
Proof. reflexivity. Qed.

Example test_predict_endpoint_missing_input :
  answer (VDict [])
  = Ret (failure 400
           "Record 0: Missing required fields: ['LotArea', 'YearBuilt', '1stFlrSF', '2ndFlrSF', 'FullBath', 'BedroomAbvGr', 'TotRmsAbvGrd']").
Proof. reflexivity. Qed.

Example test_predict_endpoint_invalid_input :
  status_of (answer (home (VStr "eighty_four_fifty") (VInt 2003))) = 400
  /\ str_contains "Invalid input format"
       (error_of (answer (home (VStr "eighty_four_fifty") (VInt 2003)))) = true.
Proof. split; reflexivity. Qed.

Example test_predict_endpoint_missing_fields :
  status_of (answer (VDict [("LotArea", VInt 8450); ("YearBuilt", VInt 2003)])) = 400
  /\ str_contains "Missing required fields"
       (error_of (answer (VDict [("LotArea", VInt 8450); ("YearBuilt", VInt 2003)])))
     = true.
Proof. split; reflexivity. Qed.

Example test_predict_endpoint_extra_fields :
  answer (VDict [("LotArea", VInt 8450); ("YearBuilt", VInt 2003);
                 ("1stFlrSF", VInt 856); ("2ndFlrSF", VInt 854); ("FullBath", VInt 2);
                 ("BedroomAbvGr", VInt 3); ("TotRmsAbvGrd", VInt 8);
                 ("ExtraField", VStr "invalid")])
  = Ret (failure 400 "Record 0: Unexpected fields provided: ['ExtraField']").
Proof. reflexivity. Qed.

Example test_predict_endpoint_invalid_values :
  status_of (answer (home (VInt (-100)) (VInt 2003))) = 400
  /\ str_contains "Invalid values" (error_of (answer (home (VInt (-100)) (VInt 2003))))
     = true.
Proof. split; reflexivity. Qed.

Example test_predict_endpoint_bad_json_input :
  snd (predict housing (list (list value)) rows_of flat_rate
         (Raise (BadRequest "Failed to decode JSON object: Expecting ',' delimiter")))
  = Ret (failure 400 "Invalid JSON input format").
Proof. reflexivity. Qed.

(** ** More on the presence pass *)

Lemma comprehension_raises {A : Type} (keep : A -> outcome bool) (l : list A) (e : exn) :
  comprehension keep l = Raise e -> exists x, In x l /\ keep x = Raise e.
Proof.
  induction l as [|x l IH]; [discriminate|].
  cbn [comprehension]. destruct (keep x) as [b|e'] eqn:Hk; cbn [bind].
  - destruct (comprehension keep l) as [rest|e'] eqn:Hc; cbn [bind]; [discriminate|].
    intros [= ->]. destruct (IH eq_refl) as (y & Hy & Hky).
    exists y. split; [now right | assumption].
  - intros [= ->]. exists x. split; [now left | assumption].
Qed.

Lemma filter_nil_iff {A : Type} (p : A -> bool) (l : list A) :
  filter p l = [] <-> forall x, In x l -> p x = false.
Proof.
  induction l as [|x l IH]; cbn [filter].
  - split; [intros _ y [] | reflexivity].
  - destruct (p x) eqn:E.
    + split; [discriminate|]. intros H. rewrite (H x (or_introl eq_refl)) in E. discriminate.
    + rewrite IH. split.
      * intros H y [<- | Hy]; auto.
      * intros H y Hy. apply H. now right.
Qed.

Lemma nonempty_false {A : Type} (l : list A) : nonempty l = false -> l = [].
Proof. destruct l; [reflexivity | discriminate]. Qed.

Lemma map_VStr_nil (l : list string) : map VStr l = [] <-> l = [].
Proof. destruct l; split; intros H; try reflexivity; discriminate. Qed.

Lemma repr_list_of_strings (l : list string) : repr (VList (map VStr l)) = list_text l.
Proof. exact (repr_strs l). Qed.

Section ObjectPresence.

Variable expected_features : schema.

Lemma extra_fields_unexpected (d : dict) :
  extra_fields (VDict d) expected_features
  = Ret (map VStr (unexpected_fields d expected_features)).
Proof.
  rewrite extra_fields_dict. f_equal. unfold unexpected_fields.
  induction d as [|[k x] d IH]; [reflexivity|].
  cbn [map fst filter in_schema]. rewrite IH.
  now destruct (existsb (String.eqb k) (map fst expected_features)).
Qed.

Lemma null_fields_dict (d : dict) :
  null_fields (VDict d) expected_features = Ret (null_valued d expected_features).
Proof.
  unfold null_fields, null_valued. apply comprehension_filter.
  intros field _. cbn [get]. destruct (dict_get d field) as [[]|]; reflexivity.
Qed.

(** An object goes through the checks when the three lists are empty. *)
Lemma passes_dict (d : dict) :
  passes expected_features (VDict d)
  <-> absent_fields d expected_features = []
      /\ unexpected_fields d expected_features = []
      /\ null_valued d expected_features = [].
Proof.
  unfold passes. rewrite missing_fields_dict, extra_fields_unexpected, null_fields_dict.
  split.
  - intros (_ & Hm & He & Hn). injection Hm as Hm. injection He as He. injection Hn as Hn.
    apply map_VStr_nil in He. auto.
  - intros (-> & -> & ->). auto.
Qed.

Lemma complete_dict (d : dict) :
  complete expected_features (VDict d)
  <-> absent_fields d expected_features = []
      /\ unexpected_fields d expected_features = []
      /\ null_valued d expected_features = [].
Proof.
  unfold complete, absent_fields, unexpected_fields, null_valued.
  rewrite !filter_nil_iff. split.
  - intros (d0 & [= <-] & Hkeys & Hnull). repeat split.
    + intros field Hin. apply negb_false_iff, dict_mem_keys, Hkeys, Hin.
    + intros k Hin. apply negb_false_iff, existsb_exists. exists k.
      split; [now apply Hkeys | apply String.eqb_refl].
    + intros field Hin. specialize (Hnull field Hin).
      destruct (dict_get d field) as [[]|] eqn:E; try reflexivity; try congruence.
      apply Hkeys, dict_mem_keys in Hin. apply dict_mem_get in E. congruence.
  - intros (Hm & He & Hn). exists d. split; [reflexivity|]. split.
    + intros k. split.
      * intros Hin. specialize (He k Hin). apply negb_false_iff, existsb_exists in He.
        destruct He as (k' & Hk' & Heq). apply String.eqb_eq in Heq. now subst.
      * intros Hin. apply dict_mem_keys. specialize (Hm k Hin).
        now apply negb_false_iff in Hm.
    + intros k Hin Hget. specialize (Hn k Hin). rewrite Hget in Hn. discriminate.
Qed.

(** A record that is no object cannot answer [.get]. *)
Lemma null_fields_not_dict (r : value) :
  (forall d, r <> VDict d) -> expected_features <> [] ->
  null_fields r expected_features = Raise AttributeError.
Proof.
  intros Hr Hne. destruct expected_features as [|[field t] rest]; [congruence|].
  unfold null_fields. cbn [map fst comprehension].
  destruct r; try reflexivity. now elim (Hr d).
Qed.

Lemma passes_complete (r : value) :
  expected_features <> [] ->
  passes expected_features r <-> complete expected_features r.
Proof.
  intros Hne. destruct r;
    try (split;
         [ intros (_ & _ & _ & Hn);
           rewrite null_fields_not_dict in Hn by (assumption || discriminate);
           discriminate
         | intros (d & Hd & _); discriminate ]).
  rewrite passes_dict, complete_dict. tauto.
Qed.

(** A run that returns [True] went through every record. *)
Lemma validate_from_true (records : list value) :
  forall idx m,
    validate_from idx records expected_features = Ret (true, m) ->
    Forall (passes expected_features) records /\ m = "".
Proof.
  induction records as [|r records IH]; intros idx m H.
  - cbn in H. injection H as <-. split; [constructor | reflexivity].
  - cbn [validate_from] in H.
    destruct (is_none r) eqn:Hnone; [discriminate|].
    destruct (missing_fields r expected_features) as [missing|e] eqn:Hm; [|discriminate].
    cbn [bind] in H.
    destruct (extra_fields r expected_features) as [extra|e] eqn:He; [|discriminate].
    cbn [bind] in H.
    destruct (nonempty missing) eqn:Hnm; [discriminate|].
    destruct (nonempty extra) eqn:Hne; [discriminate|].
    destruct (null_fields r expected_features) as [nulls|e] eqn:Hn; [|discriminate].
    cbn [bind] in H.
    destruct (nonempty nulls) eqn:Hnn; [discriminate|].
    apply nonempty_false in Hnm, Hne, Hnn. subst.
    destruct (IH _ _ H) as [Hall ->]. split; [|reflexivity].
    constructor; [|exact Hall]. repeat split; assumption.
Qed.

Lemma validate_all_pass (records : list value) :
  Forall (passes expected_features) records ->
  validate_input_data records expected_features = Ret (true, "").
Proof.
  intros Hall. unfold validate_input_data. rewrite <- (app_nil_r records).
  now rewrite (validate_from_prefix expected_features records [] Hall).
Qed.

Lemma validated_records_complete (records : list value) (m : string) :
  expected_features <> [] ->
  validate_input_data records expected_features = Ret (true, m) ->
  Forall (complete expected_features) records.
Proof.
  intros Hne H.
  destruct (validate_from_true records 0%nat m H) as [Hall _].
  refine (Forall_impl _ _ Hall). intros r. now apply passes_complete.
Qed.

Lemma missing_fields_raises (r : value) (e : exn) :
  missing_fields r expected_features = Raise e ->
  e = TypeError /\ forall d, r <> VDict d.
Proof.
  intros H. split.
  - apply comprehension_raises in H as (field & _ & H).
    destruct r; cbn in H; congruence.
  - intros d ->. rewrite missing_fields_dict in H. discriminate.
Qed.

Lemma extra_fields_raises (r : value) (e : exn) :
  extra_fields r expected_features = Raise e ->
  e = TypeError /\ forall d, r <> VDict d.
Proof.
  intros H. split.
  - unfold extra_fields in H.
    destruct (iterate r) as [items|e'] eqn:Hi; cbn [bind] in H.
    + apply comprehension_raises in H as (x & _ & H).
      destruct x; cbn in H; congruence.
    + destruct r; cbn in Hi; congruence.
  - intros d ->. rewrite extra_fields_dict in H. discriminate.
Qed.

Lemma null_fields_raises (r : value) (e : exn) :
  null_fields r expected_features = Raise e ->
  e = AttributeError /\ forall d, r <> VDict d.
Proof.
  intros H. split.
  - apply comprehension_raises in H as (field & _ & H).
    destruct r; cbn in H; try congruence.
    destruct (dict_get d field); discriminate.
  - intros d ->. rewrite null_fields_dict in H. discriminate.
Qed.

(** The three ways the loop can leave a record: for the next record, with
    a message, or with an exception. *)
Lemma validate_from_step (idx : nat) (r : value) :
  passes expected_features r
  \/ (~ passes expected_features r /\
      exists text,
        forall post,
          validate_from idx (r :: post) expected_features
          = Ret (false, record_prefix idx ++ text))
  \/ (~ passes expected_features r /\ r <> VNone /\ (forall d, r <> VDict d) /\
      exists e,
        (e = TypeError \/ e = AttributeError) /\
        forall post, validate_from idx (r :: post) expected_features = Raise e).
Proof.
  cbn [validate_from].
  destruct (is_none r) eqn:Hnone.
  { right; left. split; [intros (H & _); congruence|]. eexists. reflexivity. }
  assert (Hr : r <> VNone) by (intros ->; discriminate).
  destruct (missing_fields r expected_features) as [missing|e] eqn:Hm.
  2:{ right; right. destruct (missing_fields_raises r e Hm) as [-> Hd].
      split; [intros (_ & H & _); congruence|]. repeat split; try assumption.
      exists TypeError. split; [now left | reflexivity]. }
  destruct (extra_fields r expected_features) as [extra|e] eqn:He.
  2:{ right; right. destruct (extra_fields_raises r e He) as [-> Hd].
      split; [intros (_ & _ & H & _); congruence|]. repeat split; try assumption.
      exists TypeError. split; [now left | reflexivity]. }
  cbn [bind].
  destruct missing as [|f missing].
  2:{ right; left. split; [intros (_ & H & _); congruence|]. eexists. reflexivity. }
  destruct extra as [|x extra].
  2:{ right; left. split; [intros (_ & _ & H & _); congruence|]. eexists. reflexivity. }
  cbn [nonempty].
  destruct (null_fields r expected_features) as [nulls|e] eqn:Hn.
  2:{ right; right. destruct (null_fields_raises r e Hn) as [-> Hd].
      split; [intros (_ & _ & _ & H); congruence|]. repeat split; try assumption.
      exists AttributeError. split; [now right | reflexivity]. }
  cbn [bind].
  destruct nulls as [|f nulls].
  2:{ right; left. split; [intros (_ & _ & _ & H); congruence|]. eexists. reflexivity. }
  left. repeat split; assumption.
Qed.

(** Where a run that does not return [True] ended: at the first record
    that does not go through. *)
Lemma validate_from_stops (records : list value) :
  forall idx,
    Forall (passes expected_features) records
    \/ exists pre r post,
         records = (pre ++ r :: post)%list /\
         Forall (passes expected_features) pre /\
         ~ passes expected_features r /\
         validate_from idx records expected_features
         = validate_from (idx + List.length pre) [r] expected_features /\
         ((exists text,
             validate_from (idx + List.length pre) [r] expected_features
             = Ret (false, record_prefix (idx + List.length pre) ++ text))
          \/ (r <> VNone /\ (forall d, r <> VDict d) /\
              exists e, (e = TypeError \/ e = AttributeError) /\
                validate_from (idx + List.length pre) [r] expected_features = Raise e)).
Proof.
  induction records as [|r records IH]; intros idx; [left; constructor|].
  destruct (validate_from_step idx r)
    as [Hp | [(Hnp & text & Ht) | (Hnp & Hr & Hd & e & He & Hraise)]].
  - destruct (IH (S idx)) as [Hall | (pre & r0 & post & -> & Hpre & Hnp & Heq & Hend)].
    + left. now constructor.
    + right. exists (r :: pre), r0, post. cbn [app List.length].
      rewrite Nat.add_succ_r. split; [reflexivity|]. split; [now constructor|].
      split; [assumption|]. split; [|exact Hend].
      now rewrite (validate_from_pass expected_features idx r _ Hp).
  - right. exists [], r, records. cbn [app List.length]. rewrite Nat.add_0_r.
    split; [reflexivity|]. split; [constructor|]. split; [assumption|].
    split; [now rewrite Ht, (Ht [])|].
    left. exists text. apply Ht.
  - right. exists [], r, records. cbn [app List.length]. rewrite Nat.add_0_r.
    split; [reflexivity|]. split; [constructor|]. split; [assumption|].
    split; [now rewrite Hraise, (Hraise [])|].
    right. repeat split; try assumption. exists e. split; [assumption | apply Hraise].
Qed.

End ObjectPresence.

(** X3. Under a schema that is not empty, [validate_input_data] returns
    [True] for exactly the batches all of whose records are objects with
    the key set of the schema and no null under a schema field; the
    message is then empty.  (Under an empty schema an empty array or an
    empty string goes through as a record.) *)
Theorem validation_accepts_exactly_the_complete_records
  (expected_features : schema) (records : list value) (m : string) :
  expected_features <> [] ->
  validate_input_data records expected_features = Ret (true, m)
  <-> Forall (complete expected_features) records /\ m = "".
Proof.
  intros Hne. split.
  - intros H. destruct (validate_from_true expected_features records 0%nat m H) as [Hall ->].
    split; [|reflexivity].
    refine (Forall_impl _ _ Hall). intros r. now apply passes_complete.
  - intros [Hall ->]. apply validate_all_pass.
    refine (Forall_impl _ _ Hall). intros r. now apply passes_complete.
Qed.

(** X3, run: two records of the test suite's shape, whatever their values
    are worth to the coercion pass. *)
Lemma validation_accepts_exactly_the_complete_records_witness :
  Forall (complete housing)
    [home (VInt 8450) (VStr "2003"); home (VStr "x") (VInt (-1))].
Proof.
  exact (proj1 (proj1 (validation_accepts_exactly_the_complete_records housing
                         [home (VInt 8450) (VStr "2003"); home (VStr "x") (VInt (-1))] ""
                         ltac:(discriminate))
                      eq_refl)).
Defined.

(** X4. An object that lacks no schema field and has keys the schema does
    not have, when the records before it go through the checks, makes
    [validate_input_data] fail with ["Record i: Unexpected fields
    provided: "] followed by the Python list of exactly those keys, in the
    order the object has them. *)
Theorem unexpected_fields_are_listed_in_record_order
  (expected_features : schema) (pre : list value) (d : dict) (post : list value) :
  Forall (passes expected_features) pre ->
  absent_fields d expected_features = [] ->
  unexpected_fields d expected_features <> [] ->
  validate_input_data (pre ++ VDict d :: post) expected_features
  = Ret (false,
         "Record " ++ str_of_nat (List.length pre) ++ ": Unexpected fields provided: "
           ++ list_text (unexpected_fields d expected_features))
  /\ forall k,
       In k (unexpected_fields d expected_features)
       <-> In k (map fst d) /\ ~ In k (map fst expected_features).
Proof.
  intros Hpre Hmissing Hextra. split.
  - unfold validate_input_data.
    rewrite (validate_from_prefix expected_features pre _ Hpre 0). cbn [Nat.add].
    rewrite (validate_from_extra expected_features (List.length pre) (VDict d) post
               (map VStr (unexpected_fields d expected_features))
               ltac:(discriminate)).
    + rewrite repr_list_of_strings, record_prefix_append. reflexivity.
    + now rewrite missing_fields_dict, Hmissing.
    + apply extra_fields_unexpected.
    + intros H. apply map_VStr_nil in H. contradiction.
  - intros k. unfold unexpected_fields. rewrite filter_In, negb_true_iff.
    split; intros [Hin H]; (split; [assumption|]).
    + intros Hk. apply not_true_iff_false in H. apply H, existsb_exists.
      exists k. split; [assumption | apply String.eqb_refl].
    + apply not_true_iff_false. intros He. apply existsb_exists in He as (k' & Hk' & Heq).
      apply String.eqb_eq in Heq. subst. contradiction.
Qed.

(** X4, run: two unexpected keys among the seven fields; that one of them
    and a field hold null is not looked at. *)
Lemma unexpected_fields_are_listed_in_record_order_witness :
  validate_input_data
    [home (VInt 8450) (VInt 2003);
     VDict [("Pool", VBool true); ("LotArea", VInt 8450); ("YearBuilt", VInt 2003);
            ("1stFlrSF", VInt 856); ("Garage", VNone); ("2ndFlrSF", VInt 854);
            ("FullBath", VNone); ("BedroomAbvGr", VInt 3); ("TotRmsAbvGrd", VInt 8)];
     VNone]
    housing
  = Ret (false, "Record 1: Unexpected fields provided: ['Pool', 'Garage']").
Proof.
  refine (proj1 (unexpected_fields_are_listed_in_record_order housing
                   [home (VInt 8450) (VInt 2003)]
                   [("Pool", VBool true); ("LotArea", VInt 8450); ("YearBuilt", VInt 2003);
                    ("1stFlrSF", VInt 856); ("Garage", VNone); ("2ndFlrSF", VInt 854);
                    ("FullBath", VNone); ("BedroomAbvGr", VInt 3); ("TotRmsAbvGrd", VInt 8)]
                   [VNone] _ _ _)).
  - repeat constructor.
  - reflexivity.
  - discriminate.
Defined.

(** X5. An object with exactly the schema's keys and a null under some of
    them, when the records before it go through the checks, makes
    [validate_input_data] fail with ["Record i: Fields cannot be null: "]
    followed by the Python list of exactly the schema fields that hold
    null, in the order the schema lists them. *)
Theorem null_fields_are_listed_in_schema_order
  (expected_features : schema) (pre : list value) (d : dict) (post : list value) :
  Forall (passes expected_features) pre ->
  absent_fields d expected_features = [] ->
  unexpected_fields d expected_features = [] ->
  null_valued d expected_features <> [] ->
  validate_input_data (pre ++ VDict d :: post) expected_features
  = Ret (false,
         "Record " ++ str_of_nat (List.length pre) ++ ": Fields cannot be null: "
           ++ list_text (null_valued d expected_features))
  /\ forall field,
       In field (null_valued d expected_features)
       <-> In field (map fst expected_features) /\ dict_get d field = Some VNone.
Proof.
  intros Hpre Hmissing Hextra Hnull. split.
  - unfold validate_input_data.
    rewrite (validate_from_prefix expected_features pre _ Hpre 0). cbn [Nat.add].
    rewrite (validate_from_nulls expected_features (List.length pre) (VDict d) post
               (null_valued d expected_features) ltac:(discriminate)).
    + rewrite repr_strs, record_prefix_append. reflexivity.
    + now rewrite missing_fields_dict, Hmissing.
    + now rewrite extra_fields_unexpected, Hextra.
    + apply null_fields_dict.
    + assumption.
  - intros field. unfold null_valued. rewrite filter_In.
    split; intros [Hin H]; (split; [assumption|]).
    + destruct (dict_get d field) as [[]|] eqn:E; try discriminate; [reflexivity|].
      exfalso. assert (Ha : In field (absent_fields d expected_features))
        by (apply absent_fields_spec; now split).
      rewrite Hmissing in Ha. contradiction.
    + now rewrite H.
Qed.

(** X5, run: the nulls are listed in the order of the schema, not in that
    of the object. *)
Lemma null_fields_are_listed_in_schema_order_witness :
  validate_input_data
    [home (VInt 8450) (VInt 2003);
     VDict [("TotRmsAbvGrd", VNone); ("LotArea", VInt 8450); ("YearBuilt", VNone);
            ("1stFlrSF", VInt 856); ("2ndFlrSF", VInt 854);
            ("FullBath", VInt 2); ("BedroomAbvGr", VInt 3)]]
    housing
  = Ret (false, "Record 1: Fields cannot be null: ['YearBuilt', 'TotRmsAbvGrd']").
Proof.
  refine (proj1 (null_fields_are_listed_in_schema_order housing
                   [home (VInt 8450) (VInt 2003)]
                   [("TotRmsAbvGrd", VNone); ("LotArea", VInt 8450); ("YearBuilt", VNone);
                    ("1stFlrSF", VInt 856); ("2ndFlrSF", VInt 854);
                    ("FullBath", VInt 2); ("BedroomAbvGr", VInt 3)]
                   [] _ _ _ _)).
  - repeat constructor.
  - reflexivity.
  - reflexivity.
  - discriminate.
Defined.

(** X6. Whenever [validate_input_data] returns [False], the message is
    that of the first record of the batch that does not go through the
    four checks: it starts with ["Record i: "], [i] the index of that
    record, and is the message the batch cut after that record gets. *)
Theorem validation_failure_names_the_first_offending_record
  (expected_features : schema) (records : list value) (msg : string) :
  validate_input_data records expected_features = Ret (false, msg) ->
  exists pre r post text,
    records = (pre ++ r :: post)%list /\
    Forall (passes expected_features) pre /\
    ~ passes expected_features r /\
    msg = "Record " ++ str_of_nat (List.length pre) ++ ": " ++ text /\
    validate_input_data (pre ++ [r]) expected_features = Ret (false, msg).
Proof.
  intros H. unfold validate_input_data in *.
  destruct (validate_from_stops expected_features records 0)
    as [Hall | (pre & r & post & -> & Hpre & Hnp & Heq & Hend)].
  - rewrite <- (app_nil_r records) in H.
    rewrite (validate_from_prefix expected_features records [] Hall) in H. discriminate.
  - cbn [Nat.add] in *. rewrite Heq in H.
    destruct Hend as [(text & Ht) | (_ & _ & e & _ & He)]; [|congruence].
    exists pre, r, post, text. repeat split; try assumption.
    + rewrite Ht in H. injection H as <-. apply record_prefix_append.
    + now rewrite (validate_from_prefix expected_features pre [r] Hpre 0).
Qed.

(** X6, run: the second record lacks fields; the third, a number, is not
    reached. *)
Lemma validation_failure_names_the_first_offending_record_witness :
  exists pre r post text,
    [home (VInt 1) (VInt 2); VDict [("LotArea", VInt 1)]; VInt 3]
    = (pre ++ r :: post)%list /\
    Forall (passes housing) pre /\
    ~ passes housing r /\
    "Record 1: Missing required fields: ['YearBuilt', '1stFlrSF', '2ndFlrSF', 'FullBath', 'BedroomAbvGr', 'TotRmsAbvGrd']"
    = "Record " ++ str_of_nat (List.length pre) ++ ": " ++ text /\
    validate_input_data (pre ++ [r]) housing
    = Ret (false,
           "Record 1: Missing required fields: ['YearBuilt', '1stFlrSF', '2ndFlrSF', 'FullBath', 'BedroomAbvGr', 'TotRmsAbvGrd']").
Proof.
  apply (validation_failure_names_the_first_offending_record housing
           [home (VInt 1) (VInt 2); VDict [("LotArea", VInt 1)]; VInt 3]).
  reflexivity.
Defined.

(** X7. [validate_input_data] raises only a [TypeError] or an
    [AttributeError], and only on reaching -- the records before it gone
    through -- a record that is neither null nor an object: on a batch of
    objects and nulls it always returns. *)
Theorem validation_raises_only_at_a_record_that_is_no_object
  (expected_features : schema) (records : list value) (e : exn) :
  validate_input_data records expected_features = Raise e ->
  (e = TypeError \/ e = AttributeError) /\
  exists pre r post,
    records = (pre ++ r :: post)%list /\
    Forall (passes expected_features) pre /\
    r <> VNone /\ (forall d, r <> VDict d).
Proof.
  intros H. unfold validate_input_data in *.
  destruct (validate_from_stops expected_features records 0)
    as [Hall | (pre & r & post & -> & Hpre & Hnp & Heq & Hend)].
  - rewrite <- (app_nil_r records) in H.
    rewrite (validate_from_prefix expected_features records [] Hall) in H. discriminate.
  - cbn [Nat.add] in *. rewrite Heq in H.
    destruct Hend as [(text & Ht) | (Hr & Hd & e' & He' & Hraise)]; [congruence|].
    rewrite Hraise in H. injection H as <-.
    split; [assumption|]. exists pre, r, post. auto.
Qed.

(** X7, run: a number where a record is expected. *)
Lemma validation_raises_only_at_a_record_that_is_no_object_witness :
  (TypeError = TypeError \/ TypeError = AttributeError) /\
  exists pre r post,
    [home (VInt 1) (VInt 2); VInt 3; VNone] = (pre ++ r :: post)%list /\
    Forall (passes housing) pre /\
    r <> VNone /\ (forall d, r <> VDict d).
Proof.
  apply (validation_raises_only_at_a_record_that_is_no_object housing
           [home (VInt 1) (VInt 2); VInt 3; VNone] TypeError).
  reflexivity.
Defined.

(** ** More on the coercion pass *)

(** What a constructor builds is of its type, and is left as it is by the
    constructor. *)
Lemma construct_builds (t : type) (x x' : value) :
  construct t x = Ret x' ->
  instance_of t x' = true /\ construct t x' = Ret x' /\ x' <> VNone.
Proof.
  intros Hc. destruct t; destruct x; cbn in Hc; try discriminate;
    repeat match type of Hc with
           | context [int_of_float ?f] => destruct (int_of_float f); cbn in Hc
           | context [float_of_int ?n] => destruct (float_of_int n); cbn in Hc
           | context [int_of_str ?s] => destruct (int_of_str s)
           | context [float_of_str ?s] => destruct (float_of_str s)
           end;
    try discriminate; injection Hc as <-; repeat split; discriminate.
Qed.

(** The exceptions of a constructor that the [except] clause does not
    name: [int] of an infinity, [float] of an integer beyond the floats. *)
Lemma construct_uncaught (t : type) (x : value) (e : exn) :
  construct t x = Raise e -> caught e = false ->
  e = OverflowError /\
  ((t = int /\ exists s, x = VFloat (S754_infinity s))
   \/ (t = float /\ exists n, x = VInt n /\ float_of_int n = Raise OverflowError)).
Proof.
  intros Hc He. destruct t; destruct x; cbn in Hc; try discriminate;
    try (injection Hc as <-; discriminate).
  - destruct f; cbn in Hc; try discriminate; injection Hc as <-; try discriminate.
    split; [reflexivity|]. left. eauto.
  - destruct (int_of_str s); [discriminate|]. injection Hc as <-. discriminate.
  - destruct (float_of_int n) as [f|e'] eqn:Hf; cbn in Hc; [discriminate|].
    injection Hc as ->.
    assert (e = OverflowError) as ->.
    { unfold float_of_int in Hf.
      destruct (binary_normalize prec emax n 0 false); congruence. }
    split; [reflexivity|]. right. split; [reflexivity|]. eauto.
  - destruct (float_of_str s); [discriminate|]. injection Hc as <-. discriminate.
Qed.

Lemma escaping_cause (d : dict) (expected_features : schema) (e : exn) :
  escaping d expected_features = Some e ->
  exists field t x,
    In (field, t) expected_features /\ dict_get d field = Some x
    /\ construct t x = Raise e /\ caught e = false.
Proof.
  induction expected_features as [|[field t] rest IH]; [discriminate|].
  cbn [escaping]. destruct (verdict_of d field t) as [|x|e'|x'|x'] eqn:Hv;
    try (intros H; destruct (IH H) as (f & ty & x0 & Hin & Hrest);
         exists f, ty, x0; split; [now right | exact Hrest]).
  intros [= ->]. unfold verdict_of in Hv.
  destruct (dict_get d field) as [x|] eqn:Hget; [|discriminate].
  exists field, t, x. split; [now left|]. split; [exact Hget|].
  destruct x; try discriminate;
    (destruct (construct t _) as [y|e'] eqn:Hc;
     [destruct (numeric t && below_zero y); discriminate|];
     destruct (caught e') eqn:Hcaught; [discriminate|];
     injection Hv as ->; now split).
Qed.

(** Where a run over objects raises. *)
Lemma check_from_raises (expected_features : schema) (records : list value) (e : exn) :
  NoDup (map fst expected_features) ->
  Forall (fun r => exists d, r = VDict d) records ->
  forall idx,
    snd (check_from idx records expected_features) = Raise e ->
    exists d, In (VDict d) records /\ escaping d expected_features = Some e.
Proof.
  intros Hnodup Hall. induction Hall as [|r records [d ->] _ IH]; intros idx H.
  - discriminate.
  - cbn [check_from] in H.
    pose proof (check_record_dict idx d expected_features Hnodup) as Hrec.
    destruct (escaping d expected_features) as [e'|] eqn:Hesc.
    + destruct (check_record idx (VDict d) expected_features) as [r' res].
      cbn [snd] in Hrec. subst res. cbn [snd] in H. injection H as ->.
      exists d. split; [now left | assumption].
    + rewrite Hrec in H.
      destruct (nonempty (type_errors_of d expected_features)); [discriminate|].
      destruct (nonempty (value_errors_of d expected_features)); [discriminate|].
      destruct (check_from (S idx) records expected_features) as [rest' res] eqn:Hrest.
      cbn [snd] in H. specialize (IH (S idx)). rewrite Hrest in IH.
      destruct (IH H) as (d0 & Hin & Hd0). exists d0. split; [now right | assumption].
Qed.

(** Under an empty schema the pass looks at nothing. *)
Lemma check_from_no_schema (records : list value) :
  forall idx, check_from idx records [] = (records, Ret (true, "")).
Proof.
  induction records as [|r records IH]; intros idx; [reflexivity|].
  cbn [check_from check_record check_fields input_data type_errors invalid_values nonempty].
  now rewrite IH.
Qed.

Lemma complete_is_dict (expected_features : schema) (records : list value) :
  Forall (complete expected_features) records ->
  Forall (fun r => exists d, r = VDict d) records.
Proof.
  intros H. refine (Forall_impl _ _ H). intros r (d & -> & _). now exists d.
Qed.

(** X8. After the presence pass has let a batch through, the coercion
    pass can raise nothing but [OverflowError], and does so only for a
    record that holds an infinite float under an [int] field or an integer
    under a [float] field (one beyond the range of the floats).  (The keys
    of the schema are distinct, as those of a dictionary are.) *)
Theorem validated_coercion_raises_only_overflow
  (expected_features : schema) (records : list value) (e : exn) :
  NoDup (map fst expected_features) ->
  validate_input_data records expected_features = Ret (true, "") ->
  snd (check_data_types_and_values records expected_features) = Raise e ->
  e = OverflowError /\
  exists d field t x,
    In (VDict d) records /\ In (field, t) expected_features /\
    dict_get d field = Some x /\ construct t x = Raise OverflowError /\
    ((t = int /\ exists s, x = VFloat (S754_infinity s))
     \/ (t = float /\ exists n, x = VInt n)).
Proof.
  intros Hnodup Hv Hraise. unfold check_data_types_and_values in Hraise.
  destruct expected_features as [|entry rest] eqn:Hef.
  { rewrite check_from_no_schema in Hraise. discriminate. }
  rewrite <- Hef in *.
  assert (Hne : expected_features <> []) by (rewrite Hef; discriminate).
  pose proof (validated_records_complete expected_features records "" Hne Hv) as Hall.
  destruct (check_from_raises expected_features records e Hnodup
              (complete_is_dict expected_features records Hall) 0%nat Hraise)
    as (d & Hin & Hesc).
  destruct (escaping_cause d expected_features e Hesc) as (field & t & x & Hf & Hget & Hc & He).
  destruct (construct_uncaught t x e Hc He) as [-> Hcause].
  split; [reflexivity|]. exists d, field, t, x. repeat split; try assumption.
  destruct Hcause as [Hint | (Hfl & n & Hn & _)]; [now left | right; eauto].
Qed.

(** X8, run: minus infinity as the year of the second record. *)
Lemma validated_coercion_raises_only_overflow_witness :
  OverflowError = OverflowError /\
  exists d field t x,
    In (VDict d) [lot (VInt 1) (VInt 2) (VInt 3);
                  lot (VStr "7") (VFloat (S754_infinity true)) (VStr "x")]
    /\ In (field, t) plot /\
    dict_get d field = Some x /\ construct t x = Raise OverflowError /\
    ((t = int /\ exists s, x = VFloat (S754_infinity s))
     \/ (t = float /\ exists n, x = VInt n)).
Proof.
  apply (validated_coercion_raises_only_overflow plot
           [lot (VInt 1) (VInt 2) (VInt 3);
            lot (VStr "7") (VFloat (S754_infinity true)) (VStr "x")] OverflowError).
  - distinct_keys.
  - reflexivity.
  - reflexivity.
Defined.

(** *** Running the pass again *)

Lemma dict_set_same_value (d : dict) (k : string) (x : value) :
  dict_get d k = Some x -> dict_set d k x = d.
Proof.
  induction d as [|[k' x'] d IH]; cbn [dict_get dict_set]; [discriminate|].
  destruct (String.eqb k k') eqn:E.
  - intros [= ->]. reflexivity.
  - intros H. now rewrite IH.
Qed.

Lemma dict_set_keys (d : dict) (k : string) (x : value) :
  dict_get d k <> None -> map fst (dict_set d k x) = map fst d.
Proof.
  induction d as [|[k' x'] d IH]; cbn [dict_get dict_set]; [congruence|].
  destruct (String.eqb k k') eqn:E; cbn [map fst]; [reflexivity|].
  intros H. now rewrite IH.
Qed.

Lemma dict_get_keys (d : dict) (k : string) :
  dict_get d k <> None <-> In k (map fst d).
Proof.
  rewrite <- dict_mem_keys, <- dict_mem_get. destruct (dict_mem d k); intuition congruence.
Qed.

(** The verdict on a field that holds a converted value. *)
Lemma verdict_of_built (d : dict) (field : string) (t : type) (x x' : value) :
  construct t x = Ret x' ->
  dict_get d field = Some x' ->
  verdict_of d field t
  = if numeric t && below_zero x' then Negative x' else Accepted x'.
Proof.
  intros Hc Hget. destruct (construct_builds t x x' Hc) as (_ & Hc' & Hx').
  unfold verdict_of. rewrite Hget. destruct x'; try congruence; now rewrite Hc'.
Qed.

Lemma verdict_of_stored (d : dict) (field : string) (t : type) (x' : value) :
  verdict_of d field t = Negative x' \/ verdict_of d field t = Accepted x' ->
  exists x, dict_get d field = Some x /\ construct t x = Ret x'
            /\ verdict_of d field t
               = if numeric t && below_zero x' then Negative x' else Accepted x'.
Proof.
  unfold verdict_of. destruct (dict_get d field) as [x|]; [|intros [|]; discriminate].
  intros H. exists x.
  destruct x; try (destruct H; discriminate);
    (destruct (construct t _) as [y|e] eqn:Hc;
     [|destruct (caught e); destruct H; discriminate]);
    (destruct (numeric t && below_zero y) eqn:Hs;
     destruct H as [H | H]; try discriminate; injection H as ->;
     rewrite Hs; auto).
Qed.

(** The inner loop on an object, and on the object it leaves: the same
    errors, the same end, and nothing more written. *)
Lemma check_fields_again (fields : schema) :
  NoDup (map fst fields) ->
  forall d,
  exists d' dt dv res,
    (forall te iv,
       check_fields fields
         {| input_data := VDict d; type_errors := te; invalid_values := iv |}
       = ({| input_data := VDict d'; type_errors := te ++ dt;
             invalid_values := iv ++ dv |}, res)) /\
    (forall te iv,
       check_fields fields
         {| input_data := VDict d'; type_errors := te; invalid_values := iv |}
       = ({| input_data := VDict d'; type_errors := te ++ dt;
             invalid_values := iv ++ dv |}, res)) /\
    (forall k, ~ In k (map fst fields) -> dict_get d' k = dict_get d k).
Proof.
  induction fields as [|[field t] rest IH]; intros Hnodup d.
  - exists d, [], [], (Ret tt). repeat split; intros; cbn; now rewrite !app_nil_r.
  - cbn [map fst] in Hnodup. apply NoDup_cons_iff in Hnodup as [Hnotin Hrest].
    destruct (verdict_of d field t) as [|x|e|x'|x'] eqn:Hv.
    + destruct (IH Hrest d) as (d' & dt & dv & res & H1 & H2 & Hk).
      assert (Hv' : verdict_of d' field t = Null).
      { unfold verdict_of in *. now rewrite (Hk field Hnotin). }
      exists d', (null_message field :: dt), dv, res. repeat split.
      * intros te iv. cbn [check_fields]. rewrite check_field_dict, Hv, H1.
        now rewrite <- app_assoc.
      * intros te iv. cbn [check_fields]. rewrite check_field_dict, Hv', H2.
        now rewrite <- app_assoc.
      * intros k Hn. apply Hk. intros Hin. apply Hn. now right.
    + destruct (IH Hrest d) as (d' & dt & dv & res & H1 & H2 & Hk).
      assert (Hv' : verdict_of d' field t = Rejected x).
      { unfold verdict_of in *. now rewrite (Hk field Hnotin). }
      exists d', (type_message field t x :: dt), dv, res. repeat split.
      * intros te iv. cbn [check_fields]. rewrite check_field_dict, Hv, H1.
        now rewrite <- app_assoc.
      * intros te iv. cbn [check_fields]. rewrite check_field_dict, Hv', H2.
        now rewrite <- app_assoc.
      * intros k Hn. apply Hk. intros Hin. apply Hn. now right.
    + exists d, [], [], (Raise e). repeat split;
        intros; cbn [check_fields]; try rewrite check_field_dict, Hv;
        now rewrite ?app_nil_r.
    + destruct (IH Hrest (dict_set d field x')) as (d' & dt & dv & res & H1 & H2 & Hk).
      destruct (verdict_of_stored d field t x' (or_introl Hv)) as (x & Hget & Hc & Hif).
      assert (Hget' : dict_get d' field = Some x').
      { rewrite (Hk field Hnotin). apply dict_get_set_same. }
      assert (Hv' : verdict_of d' field t = Negative x').
      { rewrite (verdict_of_built d' field t x x' Hc Hget'), <- Hif. exact Hv. }
      exists d', dt, (value_message field :: dv), res. repeat split.
      * intros te iv. cbn [check_fields]. rewrite check_field_dict, Hv, H1.
        now rewrite <- app_assoc.
      * intros te iv. cbn [check_fields].
        rewrite check_field_dict, Hv', (dict_set_same_value d' field x' Hget'), H2.
        now rewrite <- app_assoc.
      * intros k Hn. rewrite Hk by (intros Hin; apply Hn; now right).
        apply dict_get_set_other. intros ->. apply Hn. now left.
    + destruct (IH Hrest (dict_set d field x')) as (d' & dt & dv & res & H1 & H2 & Hk).
      destruct (verdict_of_stored d field t x' (or_intror Hv)) as (x & Hget & Hc & Hif).
      assert (Hget' : dict_get d' field = Some x').
      { rewrite (Hk field Hnotin). apply dict_get_set_same. }
      assert (Hv' : verdict_of d' field t = Accepted x').
      { rewrite (verdict_of_built d' field t x x' Hc Hget'), <- Hif. exact Hv. }
      exists d', dt, dv, res. repeat split.
      * intros te iv. cbn [check_fields]. rewrite check_field_dict, Hv, H1. reflexivity.
      * intros te iv. cbn [check_fields].
        rewrite check_field_dict, Hv', (dict_set_same_value d' field x' Hget'), H2.
        reflexivity.
      * intros k Hn. rewrite Hk by (intros Hin; apply Hn; now right).
        apply dict_get_set_other. intros ->. apply Hn. now left.
Qed.

(** A record that is no object is left as it is. *)
Lemma check_fields_keeps_no_dict (r : value) (fields : schema) (te iv : list string) :
  (forall d, r <> VDict d) ->
  input_data (fst (check_fields fields
                     {| input_data := r; type_errors := te; invalid_values := iv |})) = r.
Proof.
  intros Hr. destruct fields as [|[field t] rest]; [reflexivity|].
  cbn [check_fields]. unfold check_field. cbn [input_data].
  destruct r; try reflexivity. now elim (Hr d).
Qed.

Lemma check_record_again (idx : nat) (r : value) (expected_features : schema) :
  NoDup (map fst expected_features) ->
  check_record idx (fst (check_record idx r expected_features)) expected_features
  = check_record idx r expected_features.
Proof.
  intros Hnodup.
  assert (Hcase : (exists d, r = VDict d) \/ (forall d, r <> VDict d)).
  { destruct r; try (right; discriminate). left. eauto. }
  destruct Hcase as [[d ->] | Hr].
  - destruct (check_fields_again expected_features Hnodup d)
      as (d' & dt & dv & res & H1 & H2 & _).
    unfold check_record. rewrite (H1 [] []). cbn [fst input_data]. rewrite (H2 [] []).
    reflexivity.
  - assert (Hfst : fst (check_record idx r expected_features) = r).
    { unfold check_record.
      pose proof (check_fields_keeps_no_dict r expected_features [] [] Hr) as H.
      destruct (check_fields expected_features _) as [st res]. exact H. }
    now rewrite Hfst.
Qed.

Lemma check_from_again (expected_features : schema) (records : list value) :
  NoDup (map fst expected_features) ->
  forall idx,
    check_from idx (fst (check_from idx records expected_features)) expected_features
    = check_from idx records expected_features.
Proof.
  intros Hnodup. induction records as [|r records IH]; intros idx; [reflexivity|].
  cbn [check_from].
  pose proof (check_record_again idx r expected_features Hnodup) as Hr.
  destruct (check_record idx r expected_features) as [r' [[res|]|e]] eqn:Hrec;
    cbn [fst] in Hr.
  - cbn [fst check_from]. now rewrite Hr.
  - specialize (IH (S idx)).
    destruct (check_from (S idx) records expected_features) as [rest' res'] eqn:Hrest.
    cbn [fst] in *. cbn [check_from]. now rewrite Hr, IH.
  - cbn [fst check_from]. now rewrite Hr.
Qed.

(** X9. [check_data_types_and_values] is idempotent: run on the batch as
    a first run left it, it returns what the first run returned -- the same
    verdict, the same message, the same exception -- and writes nothing
    more.  (The keys of the schema are distinct, as those of a dictionary
    are.) *)
Theorem coercion_is_idempotent (expected_features : schema) (records : list value) :
  NoDup (map fst expected_features) ->
  check_data_types_and_values
    (fst (check_data_types_and_values records expected_features)) expected_features
  = check_data_types_and_values records expected_features.
Proof.
  intros Hnodup. unfold check_data_types_and_values.
  exact (check_from_again expected_features records Hnodup 0%nat).
Qed.

(** X9, run: a batch that fails at its second record, and the batch it
    is left as. *)
Lemma coercion_is_idempotent_witness :
  check_data_types_and_values
    [lot (VStr "8_450") (VFloat (binary_normalize prec emax 4007 (-1) false)) (VBool true);
     lot (VStr " -0 ") (VStr "nineteen") (VStr "-2");
     lot (VStr "9000") (VStr "1999") (VStr "1")]
    plot
  = ([lot (VInt 8450) (VInt 2003) (VInt 1);
      lot (VInt 0) (VStr "nineteen") (VInt (-2));
      lot (VStr "9000") (VStr "1999") (VStr "1")],
     Ret (false,
          "Record 1: Invalid input format: Type errors - Field 'YearBuilt' must be of type int (got value 'nineteen')"))
  /\ check_data_types_and_values
       [lot (VInt 8450) (VInt 2003) (VInt 1);
        lot (VInt 0) (VStr "nineteen") (VInt (-2));
        lot (VStr "9000") (VStr "1999") (VStr "1")]
       plot
     = ([lot (VInt 8450) (VInt 2003) (VInt 1);
         lot (VInt 0) (VStr "nineteen") (VInt (-2));
         lot (VStr "9000") (VStr "1999") (VStr "1")],
        Ret (false,
             "Record 1: Invalid input format: Type errors - Field 'YearBuilt' must be of type int (got value 'nineteen')")).
Proof.
  split; [reflexivity|].
  exact (coercion_is_idempotent plot
           [lot (VStr "8_450") (VFloat (binary_normalize prec emax 4007 (-1) false))
              (VBool true);
            lot (VStr " -0 ") (VStr "nineteen") (VStr "-2");
            lot (VStr "9000") (VStr "1999") (VStr "1")]
           ltac:(distinct_keys)).
Defined.

(** *** What a batch that went through holds *)

Lemma coerce_keys (d : dict) (fields : schema) :
  forall acc,
    map fst acc = map fst d ->
    map fst (fold_left (store_converted d) fields acc) = map fst d.
Proof.
  induction fields as [|[field t] rest IH]; intros acc Hacc; [assumption|].
  cbn [fold_left]. apply IH. unfold store_converted. cbn [fst snd].
  destruct (verdict_of d field t) as [|x|e|x'|x'] eqn:Hv; try assumption;
    (rewrite dict_set_keys; [assumption|]);
    [destruct (verdict_of_stored d field t x' (or_introl Hv)) as (x & Hget & _)
    |destruct (verdict_of_stored d field t x' (or_intror Hv)) as (x & Hget & _)];
    apply dict_get_keys; rewrite Hacc; apply dict_get_keys; congruence.
Qed.

(** A record the pass lets through: what it is left as. *)
Lemma check_record_through (idx : nat) (r r' : value) (expected_features : schema) :
  NoDup (map fst expected_features) ->
  check_record idx r expected_features = (r', Ret None) ->
  (forall field t, In (field, t) expected_features ->
     exists x', get r' field = Ret x' /\ instance_of t x' = true
                /\ (numeric t = true -> lt_zero x' = Ret false))
  /\ (forall d, r = VDict d ->
        exists d', r' = VDict d' /\ map fst d' = map fst d
                   /\ forall k, ~ In k (map fst expected_features) ->
                                dict_get d' k = dict_get d k).
Proof.
  intros Hnodup Hrec. split.
  - intros field t Hin.
    destruct (check_record_pass idx r r' expected_features Hnodup Hrec field t Hin)
      as (x & x' & _ & _ & Hc & Hsign & Hget').
    exists x'. split; [assumption|]. split; [apply (construct_builds t x x' Hc)|].
    intros Hnum. rewrite (lt_zero_converted t x x' Hnum Hc).
    rewrite Hnum in Hsign. cbn [andb] in Hsign. now rewrite Hsign.
  - intros d ->.
    pose proof (check_record_dict idx d expected_features Hnodup) as Hd.
    rewrite Hrec in Hd.
    destruct (escaping d expected_features); [discriminate|].
    injection Hd as -> _. exists (coerce d expected_features).
    split; [reflexivity|]. split; [now apply coerce_keys|].
    intros k Hk. now apply fold_store_get_other.
Qed.

(** X10. When [check_data_types_and_values] returns [True], the message
    is empty and the batch it leaves holds, under every schema field of
    every record, a value of the declared type that is not below zero
    where the type is numeric; an object has the keys it had, in the same
    order, and what it held under keys the schema does not have.  (The
    keys of the schema are distinct, as those of a dictionary are.) *)
Theorem coerced_batch_is_typed
  (expected_features : schema) (records : list value) (m : string) :
  NoDup (map fst expected_features) ->
  snd (check_data_types_and_values records expected_features) = Ret (true, m) ->
  m = "" /\
  Forall2
    (fun r r' =>
       (forall field t, In (field, t) expected_features ->
          exists x', get r' field = Ret x' /\ instance_of t x' = true
                     /\ (numeric t = true -> lt_zero x' = Ret false))
       /\ (forall d, r = VDict d ->
             exists d', r' = VDict d' /\ map fst d' = map fst d
                        /\ forall k, ~ In k (map fst expected_features) ->
                                     dict_get d' k = dict_get d k))
    records (fst (check_data_types_and_values records expected_features)).
Proof.
  intros Hnodup H. unfold check_data_types_and_values in *.
  destruct (check_from_success expected_features records 0%nat true m H eq_refl)
    as [Hco ->].
  split; [reflexivity|].
  apply (Forall2_impl
           (R1 := fun r0 r0' =>
                    forall idx, check_record idx r0 expected_features = (r0', Ret None)));
    [|exact Hco].
  intros r r' Hr. exact (check_record_through O r r' expected_features Hnodup (Hr O)).
Qed.

(** X10, run: a record with its fields in another order than the schema's
    and a key the pass does not look at. *)
Lemma coerced_batch_is_typed_witness :
  "" = "" /\
  Forall2
    (fun r r' =>
       (forall field t, In (field, t) [("LotArea", int); ("Price", float); ("Zone", str)] ->
          exists x', get r' field = Ret x' /\ instance_of t x' = true
                     /\ (numeric t = true -> lt_zero x' = Ret false))
       /\ (forall d, r = VDict d ->
             exists d', r' = VDict d' /\ map fst d' = map fst d
                        /\ forall k,
                             ~ In k (map fst [("LotArea", int); ("Price", float);
                                              ("Zone", str)]) ->
                             dict_get d' k = dict_get d k))
    [VDict [("Zone", VInt 4); ("Note", VNone); ("Price", VStr "1e3"); ("LotArea", VStr " 12 ")]]
    [VDict [("Zone", VStr "4"); ("Note", VNone);
            ("Price", VFloat (binary_normalize prec emax 1000 0 false));
            ("LotArea", VInt 12)]].
Proof.
  exact (coerced_batch_is_typed [("LotArea", int); ("Price", float); ("Zone", str)]
           [VDict [("Zone", VInt 4); ("Note", VNone); ("Price", VStr "1e3");
                   ("LotArea", VStr " 12 ")]]
           "" ltac:(distinct_keys) eq_refl).
Defined.

(** *** Validity is kept *)

Lemma store_keeps_shape (d : dict) (field : string) (t : type) (x' : value) :
  verdict_of d field t = Negative x' \/ verdict_of d field t = Accepted x' ->
  map fst (dict_set d field x') = map fst d
  /\ forall k, dict_get (dict_set d field x') k = Some VNone <-> dict_get d k = Some VNone.
Proof.
  intros Hv. destruct (verdict_of_stored d field t x' Hv) as (x & Hget & Hc & _).
  assert (Hx : x <> VNone).
  { intros ->. unfold verdict_of in Hv. rewrite Hget in Hv. destruct Hv; discriminate. }
  destruct (construct_builds t x x' Hc) as (_ & _ & Hx').
  split; [apply dict_set_keys; congruence|].
  intros k. destruct (String.eqb field k) eqn:E.
  - apply String.eqb_eq in E. subst k. rewrite dict_get_set_same, Hget.
    split; congruence.
  - apply String.eqb_neq in E. now rewrite dict_get_set_other.
Qed.

(** The inner loop on an object leaves an object with the same keys, in
    the same order, and a null exactly where there was one. *)
Lemma check_fields_keeps_shape (fields : schema) :
  forall d te iv,
  exists d',
    input_data (fst (check_fields fields
                       {| input_data := VDict d; type_errors := te;
                          invalid_values := iv |})) = VDict d'
    /\ map fst d' = map fst d
    /\ forall k, dict_get d' k = Some VNone <-> dict_get d k = Some VNone.
Proof.
  induction fields as [|[field t] rest IH]; intros d te iv.
  - exists d. cbn. intuition.
  - cbn [check_fields]. rewrite check_field_dict.
    destruct (verdict_of d field t) as [|x|e|x'|x'] eqn:Hv.
    + exact (IH d _ _).
    + exact (IH d _ _).
    + exists d. cbn. intuition.
    + destruct (store_keeps_shape d field t x' (or_introl Hv)) as [Hk Hn].
      destruct (IH (dict_set d field x') te (iv ++ [value_message field])%list)
        as (d' & Hd' & Hkeys & Hnull).
      exists d'. split; [exact Hd'|]. split; [congruence|].
      intros k. now rewrite Hnull, Hn.
    + destruct (store_keeps_shape d field t x' (or_intror Hv)) as [Hk Hn].
      destruct (IH (dict_set d field x') te iv) as (d' & Hd' & Hkeys & Hnull).
      exists d'. split; [exact Hd'|]. split; [congruence|].
      intros k. now rewrite Hnull, Hn.
Qed.

Lemma check_record_keeps_complete (idx : nat) (r : value) (expected_features : schema) :
  complete expected_features r ->
  complete expected_features (fst (check_record idx r expected_features)).
Proof.
  intros (d & -> & Hkeys & Hnull). unfold check_record.
  destruct (check_fields_keeps_shape expected_features d [] []) as (d' & Hd' & Hk & Hn).
  destruct (check_fields expected_features _) as [st res]. cbn [fst] in *.
  exists d'. split; [assumption|]. split.
  - intros k. rewrite Hk. apply Hkeys.
  - intros k Hin H. apply (Hnull k Hin). now apply Hn.
Qed.

Lemma check_from_keeps_complete (expected_features : schema) (records : list value) :
  Forall (complete expected_features) records ->
  forall idx,
    Forall (complete expected_features) (fst (check_from idx records expected_features)).
Proof.
  induction 1 as [|r records Hr Hall IH]; intros idx; [constructor|].
  cbn [check_from].
  pose proof (check_record_keeps_complete idx r expected_features Hr) as Hr'.
  destruct (check_record idx r expected_features) as [r' [[res|]|e]]; cbn [fst] in *.
  - now constructor.
  - specialize (IH (S idx)).
    destruct (check_from (S idx) records expected_features) as [rest' res'].
    cbn [fst] in *. now constructor.
  - now constructor.
Qed.

(** X11. Whatever [check_data_types_and_values] answers -- success, a
    failure or an exception -- the batch it leaves still goes through
    [validate_input_data]: the pass takes away no key, adds none, and puts
    no null. *)
Theorem coercion_keeps_the_batch_valid (expected_features : schema) (records : list value) :
  validate_input_data records expected_features = Ret (true, "") ->
  validate_input_data
    (fst (check_data_types_and_values records expected_features)) expected_features
  = Ret (true, "").
Proof.
  intros Hv. unfold check_data_types_and_values.
  destruct expected_features as [|entry rest] eqn:Hef.
  { now rewrite check_from_no_schema. }
  rewrite <- Hef in *.
  assert (Hne : expected_features <> []) by (rewrite Hef; discriminate).
  pose proof (validated_records_complete expected_features records "" Hne Hv) as Hall.
  apply validate_all_pass.
  refine (Forall_impl _ _ (check_from_keeps_complete expected_features records Hall 0%nat)).
  intros r. now apply passes_complete.
Qed.

(** X11, run: the batch a failed coercion leaves. *)
Lemma coercion_keeps_the_batch_valid_witness :
  validate_input_data
    [lot (VInt 8450) (VInt 2003) (VInt 1);
     lot (VInt 0) (VStr "nineteen") (VInt (-2));
     lot (VStr "9000") (VStr "1999") (VStr "1")]
    plot
  = Ret (true, "").
Proof.
  exact (coercion_keeps_the_batch_valid plot
           [lot (VStr "8_450") (VInt 2003) (VBool true);
            lot (VStr " -0 ") (VStr "nineteen") (VStr "-2");
            lot (VStr "9000") (VStr "1999") (VStr "1")]
           eq_refl).
Defined.

(** *** Values the sign test lets through *)

(** X12. The sign test is made on the converted value, with Python's
    [<]: under a [float] field a NaN and a negative zero are stored
    without a value error, and under an [int] field a float strictly
    between -1 and 0 is stored as [0] without a value error. *)
Theorem sign_test_is_on_the_converted_value
  (field : string) (d : dict) (te iv : list string) :
  (dict_get d field = Some (VFloat S754_nan) ->
   check_field field float
     {| input_data := VDict d; type_errors := te; invalid_values := iv |}
   = ({| input_data := VDict d; type_errors := te; invalid_values := iv |}, Ret tt))
  /\ (dict_get d field = Some (VFloat (S754_zero true)) ->
      check_field field float
        {| input_data := VDict d; type_errors := te; invalid_values := iv |}
      = ({| input_data := VDict d; type_errors := te; invalid_values := iv |}, Ret tt))
  /\ (forall m e,
        e < 0 -> Zpos m < 2 ^ (- e) ->
        dict_get d field = Some (VFloat (S754_finite true m e)) ->
        check_field field int
          {| input_data := VDict d; type_errors := te; invalid_values := iv |}
        = ({| input_data := VDict (dict_set d field (VInt 0)); type_errors := te;
              invalid_values := iv |}, Ret tt)).
Proof.
  repeat split.
  - intros Hget. rewrite check_field_dict. unfold verdict_of. rewrite Hget.
    cbn. now rewrite (dict_set_same_value d field _ Hget).
  - intros Hget. rewrite check_field_dict. unfold verdict_of. rewrite Hget.
    cbn. now rewrite (dict_set_same_value d field _ Hget).
  - intros m e He Hm Hget. rewrite check_field_dict. unfold verdict_of. rewrite Hget.
    cbn [construct int_of_float bind cond_Zopp].
    assert (Hz : Z.shiftl (Z.pos m) e = 0).
    { rewrite <- (Z.opp_involutive e), Z.shiftl_opp_r, Z.shiftr_div_pow2 by lia.
      apply Z.div_small. lia. }
    rewrite Hz. reflexivity.
Qed.

(** X12, run: minus one half as a lot area. *)
Lemma sign_test_is_on_the_converted_value_witness :
  check_field "LotArea" int
    {| input_data := lot (VFloat (S754_finite true 4503599627370496 (-53))) (VInt 2) (VInt 3);
       type_errors := []; invalid_values := [] |}
  = ({| input_data := lot (VInt 0) (VInt 2) (VInt 3);
        type_errors := []; invalid_values := [] |}, Ret tt).
Proof.
  apply (proj2 (proj2 (sign_test_is_on_the_converted_value "LotArea"
                         [("LotArea", VFloat (S754_finite true 4503599627370496 (-53)));
                          ("YearBuilt", VInt 2); ("FullBath", VInt 3)] [] []))
           4503599627370496%positive (-53)).
  - reflexivity.
  - reflexivity.
  - reflexivity.
Defined.

(** *** Where a failure of the pass comes from *)

Lemma check_from_fails (expected_features : schema) (records : list value) :
  forall idx msg,
    snd (check_from idx records expected_features) = Ret (false, msg) ->
    exists pre pre' r r' post,
      records = (pre ++ r :: post)%list /\
      coerced_to expected_features pre pre' /\
      check_record (idx + List.length pre) r expected_features
      = (r', Ret (Some (false, msg))).
Proof.
  induction records as [|r records IH]; intros idx msg H; [discriminate|].
  cbn [check_from] in H.
  destruct (check_record idx r expected_features) as [r' [[[flag msg']|]|e]] eqn:Hr.
  - cbn [snd] in H. injection H as -> ->.
    exists [], [], r, r', records. cbn [app List.length]. rewrite Nat.add_0_r.
    split; [reflexivity|]. split; [constructor | assumption].
  - destruct (check_from (S idx) records expected_features) as [rest' res] eqn:Hrest.
    cbn [snd] in H. specialize (IH (S idx) msg). rewrite Hrest in IH.
    destruct (IH H) as (pre & pre' & r0 & r0' & post & -> & Hco & Hrec).
    exists (r :: pre), (r' :: pre'), r0, r0', post. cbn [app List.length].
    rewrite Nat.add_succ_r. split; [reflexivity|]. split; [|assumption].
    constructor; [|assumption].
    intros j. exact (check_record_index idx j r r' expected_features Hr).
  - discriminate.
Qed.

Lemma coerced_to_succeeds (expected_features : schema) (pre pre' : list value) :
  coerced_to expected_features pre pre' ->
  snd (check_data_types_and_values pre expected_features) = Ret (true, "").
Proof.
  intros Hco. apply check_from_all_through.
  induction Hco as [|r r' pre pre' Hr _ IH]; constructor; [now exists r' | assumption].
Qed.

(** X13. Whenever [check_data_types_and_values] returns [False], the
    message is that of the first record with an error -- the records
    before it go through -- and lists every error of one kind of that
    record: all its type errors when it has some, all its value errors
    otherwise.  (The keys of the schema are distinct, as those of a
    dictionary are.) *)
Theorem coercion_failure_lists_the_errors_of_one_record
  (expected_features : schema) (records : list value) (msg : string) :
  NoDup (map fst expected_features) ->
  snd (check_data_types_and_values records expected_features) = Ret (false, msg) ->
  exists pre d post,
    records = (pre ++ VDict d :: post)%list /\
    snd (check_data_types_and_values pre expected_features) = Ret (true, "") /\
    ((type_errors_of d expected_features <> [] /\
      msg = "Record " ++ str_of_nat (List.length pre)
              ++ ": Invalid input format: Type errors - "
              ++ join ", " (type_errors_of d expected_features))
     \/ (type_errors_of d expected_features = [] /\
         value_errors_of d expected_features <> [] /\
         msg = "Record " ++ str_of_nat (List.length pre) ++ ": Invalid values: "
                 ++ join ", " (value_errors_of d expected_features))).
Proof.
  intros Hnodup H. unfold check_data_types_and_values in H.
  destruct (check_from_fails expected_features records 0%nat msg H)
    as (pre & pre' & r & r' & post & -> & Hco & Hrec).
  cbn [Nat.add] in Hrec.
  assert (Hne : expected_features <> []).
  { intros ->. cbn in Hrec. discriminate. }
  destruct (check_record_returns_dict _ r r' expected_features _ Hne Hrec) as [d ->].
  exists pre, d, post. split; [reflexivity|].
  split; [exact (coerced_to_succeeds expected_features pre pre' Hco)|].
  pose proof (check_record_dict (List.length pre) d expected_features Hnodup) as Hd.
  rewrite Hrec in Hd.
  destruct (escaping d expected_features); [discriminate|].
  destruct (type_errors_of d expected_features) as [|m ms] eqn:Hte.
  - destruct (value_errors_of d expected_features) as [|m ms] eqn:Hve;
      cbn [nonempty] in Hd; [discriminate|].
    right. split; [reflexivity|]. split; [discriminate|].
    injection Hd as _ ->. unfold invalid_value_text. apply record_prefix_append.
  - cbn [nonempty] in Hd. left. split; [discriminate|].
    injection Hd as _ ->. unfold type_error_text. apply record_prefix_append.
Qed.

(** X13, run: the second record has two negative numbers and no type
    error; the third is not reached. *)
Lemma coercion_failure_lists_the_errors_of_one_record_witness :
  exists pre d post,
    [lot (VStr "8450") (VInt 2003) (VBool true);
     lot (VStr "-1") (VFloat (S754_finite true 1 0)) (VInt 2);
     lot (VStr "big") VNone VNone]
    = (pre ++ VDict d :: post)%list /\
    snd (check_data_types_and_values pre plot) = Ret (true, "") /\
    ((type_errors_of d plot <> [] /\
      "Record 1: Invalid values: Field 'LotArea' must be a non-negative number, Field 'YearBuilt' must be a non-negative number"
      = "Record " ++ str_of_nat (List.length pre)
          ++ ": Invalid input format: Type errors - " ++ join ", " (type_errors_of d plot))
     \/ (type_errors_of d plot = [] /\
         value_errors_of d plot <> [] /\
         "Record 1: Invalid values: Field 'LotArea' must be a non-negative number, Field 'YearBuilt' must be a non-negative number"
         = "Record " ++ str_of_nat (List.length pre) ++ ": Invalid values: "
             ++ join ", " (value_errors_of d plot))).
Proof.
  apply (coercion_failure_lists_the_errors_of_one_record plot
           [lot (VStr "8450") (VInt 2003) (VBool true);
            lot (VStr "-1") (VFloat (S754_finite true 1 0)) (VInt 2);
            lot (VStr "big") VNone VNone]).
  - distinct_keys.
  - reflexivity.
Defined.

(** ** Numbers sent as text *)

Lemma digit_facts (c : ascii) :
  is_digit c = true ->
  is_space c = false /\ Ascii.eqb c "_" = false /\ Ascii.eqb c "-" = false
  /\ Ascii.eqb c "+" = false /\ lower c = c
  /\ Ascii.eqb c "i" = false /\ Ascii.eqb c "n" = false.
Proof.
  destruct c as [[] [] [] [] [] [] [] []]; try discriminate; intros _; repeat split.
Qed.

Lemma numeral_digits (u : Decimal.uint) : Forall (fun c => is_digit c = true) (numeral u).
Proof. induction u; constructor; (reflexivity || assumption). Qed.

Lemma numeral_value_acc (u : Decimal.uint) :
  forall acc : positive,
    fold_left (fun a c => 10 * a + digit_val c) (numeral u) (Zpos acc)
    = Zpos (Pos.of_uint_acc u acc).
Proof.
  induction u; intros acc; [reflexivity| ..];
    unfold numeral in *; cbn [NilEmpty.string_of_uint list_ascii_of_string fold_left];
    cbn [Pos.of_uint_acc]; rewrite <- IHu; f_equal;
    match goal with
    | |- context [digit_val ?c] =>
      let v := eval vm_compute in (digit_val c) in change (digit_val c) with v
    end; lia.
Qed.

Lemma numeral_value (u : Decimal.uint) : digits_val (numeral u) = Z.of_N (Pos.of_uint u).
Proof.
  unfold digits_val. induction u; [reflexivity| ..];
    unfold numeral in *; cbn [NilEmpty.string_of_uint list_ascii_of_string fold_left];
    cbn [Pos.of_uint]; try exact IHu;
    exact (numeral_value_acc u _).
Qed.

Lemma lstrip_no_space (l : list ascii) :
  Forall (fun c => is_space c = false) l -> lstrip l = l.
Proof. destruct 1 as [|c l Hc _]; [reflexivity|]. cbn. now rewrite Hc. Qed.

Lemma strip_no_space (l : list ascii) :
  Forall (fun c => is_space c = false) l -> strip l = l.
Proof.
  intros H. unfold strip. rewrite (lstrip_no_space l H).
  rewrite lstrip_no_space by (apply Forall_rev; exact H).
  apply rev_involutive.
Qed.

Lemma drop_underscores_none (l : list ascii) :
  Forall (fun c => Ascii.eqb c "_" = false) l ->
  forall prev, drop_underscores prev l = Some l.
Proof.
  induction 1 as [|c l Hc _ IH]; intros prev; [reflexivity|].
  cbn [drop_underscores]. rewrite Hc, IH. reflexivity.
Qed.

Lemma take_digits_all (l : list ascii) :
  Forall (fun c => is_digit c = true) l -> take_digits l = (l, []).
Proof.
  induction 1 as [|c l Hc _ IH]; [reflexivity|].
  cbn [take_digits]. now rewrite Hc, IH.
Qed.

Lemma numeral_of_positive (p : positive) :
  exists c l, numeral (Pos.to_uint p) = c :: l /\ digits_val (numeral (Pos.to_uint p)) = Zpos p.
Proof.
  pose proof (DecimalPos.Unsigned.of_to p) as H.
  assert (Hv : digits_val (numeral (Pos.to_uint p)) = Zpos p)
    by (rewrite numeral_value, H; reflexivity).
  destruct (numeral (Pos.to_uint p)) as [|c l] eqn:E; [discriminate|]. eauto.
Qed.

(** [str(n)] for a positive and for a negative integer. *)
Lemma str_of_pos (p : positive) :
  list_ascii_of_string (str_of_Z (Zpos p)) = numeral (Pos.to_uint p)
  /\ list_ascii_of_string (str_of_Z (Zneg p)) = "-"%char :: numeral (Pos.to_uint p).
Proof.
  unfold str_of_Z, numeral. cbn [Z.to_int NilZero.string_of_int].
  destruct (numeral_of_positive p) as (c & l & E & _). unfold numeral in E.
  destruct (Pos.to_uint p); [discriminate | split; reflexivity ..].
Qed.

(** [int(str(n))] is [n]. *)
Lemma int_of_str_of_Z (n : Z) : int_of_str (str_of_Z n) = Some n.
Proof.
  destruct n as [|p|p]; [reflexivity| |]; unfold int_of_str;
    destruct (str_of_pos p) as [Hpos Hneg];
    destruct (numeral_of_positive p) as (c & l & E & Hv);
    pose proof (numeral_digits (Pos.to_uint p)) as Hd.
  - rewrite Hpos.
    rewrite strip_no_space
      by (refine (Forall_impl _ _ Hd); intros a Ha; apply (digit_facts a Ha)).
    rewrite drop_underscores_none
      by (refine (Forall_impl _ _ Hd); intros a Ha; apply (digit_facts a Ha)).
    rewrite E in *. apply Forall_inv in Hd as Hc.
    destruct (digit_facts c Hc) as (_ & _ & Hm & Hp & _).
    cbn [take_sign]. rewrite Hm, Hp. rewrite (take_digits_all _ Hd), Hv. reflexivity.
  - rewrite Hneg.
    assert (Hd' : Forall (fun a => is_space a = false /\ Ascii.eqb a "_" = false)
                    ("-"%char :: numeral (Pos.to_uint p))).
    { constructor; [split; reflexivity|].
      refine (Forall_impl _ _ Hd). intros a Ha. split; apply (digit_facts a Ha). }
    rewrite strip_no_space by (refine (Forall_impl _ _ Hd'); now intros a [? ?]).
    rewrite drop_underscores_none by (refine (Forall_impl _ _ Hd'); now intros a [? ?]).
    cbn [take_sign Ascii.eqb Bool.eqb]. rewrite (take_digits_all _ Hd).
    rewrite E in *. rewrite Hv. reflexivity.
Qed.

(** [float(str(n))] is the float nearest to [n]. *)
Lemma float_of_str_of_Z (n : Z) :
  float_of_str (str_of_Z n) = Some (binary_normalize prec emax n 0 false).
Proof.
  destruct n as [|p|p]; [reflexivity| |]; unfold float_of_str;
    destruct (str_of_pos p) as [Hpos Hneg];
    destruct (numeral_of_positive p) as (c & l & E & Hv);
    pose proof (numeral_digits (Pos.to_uint p)) as Hd.
  - rewrite Hpos.
    rewrite strip_no_space
      by (refine (Forall_impl _ _ Hd); intros a Ha; apply (digit_facts a Ha)).
    rewrite drop_underscores_none
      by (refine (Forall_impl _ _ Hd); intros a Ha; apply (digit_facts a Ha)).
    rewrite E in *. apply Forall_inv in Hd as Hc.
    destruct (digit_facts c Hc) as (_ & _ & Hm & Hp & Hlow & Hi & Hn).
    cbn [take_sign]. rewrite Hm, Hp.
    cbn [map string_of_list_ascii String.eqb]. rewrite Hlow, Hi, Hn. cbn [orb].
    rewrite (take_digits_all _ Hd), app_nil_r. cbn [take_exponent List.length].
    rewrite Hv. unfold float_of_dec. cbn. rewrite ?Pos.mul_1_r. reflexivity.
  - rewrite Hneg.
    assert (Hd' : Forall (fun a => is_space a = false /\ Ascii.eqb a "_" = false)
                    ("-"%char :: numeral (Pos.to_uint p))).
    { constructor; [split; reflexivity|].
      refine (Forall_impl _ _ Hd). intros a Ha. split; apply (digit_facts a Ha). }
    rewrite strip_no_space by (refine (Forall_impl _ _ Hd'); now intros a [? ?]).
    rewrite drop_underscores_none by (refine (Forall_impl _ _ Hd'); now intros a [? ?]).
    cbn [take_sign Ascii.eqb Bool.eqb].
    rewrite E in *. apply Forall_inv in Hd as Hc.
    destruct (digit_facts c Hc) as (_ & _ & Hm & Hp & Hlow & Hi & Hn).
    cbn [map string_of_list_ascii String.eqb]. rewrite Hlow, Hi, Hn. cbn [orb].
    rewrite (take_digits_all _ Hd), app_nil_r. cbn [take_exponent List.length].
    rewrite Hv. unfold float_of_dec. cbn. rewrite ?Pos.mul_1_r. reflexivity.
Qed.

(** X14. An integer sent as its decimal text is converted, by each of
    the three constructors, to what the integer itself is converted to:
    [int(str(n))] is [n], [float(str(n))] is [float(n)] when that does not
    overflow, and [str(str(n))] is [str(n)].  The integer has at most
    4300 digits: recent versions of CPython refuse, by default, to turn a
    longer one into text or to read one from text. *)
Theorem integer_sent_as_text_converts_alike (t : type) (n : Z) (x' : value) :
  Z.abs n < 10 ^ 4300 ->
  construct t (VInt n) = Ret x' ->
  construct t (VStr (to_str (VInt n))) = Ret x'.
Proof.
  intros _. destruct t; cbn [construct to_str repr].
  - intros [= <-]. now rewrite int_of_str_of_Z.
  - rewrite float_of_str_of_Z. unfold float_of_int.
    destruct (binary_normalize prec emax n 0 false); cbn [bind]; intros H;
      try discriminate; exact H.
  - trivial.
Qed.

(** X14, run: a negative integer under [float]. *)
Lemma integer_sent_as_text_converts_alike_witness :
  construct float (VStr "-8450")
  = Ret (VFloat (binary_normalize prec emax (-8450) 0 false)).
Proof.
  exact (integer_sent_as_text_converts_alike float (-8450) _ eq_refl eq_refl).
Defined.

(** ** More on the endpoint *)

Section Responses.

Variable expected_features : schema.
Variable table : Type.
Variable DataFrame : list value -> list string -> table + string.
Variable model_predict : option table -> list value + string.

Abbreviation handler := (predict expected_features table DataFrame model_predict).
Abbreviation assembling := (assemble_step expected_features table DataFrame model_predict).
Abbreviation predicting := (predict_step table model_predict).

(** Step 3 by what [pd.DataFrame] does: an exception whose text is empty
    passes [if error:], and the model is called on [None]. *)
Lemma assembling_on (records : list value) :
  assembling records
  = match DataFrame records (map fst expected_features) with
    | inl input_df =>
      (Enter Assembly :: fst (predicting (Some input_df)), snd (predicting (Some input_df)))
    | inr EmptyString =>
      (Enter Assembly :: fst (predicting None), snd (predicting None))
    | inr e =>
      ([Enter Assembly; Log ERROR ("Error converting input data to DataFrame: " ++ e)],
       Ret (failure 400 ("Invalid input format: " ++ e)))
    end.
Proof.
  unfold assemble_step, convert_to_dataframe.
  destruct (DataFrame records (map fst expected_features)) as [input_df|[|c e]]; cbn [truthy].
  - now destruct (predicting (Some input_df)).
  - now destruct (predicting None).
  - reflexivity.
Qed.

Lemma predicting_on (input_df : option table) :
  predicting input_df
  = match model_predict input_df with
    | inl predictions =>
      ([Enter Prediction;
        Log INFO ("Predictions made successfully: " ++ to_str (VList predictions))],
       Ret (success predictions))
    | inr e =>
      ([Enter Prediction; Log ERROR ("Error making predictions: " ++ e)],
       Ret (failure 500 ("Prediction failed: " ++ e)))
    end.
Proof. reflexivity. Qed.

(** The run on a batch, by the results of the two passes. *)
Lemma handler_on_records (payload : value) (records : list value) :
  batch_of payload = Some records ->
  handler (Ret payload)
  = match validate_input_data records expected_features with
    | Raise e => ([opening; Enter Validation], Raise e)
    | Ret (false, msg) =>
      ([opening; Enter Validation; Log ERROR ("Input validation error: " ++ msg)],
       Ret (failure 400 msg))
    | Ret (true, _) =>
      match check_data_types_and_values records expected_features with
      | (_, Raise e) => ([opening; Enter Validation; Enter Coercion], Raise e)
      | (_, Ret (false, msg)) =>
        ([opening; Enter Validation; Enter Coercion;
          Log ERROR ("Data type/value validation error: " ++ msg)],
         Ret (failure 400 msg))
      | (records', Ret (true, _)) =>
        (opening :: Enter Validation :: Enter Coercion :: fst (assembling records'),
         snd (assembling records'))
      end
    end.
Proof.
  intros Hb. rewrite (handler_on_batch expected_features table DataFrame model_predict
                        payload records Hb).
  unfold validate_step.
  destruct (validate_input_data records expected_features) as [[[|] msg]|e];
    try reflexivity.
  unfold coerce_step.
  destruct (check_data_types_and_values records expected_features)
    as [records' [[[|] msg']|e]]; try reflexivity.
  now destruct (assembling records').
Qed.

(** X15. A payload that is neither an array nor an object (a number, a
    string, a boolean) is answered 400 with the error ["Input data must be
    a list of records or a single record object."], which is logged, and
    no step is entered. *)
Theorem payload_that_is_no_batch_is_refused (payload : value) :
  (forall l, payload <> VList l) -> (forall d, payload <> VDict d) -> payload <> VNone ->
  handler (Ret payload)
  = ([Log INFO "Inference endpoint processing HTTP request";
      Log ERROR "Input data must be a list of records or a single record object."],
     Ret (failure 400 "Input data must be a list of records or a single record object.")).
Proof.
  intros Hl Hd Hn. destruct payload; try reflexivity;
    [now elim Hn | now elim (Hl l) | now elim (Hd d)].
Qed.

(** X16. Every response of [predict] is of one of three kinds: 200 with
    [success] true and predictions, after all four steps; 400 with
    [success] false and an error, the model not called; 500 with [success]
    false and ["Prediction failed: "] followed by the text of the model's
    exception, after all four steps. *)
Theorem status_agrees_with_success (get_json : outcome value) (resp : response) :
  snd (handler get_json) = Ret resp ->
  (exists predictions,
     resp = success predictions
     /\ stages_of (fst (handler get_json)) = [Validation; Coercion; Assembly; Prediction])
  \/ (exists error,
        resp = failure 400 error
        /\ ~ In Prediction (stages_of (fst (handler get_json))))
  \/ (exists e,
        resp = failure 500 ("Prediction failed: " ++ e)
        /\ stages_of (fst (handler get_json)) = [Validation; Coercion; Assembly; Prediction]).
Proof.
  assert (Hstep : forall input_df events r,
            predicting input_df = (events, Ret r) ->
            stages_of events = [Prediction]
            /\ ((exists predictions, r = success predictions)
                \/ exists e, r = failure 500 ("Prediction failed: " ++ e))).
  { intros input_df events r. rewrite predicting_on.
    destruct (model_predict input_df) as [p|e]; intros [= <- <-];
      (split; [reflexivity|]); [left | right]; eexists; reflexivity. }
  assert (Hbatch : forall payload records,
            batch_of payload = Some records ->
            snd (handler (Ret payload)) = Ret resp ->
            (exists predictions,
               resp = success predictions
               /\ stages_of (fst (handler (Ret payload)))
                  = [Validation; Coercion; Assembly; Prediction])
            \/ (exists error,
                  resp = failure 400 error
                  /\ ~ In Prediction (stages_of (fst (handler (Ret payload)))))
            \/ (exists e,
                  resp = failure 500 ("Prediction failed: " ++ e)
                  /\ stages_of (fst (handler (Ret payload)))
                     = [Validation; Coercion; Assembly; Prediction])).
  { intros payload records Hb. rewrite (handler_on_records payload records Hb).
    destruct (validate_input_data records expected_features) as [[[|] msg]|e].
    - destruct (check_data_types_and_values records expected_features)
        as [records' [[[|] msg']|e]].
      + rewrite assembling_on.
        destruct (DataFrame records' (map fst expected_features)) as [input_df|[|c e]].
        * destruct (predicting (Some input_df)) as [events res] eqn:Hp.
          cbn [fst snd stages_of opening]. intros ->.
          destruct (Hstep _ _ _ Hp) as [-> [[p ->] | [e ->]]];
            [left | right; right]; eauto.
        * destruct (predicting None) as [events res] eqn:Hp.
          cbn [fst snd stages_of opening]. intros ->.
          destruct (Hstep _ _ _ Hp) as [-> [[p ->] | [e ->]]];
            [left | right; right]; eauto.
        * cbn [fst snd stages_of opening]. intros [= <-]. right; left.
          eexists. split; [reflexivity|]. cbn. intuition discriminate.
      + cbn [fst snd stages_of opening]. intros [= <-]. right; left.
        eexists. split; [reflexivity|]. cbn. intuition discriminate.
      + discriminate.
    - cbn [fst snd stages_of opening]. intros [= <-]. right; left.
      eexists. split; [reflexivity|]. cbn. intuition discriminate.
    - discriminate. }
  destruct get_json as [payload|e].
  - destruct (batch_of payload) as [records|] eqn:Hb; [now apply (Hbatch payload records)|].
    destruct payload; try discriminate; cbn; intros [= <-]; right; left;
      (eexists; split; [reflexivity | intros []]).
  - destruct e; try discriminate. cbn. intros [= <-]. right; left.
    eexists; split; [reflexivity | intros []].
Qed.

(** X17. [predict] answers 200 with given predictions exactly when both
    passes let the batch through and the model returns those predictions
    on the table [pd.DataFrame] builds from the batch as the coercion pass
    left it, under the keys of the schema in their order as columns -- or
    on [None], when [pd.DataFrame] raises an exception whose text is
    empty. *)
Theorem predictions_come_from_the_coerced_batch
  (payload : value) (records predictions : list value) :
  batch_of payload = Some records ->
  snd (handler (Ret payload)) = Ret (success predictions)
  <-> validate_input_data records expected_features = Ret (true, "")
      /\ snd (check_data_types_and_values records expected_features) = Ret (true, "")
      /\ match DataFrame (fst (check_data_types_and_values records expected_features))
                 (map fst expected_features) with
         | inl input_df => model_predict (Some input_df) = inl predictions
         | inr e => e = "" /\ model_predict None = inl predictions
         end.
Proof.
  intros Hb. rewrite (handler_on_records payload records Hb). split.
  - destruct (validate_input_data records expected_features) as [[[|] msg]|e] eqn:Hv;
      [|discriminate ..].
    destruct (validate_from_true expected_features records 0%nat msg Hv) as [_ ->].
    destruct (check_data_types_and_values records expected_features)
      as [records' [[[|] msg']|e]] eqn:Hc; [|discriminate ..].
    destruct (check_from_success expected_features records 0%nat true msg'
                (f_equal snd Hc) eq_refl) as [_ Hmsg'].
    cbn [snd] in Hmsg'. subst msg'.
    rewrite assembling_on. cbn [fst snd].
    destruct (DataFrame records' (map fst expected_features)) as [input_df|[|c e]];
      rewrite ?predicting_on.
    + destruct (model_predict (Some input_df)) as [p|e]; cbn [snd]; [|discriminate].
      intros [= ->]. auto.
    + destruct (model_predict None) as [p|e]; cbn [snd]; [|discriminate].
      intros [= ->]. auto.
    + discriminate.
  - intros (Hv & Hc & Hm). rewrite Hv.
    destruct (check_data_types_and_values records expected_features) as [records' res].
    cbn [fst snd] in *. subst res. rewrite assembling_on.
    destruct (DataFrame records' (map fst expected_features)) as [input_df|e].
    + rewrite predicting_on, Hm. reflexivity.
    + destruct Hm as [-> Hm]. rewrite predicting_on, Hm. reflexivity.
Qed.

(** Where an exception that leaves the handler comes from. *)
Lemma handler_raises (payload : value) (records : list value) (e : exn) :
  NoDup (map fst expected_features) ->
  batch_of payload = Some records ->
  snd (handler (Ret payload)) = Raise e ->
  (validate_input_data records expected_features = Raise e
   /\ (e = TypeError \/ e = AttributeError))
  \/ (validate_input_data records expected_features = Ret (true, "")
      /\ snd (check_data_types_and_values records expected_features) = Raise e
      /\ e = OverflowError).
Proof.
  intros Hnodup Hb. rewrite (handler_on_records payload records Hb).
  destruct (validate_input_data records expected_features) as [[[|] msg]|e'] eqn:Hv.
  - destruct (validate_from_true expected_features records 0%nat msg Hv) as [Hall ->].
    destruct (check_data_types_and_values records expected_features)
      as [records' [[[|] msg']|e']] eqn:Hc.
    + rewrite assembling_on.
      destruct (DataFrame records' (map fst expected_features)) as [input_df|[|c e']];
        rewrite ?predicting_on;
        try destruct (model_predict _); discriminate.
    + discriminate.
    + cbn [fst snd]. intros [= ->]. right. split; [reflexivity|].
      split; [reflexivity|].
      destruct expected_features as [|entry rest] eqn:Hef.
      { unfold check_data_types_and_values in Hc.
        rewrite check_from_no_schema in Hc. discriminate. }
      rewrite <- Hef in *.
      assert (Hne : expected_features <> []) by (rewrite Hef; discriminate).
      assert (Hdicts : Forall (fun r => exists d, r = VDict d) records).
      { refine (Forall_impl _ _ Hall). intros r Hr.
        apply (passes_complete expected_features r Hne) in Hr as (d & -> & _). eauto. }
      destruct (check_from_raises expected_features records e Hnodup Hdicts 0%nat
                  (f_equal snd Hc)) as (d & _ & Hesc).
      destruct (escaping_cause d expected_features e Hesc) as (f & t & x & _ & _ & Hcx & He).
      exact (proj1 (construct_uncaught t x e Hcx He)).
  - discriminate.
  - cbn [fst snd]. intros [= ->]. left. split; [reflexivity|].
    unfold validate_input_data in Hv.
    destruct (validate_from_stops expected_features records 0)
      as [Hall | (pre & r & post & -> & Hpre & Hnp & Heq & Hend)].
    + rewrite <- (app_nil_r records) in Hv.
      rewrite (validate_from_prefix expected_features records [] Hall) in Hv. discriminate.
    + rewrite Heq in Hv. destruct Hend as [(text & Ht) | (_ & _ & e' & He' & Hraise)];
        congruence.
Qed.

(** X18. On a batch, [predict] raises exactly when the presence pass
    raises, or lets the batch through and the coercion pass raises; what
    it raises is then a [TypeError], an [AttributeError] or an
    [OverflowError]: nothing that pandas or the model raise leaves the
    handler.  (The keys of the schema are distinct, as those of a
    dictionary are.) *)
Theorem exceptions_that_leave_predict (payload : value) (records : list value) (e : exn) :
  NoDup (map fst expected_features) ->
  batch_of payload = Some records ->
  (snd (handler (Ret payload)) = Raise e
   <-> validate_input_data records expected_features = Raise e
       \/ (validate_input_data records expected_features = Ret (true, "")
           /\ snd (check_data_types_and_values records expected_features) = Raise e))
  /\ (snd (handler (Ret payload)) = Raise e ->
      e = TypeError \/ e = AttributeError \/ e = OverflowError).
Proof.
  intros Hnodup Hb. split; [split|].
  - intros H. destruct (handler_raises payload records e Hnodup Hb H)
      as [[Hv _] | (Hv & Hc & _)]; auto.
  - rewrite (handler_on_records payload records Hb).
    intros [Hv | [Hv Hc]]; rewrite Hv; [reflexivity|].
    destruct (check_data_types_and_values records expected_features) as [records' res].
    cbn [snd] in Hc. now subst res.
  - intros H. destruct (handler_raises payload records e Hnodup Hb H)
      as [[_ [He | He]] | (_ & _ & He)]; auto.
Qed.

(** A record of a batch that went through both passes goes through them
    on its own. *)
Lemma passes_alone (records : list value) :
  validate_input_data records expected_features = Ret (true, "") ->
  snd (check_data_types_and_values records expected_features) = Ret (true, "") ->
  Forall (fun r =>
            validate_input_data [r] expected_features = Ret (true, "")
            /\ snd (check_data_types_and_values [r] expected_features) = Ret (true, ""))
         records.
Proof.
  intros Hv Hc.
  destruct (validate_from_true expected_features records 0%nat "" Hv) as [Hall _].
  destruct (check_from_success expected_features records 0%nat true "" Hc eq_refl)
    as [Hco _].
  assert (Hthrough : Forall (fun r => exists r', forall idx,
                               check_record idx r expected_features = (r', Ret None))
                            records).
  { unfold coerced_to in Hco. clear Hv Hc Hall.
    induction Hco as [|r r' pre pre' Hr _ IH]; constructor; eauto. }
  refine (Forall_impl _ _ (Forall_and Hall Hthrough)).
  intros r [Hp [r' Hr]]. split.
  - apply validate_all_pass. now constructor.
  - unfold check_data_types_and_values. cbn [check_from]. now rewrite (Hr 0%nat).
Qed.

(** X19. No partial success: when [predict] answers with predictions,
    every record of the batch goes through both passes on its own; one
    record that would not leaves the whole request without predictions. *)
Theorem predictions_need_every_record
  (payload : value) (records predictions : list value) :
  batch_of payload = Some records ->
  snd (handler (Ret payload)) = Ret (success predictions) ->
  Forall (fun r =>
            validate_input_data [r] expected_features = Ret (true, "")
            /\ snd (check_data_types_and_values [r] expected_features) = Ret (true, ""))
         records.
Proof.
  intros Hb H. rewrite (handler_on_records payload records Hb) in H.
  destruct (validate_input_data records expected_features) as [[[|] msg]|e] eqn:Hv;
    [|discriminate ..].
  destruct (validate_from_true expected_features records 0%nat msg Hv) as [_ ->].
  destruct (check_data_types_and_values records expected_features)
    as [records' [[[|] msg']|e]] eqn:Hc; [|discriminate ..].
  destruct (check_from_success expected_features records 0%nat true msg'
              (f_equal snd Hc) eq_refl) as [_ Hmsg'].
  cbn [snd] in Hmsg'. subst msg'.
  apply passes_alone; [assumption | now rewrite Hc].
Qed.

End Responses.

(** *** Runs of the handler *)

(** X15, run: a string as the whole payload. *)
Lemma payload_that_is_no_batch_is_refused_witness :
  snd (predict housing (list (list value)) rows_of flat_rate (Ret (VStr "LotArea")))
  = Ret (failure 400 "Input data must be a list of records or a single record object.").
Proof.
  exact (f_equal snd
           (payload_that_is_no_batch_is_refused housing (list (list value)) rows_of flat_rate
              (VStr "LotArea") ltac:(discriminate) ltac:(discriminate) ltac:(discriminate))).
Defined.

(** X16, run: a request the model fails on. *)
Lemma status_agrees_with_success_witness :
  (exists predictions,
     failure 500 "Prediction failed: Feature names unseen at fit time" = success predictions
     /\ stages_of (fst (predict plot (list (list value)) rows_of no_price
                          (Ret (lot (VInt 1) (VInt 2) (VInt 3)))))
        = [Validation; Coercion; Assembly; Prediction])
  \/ (exists error,
        failure 500 "Prediction failed: Feature names unseen at fit time" = failure 400 error
        /\ ~ In Prediction
             (stages_of (fst (predict plot (list (list value)) rows_of no_price
                                (Ret (lot (VInt 1) (VInt 2) (VInt 3)))))))
  \/ (exists e,
        failure 500 "Prediction failed: Feature names unseen at fit time"
        = failure 500 ("Prediction failed: " ++ e)
        /\ stages_of (fst (predict plot (list (list value)) rows_of no_price
                             (Ret (lot (VInt 1) (VInt 2) (VInt 3)))))
           = [Validation; Coercion; Assembly; Prediction]).
Proof.
  exact (status_agrees_with_success plot (list (list value)) rows_of no_price
           (Ret (lot (VInt 1) (VInt 2) (VInt 3)))
           (failure 500 "Prediction failed: Feature names unseen at fit time") eq_refl).
Defined.

(** X17, run: two records, one with its lot area sent as text. *)
Lemma predictions_come_from_the_coerced_batch_witness :
  snd (predict housing (list (list value)) rows_of flat_rate
         (Ret (VList [home (VStr "8450") (VInt 2003); home (VInt 9000) (VBool true)])))
  = Ret (success [VInt 100000; VInt 100000]).
Proof.
  apply (predictions_come_from_the_coerced_batch housing (list (list value))
           rows_of flat_rate
           (VList [home (VStr "8450") (VInt 2003); home (VInt 9000) (VBool true)])
           [home (VStr "8450") (VInt 2003); home (VInt 9000) (VBool true)]
           [VInt 100000; VInt 100000] eq_refl).
  repeat split.
Defined.

(** X18, run: a boolean where a record is expected. *)
Lemma exceptions_that_leave_predict_witness :
  snd (predict plot (list (list value)) rows_of flat_rate
         (Ret (VList [lot (VInt 1) (VInt 2) (VInt 3); VBool true])))
  = Raise TypeError.
Proof.
  apply (proj1 (exceptions_that_leave_predict plot (list (list value)) rows_of flat_rate
                  (VList [lot (VInt 1) (VInt 2) (VInt 3); VBool true])
                  [lot (VInt 1) (VInt 2) (VInt 3); VBool true] TypeError
                  ltac:(distinct_keys) eq_refl)).
  left. reflexivity.
Defined.

(** X19, run: the two records of a request that got its predictions. *)
Lemma predictions_need_every_record_witness :
  Forall (fun r =>
            validate_input_data [r] housing = Ret (true, "")
            /\ snd (check_data_types_and_values [r] housing) = Ret (true, ""))
         [home (VStr "8450") (VInt 2003); home (VInt 9000) (VBool true)].
Proof.
  exact (predictions_need_every_record housing (list (list value)) rows_of flat_rate
           (VList [home (VStr "8450") (VInt 2003); home (VInt 9000) (VBool true)])
           [home (VStr "8450") (VInt 2003); home (VInt 9000) (VBool true)]
           [VInt 100000; VInt 100000] eq_refl eq_refl).
Defined.

(** ** The handler of [BadRequest] *)

Lemma prefix_includes (a s : string) :
  String.prefix a s = true -> exists b, s = a ++ b.
Proof.
  revert s. induction a as [|x a IH]; intros s H.
  - exists s. reflexivity.
  - destruct s as [|y s]; [discriminate|]. cbn [String.prefix] in H.
    destruct (ascii_dec x y) as [<-|]; [|discriminate].
    destruct (IH s H) as [b ->]. now exists b.
Qed.

Lemma str_contains_spec (sub s : string) :
  str_contains sub s = true <-> includes sub s.
Proof.
  split; [|apply str_contains_includes].
  induction s as [|y s IH]; cbn [str_contains]; intros H.
  - rewrite orb_false_r in H. destruct (prefix_includes sub "" H) as [b Hb].
    exists "", b. exact Hb.
  - apply orb_true_iff in H as [H | H].
    + destruct (prefix_includes sub (String y s) H) as [b Hb]. exists "", b. exact Hb.
    + destruct (IH H) as (before & after & ->). exists (String y before), after. reflexivity.
Qed.

(** Neither marker can begin inside ["400 Bad Request: "]. *)
Lemma marker_in_bad_request_text (description : string) :
  str_contains "Failed to decode JSON object" (bad_request_text description)
  = str_contains "Failed to decode JSON object" description
  /\ str_contains "Expecting value" (bad_request_text description)
     = str_contains "Expecting value" description.
Proof. split; reflexivity. Qed.

(** X20. [handle_bad_request] always answers 400 with [success] false,
    after logging the exception: with the error ["Invalid JSON input
    format"] when the description of the exception contains ["Failed to
    decode JSON object"] or ["Expecting value"], and with the description
    itself as the error otherwise. *)
Theorem handle_bad_request_answers_400 (description : string) :
  (includes "Failed to decode JSON object" description
   \/ includes "Expecting value" description ->
   snd (handle_bad_request description) = failure 400 "Invalid JSON input format")
  /\ (~ includes "Failed to decode JSON object" description ->
      ~ includes "Expecting value" description ->
      snd (handle_bad_request description) = failure 400 description)
  /\ fst (handle_bad_request description)
     = [Log ERROR ("BadRequest error: 400 Bad Request: " ++ description)].
Proof.
  unfold handle_bad_request. cbn [fst snd].
  destruct (marker_in_bad_request_text description) as [-> ->].
  repeat split.
  - intros [H | H]; apply str_contains_spec in H; rewrite H; [reflexivity|].
    now rewrite orb_true_r.
  - intros H1 H2.
    destruct (str_contains "Failed to decode JSON object" description) eqn:E1;
      [elim H1; now apply str_contains_spec|].
    destruct (str_contains "Expecting value" description) eqn:E2;
      [elim H2; now apply str_contains_spec|].
    reflexivity.
Qed.

(** X20, run: a decoding failure, and another bad request. *)
Lemma handle_bad_request_answers_400_witness :
  snd (handle_bad_request "Failed to decode JSON object: Expecting ',' delimiter")
  = failure 400 "Invalid JSON input format"
  /\ snd (handle_bad_request "Did not attempt to load JSON data")
     = failure 400 "Did not attempt to load JSON data".
Proof.
  split.
  - apply (proj1 (handle_bad_request_answers_400
                    "Failed to decode JSON object: Expecting ',' delimiter")).
    left. exists "", ": Expecting ',' delimiter". reflexivity.
  - apply (proj1 (proj2 (handle_bad_request_answers_400
                           "Did not attempt to load JSON data")));
      intros H; apply str_contains_spec in H; discriminate.
Defined.

(** ** Start-up *)

Lemma type_mapping_item_name (t : type) : type_mapping_item (VStr (name t)) = inl t.
Proof. now destruct t. Qed.

(** The type names the mapping knows are the names of the three types. *)
Lemma type_mapping_item_known (type_str : value) (t : type) :
  type_mapping_item type_str = inl t -> type_str = VStr (name t).
Proof.
  destruct type_str; try discriminate. cbn [type_mapping_item lookup type_mapping].
  destruct (String.eqb s "int") eqn:E1; [apply String.eqb_eq in E1; now intros [= <-]; subst|].
  destruct (String.eqb s "float") eqn:E2; [apply String.eqb_eq in E2; now intros [= <-]; subst|].
  destruct (String.eqb s "str") eqn:E3; [apply String.eqb_eq in E3; now intros [= <-]; subst|].
  discriminate.
Qed.

Lemma type_mapping_item_unknown (type_str : value) :
  (forall t, type_str <> VStr (name t)) ->
  exists text, type_mapping_item type_str = inr text.
Proof.
  intros H. destruct (type_mapping_item type_str) as [t|text] eqn:E; [|eauto].
  apply type_mapping_item_known in E. now elim (H t).
Qed.

Lemma schema_set_keys_in (features : schema) (field : string) (t : type) (k : string) :
  In k (map fst (schema_set features field t)) <-> k = field \/ In k (map fst features).
Proof.
  induction features as [|[field' t'] rest IH]; cbn [schema_set map fst In].
  - intuition.
  - destruct (String.eqb field field') eqn:E; cbn [map fst In].
    + apply String.eqb_eq in E. subst. intuition.
    + rewrite IH. intuition.
Qed.

Lemma schema_set_nodup (features : schema) (field : string) (t : type) :
  NoDup (map fst features) -> NoDup (map fst (schema_set features field t)).
Proof.
  induction features as [|[field' t'] rest IH]; cbn [schema_set map fst]; intros H.
  - repeat constructor. intros [].
  - destruct (String.eqb field field') eqn:E; cbn [map fst]; [exact H|].
    apply NoDup_cons_iff in H as [Hnotin Hrest]. constructor; [|now apply IH].
    rewrite schema_set_keys_in. intros [-> | Hin]; [|contradiction].
    now rewrite String.eqb_refl in E.
Qed.

Lemma schema_set_new (features : schema) (field : string) (t : type) :
  ~ In field (map fst features) ->
  schema_set features field t = (features ++ [(field, t)])%list.
Proof.
  induction features as [|[field' t'] rest IH]; cbn [schema_set map fst In app]; intros H.
  - reflexivity.
  - destruct (String.eqb field field') eqn:E.
    + apply String.eqb_eq in E. subst. tauto.
    + rewrite IH by tauto. reflexivity.
Qed.

Lemma features_from_nodup (entries : dict) :
  forall features expected_features,
    NoDup (map fst features) ->
    features_from entries features = inl expected_features ->
    NoDup (map fst expected_features).
Proof.
  induction entries as [|[field type_str] rest IH]; intros features ef Hnodup H.
  - cbn in H. now injection H as <-.
  - cbn [features_from] in H. destruct (type_mapping_item type_str) as [t|e]; [|discriminate].
    exact (IH _ _ (schema_set_nodup features field t Hnodup) H).
Qed.

(** The comprehension over entries with distinct keys, none of them in
    the dictionary built so far. *)
Lemma features_from_declaration (entries : dict) :
  forall features expected_features,
    NoDup (map fst entries) ->
    (forall k, In k (map fst entries) -> ~ In k (map fst features)) ->
    features_from entries features = inl expected_features
    <-> exists added,
          expected_features = (features ++ added)%list /\ entries = declaration added.
Proof.
  induction entries as [|[field type_str] rest IH]; intros features ef Hnodup Hfresh.
  - cbn [features_from]. split.
    + intros [= <-]. exists []. now rewrite app_nil_r.
    + intros (added & -> & Hd). destruct added as [|[] ?]; [|discriminate].
      now rewrite app_nil_r.
  - cbn [map fst] in Hnodup. apply NoDup_cons_iff in Hnodup as [Hnotin Hrest].
    cbn [features_from].
    assert (Hnew : ~ In field (map fst features)) by (apply Hfresh; now left).
    destruct (type_mapping_item type_str) as [t|e] eqn:Ht.
    + rewrite (schema_set_new features field t Hnew).
      rewrite IH; [|assumption|].
      * apply type_mapping_item_known in Ht. subst type_str. split.
        -- intros (added & -> & ->). exists ((field, t) :: added).
           rewrite <- app_assoc. split; reflexivity.
        -- intros (added & -> & Hd). destruct added as [|[f0 t0] added]; [discriminate|].
           cbn [declaration map] in Hd. injection Hd as <- Ht0 ->.
           assert (t0 = t) as -> by (destruct t0, t; cbn in Ht0; congruence).
           exists added. rewrite <- app_assoc. split; reflexivity.
      * intros k Hk. rewrite map_app, in_app_iff. cbn [map fst In].
        intros [Hin | [<- | []]]; [|contradiction].
        apply (Hfresh k); [now right | assumption].
    + split; [discriminate|].
      intros (added & _ & Hd). destruct added as [|[f0 t0] added]; [discriminate|].
      cbn [declaration map] in Hd. injection Hd as _ Ht0 _. subst type_str.
      rewrite type_mapping_item_name in Ht. discriminate.
Qed.

Lemma features_from_declared (pre : schema) (rest : dict) :
  forall features,
    features_from (declaration pre ++ rest)%list features
    = features_from rest
        (fold_left (fun acc entry => schema_set acc (fst entry) (snd entry)) pre features).
Proof.
  induction pre as [|[field t] pre IH]; intros features; [reflexivity|].
  cbn [declaration map app features_from fold_left fst snd].
  rewrite type_mapping_item_name. apply IH.
Qed.

(** X21. From a [features.json] that holds an object (its keys distinct,
    as those of a parsed JSON object are), the schema the application
    starts with, nothing logged, is the one the object writes down: the
    same fields in the same order, each with the type its string names;
    and the application starts with a schema from such a file only when
    every string is ["int"], ["float"] or ["str"]. *)
Theorem loaded_schema_is_the_declared_one (d : dict) (expected_features : schema) :
  NoDup (map fst d) ->
  load_expected_features (Read (VDict d)) = ([], inl expected_features)
  <-> d = declaration expected_features.
Proof.
  intros Hnodup. unfold load_expected_features. cbn [items].
  pose proof (features_from_declaration d [] expected_features Hnodup
                ltac:(intros k _ [])) as H.
  cbn [app] in H.
  destruct (features_from d []) as [ef|e].
  - split.
    + intros [= <-]. destruct (proj1 H eq_refl) as (added & -> & ->). reflexivity.
    + intros ->.
      assert (Hx : @inl schema string ef = inl expected_features) by (apply H; eauto).
      now injection Hx as ->.
  - split; [discriminate|]. intros ->.
    assert (Hx : @inr schema string e = inl expected_features) by (apply H; eauto).
    discriminate.
Qed.

(** X21, run: a file with one field of each type. *)
Lemma loaded_schema_is_the_declared_one_witness :
  load_expected_features
    (Read (VDict [("LotArea", VStr "int"); ("Price", VStr "float"); ("Zone", VStr "str")]))
  = ([], inl [("LotArea", int); ("Price", float); ("Zone", str)]).
Proof.
  apply (loaded_schema_is_the_declared_one
           [("LotArea", VStr "int"); ("Price", VStr "float"); ("Zone", VStr "str")]
           [("LotArea", int); ("Price", float); ("Zone", str)]).
  - distinct_keys.
  - reflexivity.
Defined.

(** X22. Whatever reading [features.json] ends in, a schema the
    application starts with has no field twice: the hypothesis on the
    schema's keys made for the coercion pass holds of every loaded
    schema. *)
Theorem loaded_schema_has_distinct_fields
  (file : reading value) (expected_features : schema) :
  snd (load_expected_features file) = inl expected_features ->
  NoDup (map fst expected_features).
Proof.
  destruct file as [v| |e]; [|discriminate ..].
  unfold load_expected_features.
  destruct (items v) as [entries|e]; [|discriminate].
  destruct (features_from entries []) as [ef|e] eqn:H; [|discriminate].
  intros [= <-]. apply (features_from_nodup entries [] ef); [constructor | exact H].
Qed.

(** X22, run. *)
Lemma loaded_schema_has_distinct_fields_witness :
  NoDup (map fst [("LotArea", int); ("Price", float); ("Zone", str)]).
Proof.
  apply (loaded_schema_has_distinct_fields
           (Read (VDict [("LotArea", VStr "int"); ("Price", VStr "float");
                         ("Zone", VStr "str")]))).
  reflexivity.
Defined.

(** X23. A type name that is not ["int"], ["float"] or ["str"] stops the
    start-up, wherever it stands in [features.json] and whatever the model
    file is: one line is logged, ["Error loading expected features: "]
    with the text of the exception of the lookup, and the process exits
    with that text; the model is not loaded. *)
Theorem unknown_type_name_stops_the_start_up
  (model : Type) (model_file : model + string)
  (pre : schema) (field : string) (type_str : value) (post : dict) :
  (forall t, type_str <> VStr (name t)) ->
  exists text,
    type_mapping_item type_str = inr text /\
    startup (Read (VDict (declaration pre ++ (field, type_str) :: post)%list)) model_file
    = ([Log ERROR ("Error loading expected features: " ++ text)], inr (SystemExit text)).
Proof.
  intros H. destruct (type_mapping_item_unknown type_str H) as [text Htext].
  exists text. split; [assumption|].
  unfold startup, load_expected_features. cbn [items].
  rewrite features_from_declared. cbn [features_from]. rewrite Htext. reflexivity.
Qed.

(** X23, run: ["double"] as the type of the second field. *)
Lemma unknown_type_name_stops_the_start_up_witness :
  exists text,
    type_mapping_item (VStr "double") = inr text /\
    startup (Read (VDict [("LotArea", VStr "int"); ("Price", VStr "double");
                          ("Zone", VStr "text")]))
            (@inl (list Z) string [])
    = ([Log ERROR ("Error loading expected features: " ++ text)], inr (SystemExit text)).
Proof.
  apply (unknown_type_name_stops_the_start_up (list Z) (inl [])
           [("LotArea", int)] "Price" (VStr "double") [("Zone", VStr "text")]).
  intros []; discriminate.
Defined.

Example start_up_with_unknown_type_name :
  startup (Read (VDict [("LotArea", VStr "int"); ("Price", VStr "double")]))
          (@inl (list Z) string [])
  = ([Log ERROR "Error loading expected features: 'double'"], inr (SystemExit "'double'")).
Proof. reflexivity. Qed.

Example start_up_without_features_file :
  startup NotFound (@inl (list Z) string [])
  = ([Log ERROR "features.json file not found. Please ensure it exists in the project directory."],
     inr (SystemExit "features.json file is missing. Application cannot start without it.")).
Proof. reflexivity. Qed.

Example start_up_without_model :
  startup (Read (VDict [("LotArea", VStr "int")]))
          (@inr (list Z) string "[Errno 2] No such file or directory: 'home_price_model.pkl'")
  = ([Log ERROR "Error loading model: [Errno 2] No such file or directory: 'home_price_model.pkl'"],
     inr (SystemExit "[Errno 2] No such file or directory: 'home_price_model.pkl'")).
Proof. reflexivity. Qed.

(** ** The search for the tree size *)

Lemma SFltb_trans (a b c : float64) :
  SFltb a b = true -> SFltb b c = true -> SFltb a c = true.
Proof.
  unfold SFltb, SFcompare.
  destruct a as [sa|sa| |sa ma ea], b as [sb|sb| |sb mb eb], c as [sc|sc| |sc mc ec];
    try discriminate;
    repeat match goal with s : bool |- _ => destruct s end;
    try discriminate; try reflexivity;
    change (PosDef.Pos.compare_cont Eq) with Pos.compare;
    destruct (Z.compare_spec ea eb), (Z.compare_spec eb ec), (Z.compare_spec ea ec);
    try discriminate; try reflexivity; try lia;
    destruct (Pos.compare_spec ma mb), (Pos.compare_spec mb mc), (Pos.compare_spec ma mc);
    cbn; try discriminate; try reflexivity; try lia.
Qed.

(** [a < b] and not [c < b], [c] not a NaN: then [a < c]. *)
Lemma SFltb_le_trans (a b c : float64) :
  SFltb a b = true -> SFltb c b = false -> c <> S754_nan -> SFltb a c = true.
Proof.
  unfold SFltb, SFcompare.
  destruct a as [sa|sa| |sa ma ea], b as [sb|sb| |sb mb eb], c as [sc|sc| |sc mc ec];
    try discriminate; try congruence;
    repeat match goal with s : bool |- _ => destruct s end;
    try discriminate; try reflexivity; intros H1 H2 _;
    revert H1 H2;
    change (PosDef.Pos.compare_cont Eq) with Pos.compare;
    destruct (Z.compare_spec ea eb), (Z.compare_spec ec eb), (Z.compare_spec ea ec);
    try discriminate; try reflexivity; try lia;
    destruct (Pos.compare_spec ma mb), (Pos.compare_spec mc mb), (Pos.compare_spec ma mc);
    cbn; try discriminate; try reflexivity; try lia.
Qed.

Lemma SFltb_irrefl (a : float64) : SFltb a a = false.
Proof.
  unfold SFltb, SFcompare. destruct a as [s|s| |s m e]; try destruct s; try reflexivity;
    rewrite Z.compare_refl; change (PosDef.Pos.compare_cont Eq) with Pos.compare;
    now rewrite Pos.compare_refl.
Qed.

Lemma SFltb_below_infinity (a b : float64) :
  SFltb a b = true -> SFltb a (S754_infinity false) = true /\ a <> S754_nan.
Proof.
  unfold SFltb, SFcompare.
  destruct a as [sa|sa| |sa ma ea]; try discriminate;
    destruct b as [sb|sb| |sb mb eb]; try discriminate;
    repeat match goal with s : bool |- _ => destruct s end;
    try discriminate; intros _; split; try reflexivity; discriminate.
Qed.

Section SearchFacts.

Import Production.

Variable mae_for : Z -> float64 + string.

(** The loop keeps [best_size] the first size with the smallest error. *)
Lemma search_first_minimum (todo : list Z) :
  forall seen st st',
    first_minimum mae_for seen st ->
    search mae_for todo st = inl st' ->
    first_minimum mae_for (seen ++ todo) st'.
Proof.
  induction todo as [|c rest IH]; intros seen st st' Hinv H.
  - cbn in H. injection H as <-. now rewrite app_nil_r.
  - cbn [search] in H. destruct (mae_for c) as [mc|e] eqn:Hc; [|discriminate].
    replace (seen ++ c :: rest)%list with ((seen ++ [c]) ++ rest)%list
      by (now rewrite <- app_assoc).
    destruct Hinv as (Hnan & Hseen & Hbest).
    destruct (SFltb mc (best_mae st)) eqn:Hlt.
    + refine (IH _ _ _ _ H). unfold first_minimum. cbn [best_mae best_size].
      destruct (SFltb_below_infinity _ _ Hlt) as [Hinf Hmc].
      split; [assumption|]. split.
      * intros c' mc' Hin Hc'. apply in_app_iff in Hin as [Hin | [<- | []]].
        -- destruct (SFltb mc' mc) eqn:E; [|reflexivity].
           rewrite <- (Hseen c' mc' Hin Hc'). symmetry. now apply (SFltb_trans mc' mc).
        -- rewrite Hc in Hc'. injection Hc' as <-. apply SFltb_irrefl.
      * exists seen, []. split; [reflexivity|]. split; [assumption|]. split; [assumption|].
        intros c' mc' Hin Hc'.
        assert (Hd : mc' = S754_nan \/ mc' <> S754_nan)
          by (destruct mc'; (now left) || (right; discriminate)).
        destruct Hd as [-> | Hd]; [now right | left].
        exact (SFltb_le_trans mc (best_mae st) mc' Hlt (Hseen c' mc' Hin Hc') Hd).
    + refine (IH _ _ _ _ H). split; [assumption|]. split.
      * intros c' mc' Hin Hc'. apply in_app_iff in Hin as [Hin | [<- | []]].
        -- now apply (Hseen c' mc').
        -- rewrite Hc in Hc'. now injection Hc' as <-.
      * destruct (best_size st) as [s|]; [|assumption].
        destruct Hbest as (pre & post & -> & Hs & Hinf & Hpre).
        exists pre, (post ++ [c])%list. rewrite <- app_assoc. cbn [app].
        repeat split; assumption.
Qed.

(** X24. When [find_best_tree_size] returns -- no fit raised -- it returns
    the first of the sizes [5, 25, 50, 100, 250, 500, 5000] whose tree has
    the smallest error on the validation set: the error of that size is
    below infinity, that of every size before it is larger (or is a NaN),
    none is smaller; and it returns [None] only when no error is below
    infinity. *)
Theorem find_best_tree_size_is_the_first_minimum (result : option Z) :
  find_best_tree_size mae_for = inl result ->
  match result with
  | Some s =>
    exists pre post mae,
      sizes = (pre ++ s :: post)%list /\
      mae_for s = inl mae /\
      SFltb mae (S754_infinity false) = true /\
      (forall c mc, In c pre -> mae_for c = inl mc ->
         SFltb mae mc = true \/ mc = S754_nan) /\
      (forall c mc, In c sizes -> mae_for c = inl mc -> SFltb mc mae = false)
  | None =>
    forall c mc, In c sizes -> mae_for c = inl mc ->
      SFltb mc (S754_infinity false) = false
  end.
Proof.
  unfold find_best_tree_size.
  destruct (search mae_for sizes _) as [st|e] eqn:Hs; [|discriminate].
  intros [= <-].
  assert (Hinit : first_minimum mae_for []
                    {| best_size := None; best_mae := S754_infinity false |}).
  { split; [discriminate|]. split; [intros c mc []|reflexivity]. }
  pose proof (search_first_minimum sizes [] _ st Hinit Hs) as (Hnan & Hall & Hbest).
  cbn [app] in *.
  destruct (best_size st) as [s|].
  - destruct Hbest as (pre & post & Heq & Hms & Hinf & Hpre).
    exists pre, post, (best_mae st). repeat split; assumption.
  - rewrite Hbest in Hall. exact Hall.
Qed.

End SearchFacts.

(** X24, run: 50 and 100 do equally well, and 50 comes first. *)
Lemma find_best_tree_size_is_the_first_minimum_witness :
  exists pre post mae,
    Production.sizes = (pre ++ 50 :: post)%list /\
    error_curve 50 = inl mae /\
    SFltb mae (S754_infinity false) = true /\
    (forall c mc, In c pre -> error_curve c = inl mc ->
       SFltb mae mc = true \/ mc = S754_nan) /\
    (forall c mc, In c Production.sizes -> error_curve c = inl mc -> SFltb mc mae = false).
Proof.
  exact (find_best_tree_size_is_the_first_minimum error_curve (Some 50) eq_refl).
Defined.

Example find_best_tree_size_stops_at_an_exception :
  Production.find_best_tree_size
    (fun n => if n =? 100 then inr "Input contains NaN." else error_curve n)
  = inr "Input contains NaN.".
Proof. reflexivity. Qed.
